(** * Output pipeline of the Gambatte libretro core (SF2000 build)

  A shallow embedding of the audio output buffer, the frame pacer, the
  variable-speed controller, the "mix" interframe blender and the fake
  real-time clock, as written in
  [libgambatte/libretro/libretro.cpp] and
  [libgambatte/src/mem/fake_rtc.cpp], together with the properties the
  design document states about them.

  Machine integers are [Z] with the wrap-around of their C type written
  out; C arrays are lists indexed by [nat]; the host's callbacks and the
  emulation core are section variables. *)

From Stdlib Require Import ZArith Lia Bool List Ascii String.
From stdpp Require Import base tactics list strings gmap.
Import ListNotations.

Local Open Scope Z_scope.

(** ** Machine arithmetic *)

Module Mach.

(** [uint32_t] / [unsigned]: reduction modulo 2^32. *)
Definition u32 (x : Z) : Z := x mod 2 ^ 32.

(** [uint64_t]: reduction modulo 2^64. *)
Definition u64 (x : Z) : Z := x mod 2 ^ 64.

(** [uint16_t]: reduction modulo 2^16. *)
Definition u16 (x : Z) : Z := x mod 2 ^ 16.

(** [int] (32 bits, two's complement): wrap into [-2^31, 2^31). *)
Definition i32 (x : Z) : Z := (x + 2 ^ 31) mod 2 ^ 32 - 2 ^ 31.

Definition INT_MIN : Z := - 2 ^ 31.
Definition INT_MAX : Z := 2 ^ 31 - 1.

End Mach.

(** ** Fake real-time clock ([fake_rtc.cpp]) *)

Module FakeRtc.
Import Mach.

(** [fake_rtc_state_type] of [fake_rtc.h]. *)
Record fake_rtc_state_type := {
  total_minutes  : Z;    (* uint32_t *)
  last_real_time : Z;    (* uint32_t *)
  enabled        : bool;
  needs_save     : bool
}.

Definition set_total_minutes (s : fake_rtc_state_type) (m : Z) :=
  {| total_minutes := m; last_real_time := last_real_time s;
     enabled := enabled s; needs_save := needs_save s |}.

Definition set_needs_save (s : fake_rtc_state_type) (b : bool) :=
  {| total_minutes := total_minutes s; last_real_time := last_real_time s;
     enabled := enabled s; needs_save := b |}.

(** [FakeRtc::bump_time(int bump_minutes)].  The argument is an [int];
    [static_cast<uint32_t>] is [u32], the unary minus is the [int]
    negation [i32 (- _)], and [+=] / [-=] on [total_minutes] are
    [uint32_t] operations. *)
Definition bump_time (s : fake_rtc_state_type) (bump_minutes : Z)
  : fake_rtc_state_type :=
  if negb (enabled s) then s
  else
    let s1 :=
      if 0 <? bump_minutes then
        set_total_minutes s (u32 (total_minutes s + u32 bump_minutes))
      else if bump_minutes <? 0 then
        let abs_bump := u32 (i32 (- bump_minutes)) in
        if total_minutes s <? abs_bump then set_total_minutes s 0
        else set_total_minutes s (u32 (total_minutes s - abs_bump))
      else s in
    set_needs_save s1 true.

(** Well-formed clock state: the counter is a [uint32_t]. *)
Definition rtc_wf (s : fake_rtc_state_type) : Prop :=
  0 <= total_minutes s < 2 ^ 32.

Definition rtc_sample (minutes : Z) (on : bool) : fake_rtc_state_type :=
  {| total_minutes := minutes; last_real_time := 0;
     enabled := on; needs_save := false |}.

End FakeRtc.

(** ** Host events

    What the core hands to the frontend during a pass, in call order. *)

Inductive event :=
| EvVideo (frame : option (list Z)) (width height pitch : Z)
    (* video_cb; [None] is the NULL "repeat last frame" reference *)
| EvAudioBatch (data : list Z) (frames : Z) (accepted : Z)
    (* audio_batch_cb: the slice offered, its length in sample pairs, and
       the number of pairs the frontend reports as taken *)
| EvRunFor (render : bool) (ret : Z) (samples : Z)   (* one GB::runFor call *)
| EvSetAvInfo (fps_multiplier : Z)   (* RETRO_ENVIRONMENT_SET_SYSTEM_AV_INFO *)
| EvPaletteSwitch (palette_index : Z).   (* palette_switch_set_index *)

(** ** Joypad handling and the speed controller ([update_input_state]) *)

Module Input.
Import Mach.

(** Constants of headers that are not part of the sources at hand:
    the [gambatte::InputGetter] button masks and the
    [RETRO_DEVICE_ID_JOYPAD_*] identifiers of [libretro.h]. *)
Record abi := {
  IG_A : Z; IG_B : Z; IG_SELECT : Z; IG_START : Z;
  IG_RIGHT : Z; IG_LEFT : Z; IG_UP : Z; IG_DOWN : Z;
  JOYPAD_A : Z; JOYPAD_B : Z; JOYPAD_SELECT : Z; JOYPAD_START : Z;
  JOYPAD_RIGHT : Z; JOYPAD_LEFT : Z; JOYPAD_UP : Z; JOYPAD_DOWN : Z;
  JOYPAD_X : Z; JOYPAD_Y : Z; JOYPAD_L : Z; JOYPAD_R : Z;
  JOYPAD_MASK : Z
}.

(** The values those headers give the constants (libretro.h and
    gambatte's inputgetter.h); used to run the model on concrete input. *)
Definition libretro_abi : abi :=
  {| IG_A := 0x01; IG_B := 0x02; IG_SELECT := 0x04; IG_START := 0x08;
     IG_RIGHT := 0x10; IG_LEFT := 0x20; IG_UP := 0x40; IG_DOWN := 0x80;
     JOYPAD_A := 8; JOYPAD_B := 0; JOYPAD_SELECT := 2; JOYPAD_START := 3;
     JOYPAD_RIGHT := 7; JOYPAD_LEFT := 6; JOYPAD_UP := 4; JOYPAD_DOWN := 5;
     JOYPAD_X := 9; JOYPAD_Y := 1; JOYPAD_L := 10; JOYPAD_R := 11;
     JOYPAD_MASK := 256 |}.

Definition TURBO_PERIOD_MIN : Z := 4.
Definition TURBO_PULSE_WIDTH_MIN : Z := 2.
Definition PALETTE_SWITCH_PERIOD : Z := 30.
Definition NUM_PALETTES_TOTAL : Z := 51 + 100 + 100 + 100 + 45.

(** The SF2000 speed globals. *)
Record speed := {
  sf2000_fastforward_state        : Z;   (* unsigned; 0=1x, 1=3x, 2=5x *)
  sf2000_select_a_prev            : bool;
  sf2000_slowmotion_state         : Z;   (* unsigned *)
  sf2000_select_b_prev            : bool;
  sf2000_frame_counter            : Z;   (* unsigned *)
  sf2000_slowmotion_frame_counter : Z    (* unsigned *)
}.

(** Startup values of the speed globals. *)
Definition speed_init : speed :=
  {| sf2000_fastforward_state := 0; sf2000_select_a_prev := false;
     sf2000_slowmotion_state := 0; sf2000_select_b_prev := false;
     sf2000_frame_counter := 0; sf2000_slowmotion_frame_counter := 0 |}.

(** Joypad globals written by [update_input_state]. *)
Record pad := {
  libretro_input_state   : Z;   (* unsigned *)
  turbo_a_counter        : Z;   (* unsigned *)
  turbo_b_counter        : Z;   (* unsigned *)
  palette_switch_counter : Z    (* unsigned *)
}.

(** Globals [update_input_state] only reads. *)
Record pad_config := {
  libretro_supports_bitmasks     : bool;
  libretro_supports_set_variable : bool;
  internal_palette_active        : bool;
  internal_palette_index         : Z;   (* size_t *)
  up_down_allowed                : bool;
  turbo_period                   : Z;   (* unsigned *)
  turbo_pulse_width              : Z    (* unsigned *)
}.

(** The iteration count chosen for a non-zero fast-forward state:
    [(sf2000_fastforward_state == 1) ? 3 : 5]. *)
Definition speed_multiplier (ff : Z) : Z := if ff =? 1 then 3 else 5.

(** [set_fastforward_override(speed_state)] (SF2000 variant): logs and
    clears [sf2000_frame_counter]. *)
Definition set_fastforward_override (sp : speed) : speed :=
  {| sf2000_fastforward_state := sf2000_fastforward_state sp;
     sf2000_select_a_prev := sf2000_select_a_prev sp;
     sf2000_slowmotion_state := sf2000_slowmotion_state sp;
     sf2000_select_b_prev := sf2000_select_b_prev sp;
     sf2000_frame_counter := 0;
     sf2000_slowmotion_frame_counter := sf2000_slowmotion_frame_counter sp |}.

(** [retro_get_system_av_info] followed by
    [environ_cb(RETRO_ENVIRONMENT_SET_SYSTEM_AV_INFO, ...)]: the frame
    rate reported is [VIDEO_REFRESH_RATE] times the multiplier below. *)
Definition notify_av_info (sp : speed) : event :=
  EvSetAvInfo (if 0 <? sf2000_fastforward_state sp
               then speed_multiplier (sf2000_fastforward_state sp) else 1).

(** The SELECT+A block: on a rising edge of the chord, leave slow motion
    and step the fast-forward state. *)
Definition select_a_chord (select_pressed a_pressed : bool) (sp : speed)
  : speed * list event :=
  let sf2000_select_a_current := select_pressed && a_pressed in
  let '(sp1, evs) :=
    if sf2000_select_a_current && negb (sf2000_select_a_prev sp) then
      let sp' := set_fastforward_override
        {| sf2000_fastforward_state :=
             u32 (sf2000_fastforward_state sp + 1) mod 3;
           sf2000_select_a_prev := sf2000_select_a_prev sp;
           sf2000_slowmotion_state := 0;
           sf2000_select_b_prev := sf2000_select_b_prev sp;
           sf2000_frame_counter := sf2000_frame_counter sp;
           sf2000_slowmotion_frame_counter := 0 |} in
      (sp', [notify_av_info sp'])
    else (sp, []) in
  ({| sf2000_fastforward_state := sf2000_fastforward_state sp1;
      sf2000_select_a_prev := sf2000_select_a_current;
      sf2000_slowmotion_state := sf2000_slowmotion_state sp1;
      sf2000_select_b_prev := sf2000_select_b_prev sp1;
      sf2000_frame_counter := sf2000_frame_counter sp1;
      sf2000_slowmotion_frame_counter := sf2000_slowmotion_frame_counter sp1 |},
   evs).

(** The SELECT+B block: on a rising edge of the chord, leave fast forward
    and step the slow-motion state. *)
Definition select_b_chord (select_pressed b_pressed : bool) (sp : speed)
  : speed :=
  let sf2000_select_b_current := select_pressed && b_pressed in
  let sp1 :=
    if sf2000_select_b_current && negb (sf2000_select_b_prev sp) then
      let sp0 := set_fastforward_override
        {| sf2000_fastforward_state := 0;
           sf2000_select_a_prev := sf2000_select_a_prev sp;
           sf2000_slowmotion_state := sf2000_slowmotion_state sp;
           sf2000_select_b_prev := sf2000_select_b_prev sp;
           sf2000_frame_counter := sf2000_frame_counter sp;
           sf2000_slowmotion_frame_counter :=
             sf2000_slowmotion_frame_counter sp |} in
      {| sf2000_fastforward_state := sf2000_fastforward_state sp0;
         sf2000_select_a_prev := sf2000_select_a_prev sp0;
         sf2000_slowmotion_state :=
           u32 (sf2000_slowmotion_state sp0 + 1) mod 3;
         sf2000_select_b_prev := sf2000_select_b_prev sp0;
         sf2000_frame_counter := sf2000_frame_counter sp0;
         sf2000_slowmotion_frame_counter := 0 |}
    else sp in
  {| sf2000_fastforward_state := sf2000_fastforward_state sp1;
     sf2000_select_a_prev := sf2000_select_a_prev sp1;
     sf2000_slowmotion_state := sf2000_slowmotion_state sp1;
     sf2000_select_b_prev := sf2000_select_b_current;
     sf2000_frame_counter := sf2000_frame_counter sp1;
     sf2000_slowmotion_frame_counter := sf2000_slowmotion_frame_counter sp1 |}.

(** Both chord blocks in source order. *)
Definition sf2000_chords (select_pressed a_pressed b_pressed : bool)
  (sp : speed) : speed * list event :=
  let '(sp1, evs) := select_a_chord select_pressed a_pressed sp in
  (select_b_chord select_pressed b_pressed sp1, evs).

Section WithAbi.
Variable k : abi.

(** [input::btn_map]; both members of [struct map] are [unsigned]. *)
Definition btn_map : list (Z * Z) :=
  [ (u32 (JOYPAD_A k), u32 (IG_A k));
    (u32 (JOYPAD_B k), u32 (IG_B k));
    (u32 (JOYPAD_SELECT k), u32 (IG_SELECT k));
    (u32 (JOYPAD_START k), u32 (IG_START k));
    (u32 (JOYPAD_RIGHT k), u32 (IG_RIGHT k));
    (u32 (JOYPAD_LEFT k), u32 (IG_LEFT k));
    (u32 (JOYPAD_UP k), u32 (IG_UP k));
    (u32 (JOYPAD_DOWN k), u32 (IG_DOWN k)) ].

(** [ret & (1 << id)] read as a truth value (bitmask branch). *)
Definition mask_bit (ret id : Z) : bool :=
  negb (Z.land ret (Z.shiftl 1 id) =? 0).

(** [input_state_cb(0, RETRO_DEVICE_JOYPAD, 0, id)] read as a truth value
    (per-button branch). *)
Definition cb_bit (input_state_cb : Z -> Z) (id : Z) : bool :=
  negb (input_state_cb id =? 0).

(** How a button is read: the two branches of [update_input_state] run
    the same statements and differ only in this. *)
Definition pressed (cfg : pad_config) (input_state_cb : Z -> Z) (id : Z)
  : bool :=
  if libretro_supports_bitmasks cfg
  then mask_bit (input_state_cb (JOYPAD_MASK k)) id
  else cb_bit input_state_cb id.

(** The [for] loop over [btn_map]: [res |= pressed ? gb : 0]. *)
Definition read_buttons (is_pressed : Z -> bool) : Z :=
  fold_left
    (fun res m => Z.lor res (if is_pressed (fst m) then snd m else 0))
    btn_map 0.

(** [if (res & X) if (res & Y) res &= ~(X | Y);] *)
Definition clear_pair (x y res : Z) : Z :=
  if negb (Z.land res (u32 x) =? 0) then
    if negb (Z.land res (u32 y) =? 0) then
      Z.land res (u32 (Z.lnot (Z.lor x y)))
    else res
  else res.

(** The [!up_down_allowed] block. *)
Definition clear_opposites (res : Z) : Z :=
  clear_pair (IG_LEFT k) (IG_RIGHT k) (clear_pair (IG_UP k) (IG_DOWN k) res).

(** One turbo button: returns the new [res] and the new counter. *)
Definition turbo_button (held : bool) (counter period width gb res : Z)
  : Z * Z :=
  if held then
    let res' := Z.lor res (u32 (if counter <? width then gb else 0)) in
    let c := u32 (counter + 1) in
    (res', if period <=? c then 0 else c)
  else (res, 0).

(** [palette_switch_set_index]: clamps the index and notifies the
    frontend. *)
Definition palette_switch_set_index (palette_index : Z) : event :=
  EvPaletteSwitch
    (if NUM_PALETTES_TOTAL <=? palette_index
     then NUM_PALETTES_TOTAL - 1 else palette_index).

(** The palette switching block: returns the new
    [palette_switch_counter] and the notifications sent. *)
Definition palette_switch (palette_prev palette_next : bool)
  (cfg : pad_config) (counter : Z) : Z * list event :=
  if palette_prev || palette_next then
    let evs :=
      if counter =? 0 then
        let palette_index := internal_palette_index cfg in
        let palette_index :=
          if palette_prev then
            if 0 <? palette_index then palette_index - 1
            else NUM_PALETTES_TOTAL - 1
          else
            if palette_index <? NUM_PALETTES_TOTAL - 1 then palette_index + 1
            else 0 in
        [palette_switch_set_index palette_index]
      else [] in
    let c := u32 (counter + 1) in
    (if PALETTE_SWITCH_PERIOD <=? c then 0 else c, evs)
  else (0, []).

(** [update_input_state]. *)
Definition update_input_state (input_state_cb : Z -> Z) (cfg : pad_config)
  (sp : speed) (pd : pad) : speed * pad * list event :=
  let palette_switch_enabled :=
    libretro_supports_set_variable cfg && internal_palette_active cfg in
  let is_pressed := pressed cfg input_state_cb in
  let res := read_buttons is_pressed in
  let '(sp', evs_speed) :=
    sf2000_chords (is_pressed (JOYPAD_SELECT k)) (is_pressed (JOYPAD_A k))
      (is_pressed (JOYPAD_B k)) sp in
  let turbo_a := is_pressed (JOYPAD_X k) in
  let turbo_b := is_pressed (JOYPAD_Y k) in
  let palette_prev := palette_switch_enabled && is_pressed (JOYPAD_L k) in
  let palette_next := palette_switch_enabled && is_pressed (JOYPAD_R k) in
  let res := if negb (up_down_allowed cfg) then clear_opposites res else res in
  let '(res, ta) :=
    turbo_button turbo_a (turbo_a_counter pd) (turbo_period cfg)
      (turbo_pulse_width cfg) (IG_A k) res in
  let '(res, tb) :=
    turbo_button turbo_b (turbo_b_counter pd) (turbo_period cfg)
      (turbo_pulse_width cfg) (IG_B k) res in
  let '(pc, evs_palette) :=
    palette_switch palette_prev palette_next cfg (palette_switch_counter pd) in
  (sp',
   {| libretro_input_state := res; turbo_a_counter := ta;
      turbo_b_counter := tb; palette_switch_counter := pc |},
   evs_speed ++ evs_palette).

(** *** Vocabulary of the properties *)

(** The SELECT+A chord is down on this pass. *)
Definition chord_a (cfg : pad_config) (cb : Z -> Z) : bool :=
  pressed cfg cb (JOYPAD_SELECT k) && pressed cfg cb (JOYPAD_A k).

(** The SELECT+B chord is down on this pass. *)
Definition chord_b (cfg : pad_config) (cb : Z -> Z) : bool :=
  pressed cfg cb (JOYPAD_SELECT k) && pressed cfg cb (JOYPAD_B k).

(** A run of passes: each element is what the frontend reports on that
    pass, with the configuration then in force. *)
Fixpoint run_inputs (ticks : list (pad_config * (Z -> Z))) (sp : speed)
  (pd : pad) : speed * pad :=
  match ticks with
  | [] => (sp, pd)
  | (cfg, cb) :: rest =>
      let '(sp', pd', _) := update_input_state cb cfg sp pd in
      run_inputs rest sp' pd'
  end.

(** Number of rising edges of the SELECT+A chord in a run, given the
    level [prev] seen on the pass before it. *)
Fixpoint a_edges (prev : bool) (ticks : list (pad_config * (Z -> Z))) : nat :=
  match ticks with
  | [] => O
  | (cfg, cb) :: rest =>
      ((if chord_a cfg cb && negb prev then 1 else 0)
       + a_edges (chord_a cfg cb) rest)%nat
  end.

(** No pass of the run sees a rising edge of the SELECT+B chord. *)
Fixpoint no_b_edge (prev : bool) (ticks : list (pad_config * (Z -> Z)))
  : bool :=
  match ticks with
  | [] => true
  | (cfg, cb) :: rest =>
      negb (chord_b cfg cb && negb prev) && no_b_edge (chord_b cfg cb) rest
  end.

(** [res] has a bit of mask [m] set: the test [res & m] of the source. *)
Definition has (res m : Z) : bool := negb (Z.land res (u32 m) =? 0).

(** What the properties need of the header constants: the eight button
    masks are non-negative [int] values, and the turbo buttons A and B
    share no bit with a direction. *)
Definition abi_wf : Prop :=
  Forall (fun m => 0 <= m < 2 ^ 31)
    [IG_A k; IG_B k; IG_SELECT k; IG_START k;
     IG_RIGHT k; IG_LEFT k; IG_UP k; IG_DOWN k] /\
  Forall (fun d => Z.land (IG_A k) d = 0 /\ Z.land (IG_B k) d = 0)
    [IG_UP k; IG_DOWN k; IG_LEFT k; IG_RIGHT k].

End WithAbi.

(** A frontend reporting every button as held (all bits of the [int16_t]
    bitmask set). *)
Definition all_held (id : Z) : Z := if id =? 256 then -1 else 1.

Definition pad_config_default (bitmasks : bool) : pad_config :=
  {| libretro_supports_bitmasks := bitmasks;
     libretro_supports_set_variable := false;
     internal_palette_active := false; internal_palette_index := 0;
     up_down_allowed := false; turbo_period := TURBO_PERIOD_MIN;
     turbo_pulse_width := TURBO_PULSE_WIDTH_MIN |}.

Definition pad_init : pad :=
  {| libretro_input_state := 0; turbo_a_counter := 0;
     turbo_b_counter := 0; palette_switch_counter := 0 |}.

(** Frontend reports, per-button interface: SELECT and A held. *)
Definition held_select_a (id : Z) : Z :=
  if (id =? 2) || (id =? 8) then 1 else 0.

(** Frontend reports: SELECT, A and B held. *)
Definition held_select_a_b (id : Z) : Z :=
  if (id =? 2) || (id =? 8) || (id =? 0) then 1 else 0.

(** Frontend reports: nothing held. *)
Definition held_none (id : Z) : Z := 0.

Definition tick_of (cb : Z -> Z) : pad_config * (Z -> Z) :=
  (pad_config_default false, cb).

(** Press, hold, release, press, release, press and hold: three edges. *)
Definition three_presses : list (pad_config * (Z -> Z)) :=
  map tick_of [held_select_a; held_select_a; held_none; held_select_a;
               held_none; held_select_a; held_select_a].

End Input.

(** ** Audio output buffer ([audio_out_buffer_*], [audio_upload_samples]) *)

Module Audio.
Import Mach.

(** The four audio globals.  [audio_out_buffer] lists the cells of the
    allocation ([[]] for NULL); sizes and the cursor count [int16_t]
    cells, the batch ceiling counts sample pairs. *)
Record audio_state := {
  audio_out_buffer       : list Z;   (* int16_t * *)
  audio_out_buffer_size  : Z;        (* size_t *)
  audio_out_buffer_pos   : Z;        (* size_t *)
  audio_batch_frames_max : Z         (* size_t *)
}.

Section WithPlatform.

(** [SIZE_MAX + 1] of the target, and the value found in freshly
    allocated cells (nothing below depends on it). *)
Variable SIZE_MOD : Z.
Variable uninit : Z.

(** The frontend's audio sink: given the slice offered and its length in
    sample pairs, it reports how many pairs it took. *)
Variable Host : Type.
Variable audio_batch_cb : Host -> list Z -> Z -> Z * Host.

(** [size_t] arithmetic. *)
Definition sz (x : Z) : Z := x mod SIZE_MOD.

(** Number of [int16_t] cells in [n * sizeof(int16_t)] bytes. *)
Definition cells_of (n : Z) : nat := Z.to_nat (sz (n * 2) / 2).

(** [(int16_t * )malloc(n * sizeof(int16_t))]. *)
Definition malloc_i16 (n : Z) : list Z := replicate (cells_of n) uninit.

(** [memcpy(dst + off, src, n * sizeof(int16_t))]. *)
Definition memcpy (dst : list Z) (off : nat) (src : list Z) (n : nat)
  : list Z :=
  take off dst ++ take n src ++ drop (off + n) dst.

(** Load-time values of the globals. *)
Definition audio_initial : audio_state :=
  {| audio_out_buffer := []; audio_out_buffer_size := 0;
     audio_out_buffer_pos := 0;
     audio_batch_frames_max := sz (Z.shiftl 1 16) |}.

(** [audio_out_buffer_init].  [samples_per_frame] is the source's
    [(size_t)samples_per_frame], the truncation of a [float] quotient. *)
Definition audio_out_buffer_init (samples_per_frame : Z) : audio_state :=
  let buffer_size := sz (Z.shiftl (sz (samples_per_frame + 1)) 1) in
  let buffer_size := sz (Z.shiftl buffer_size 1) in
  {| audio_out_buffer := malloc_i16 buffer_size;
     audio_out_buffer_size := buffer_size;
     audio_out_buffer_pos := 0;
     audio_batch_frames_max := sz (Z.shiftl 1 16) |}.

(** [audio_out_buffer_deinit]. *)
Definition audio_out_buffer_deinit (st : audio_state) : audio_state :=
  {| audio_out_buffer := []; audio_out_buffer_size := 0;
     audio_out_buffer_pos := 0;
     audio_batch_frames_max := sz (Z.shiftl 1 16) |}.

(** The local [buffer_capacity] of [audio_out_buffer_resize]. *)
Definition buffer_capacity (st : audio_state) : Z :=
  Z.shiftr (sz (audio_out_buffer_size st - audio_out_buffer_pos st)) 1.

(** [audio_out_buffer_resize]. *)
Definition audio_out_buffer_resize (st : audio_state) (num_samples : Z)
  : audio_state :=
  if buffer_capacity st <? num_samples then
    let tmp_buffer_size :=
      sz (audio_out_buffer_size st
          + sz (Z.shiftl (sz (num_samples - buffer_capacity st)) 1)) in
    let tmp_buffer_size :=
      sz (sz (Z.shiftl tmp_buffer_size 1) - Z.shiftr tmp_buffer_size 1) in
    let tmp_buffer := malloc_i16 tmp_buffer_size in
    let tmp_buffer :=
      memcpy tmp_buffer 0 (audio_out_buffer st)
        (cells_of (audio_out_buffer_pos st)) in
    {| audio_out_buffer := tmp_buffer;
       audio_out_buffer_size := tmp_buffer_size;
       audio_out_buffer_pos := audio_out_buffer_pos st;
       audio_batch_frames_max := audio_batch_frames_max st |}
  else st.

(** [audio_out_buffer_write]: [samples] holds [num_samples] sample pairs. *)
Definition audio_out_buffer_write (st : audio_state) (samples : list Z)
  (num_samples : Z) : audio_state :=
  let st1 := audio_out_buffer_resize st num_samples in
  {| audio_out_buffer :=
       memcpy (audio_out_buffer st1) (Z.to_nat (audio_out_buffer_pos st1))
         samples (cells_of (sz (Z.shiftl num_samples 1)));
     audio_out_buffer_size := audio_out_buffer_size st1;
     audio_out_buffer_pos :=
       sz (audio_out_buffer_pos st1 + sz (Z.shiftl num_samples 1));
     audio_batch_frames_max := audio_batch_frames_max st1 |}.

(** [audio_out_buffer_read_blipper]: [stereo] is what the two
    [blipper_read] calls (stride 2, left then right) leave in the
    [2 * num_samples] cells starting at the cursor. *)
Definition audio_out_buffer_read_blipper (st : audio_state)
  (stereo : list Z) (num_samples : Z) : audio_state :=
  let st1 := audio_out_buffer_resize st num_samples in
  {| audio_out_buffer :=
       memcpy (audio_out_buffer st1) (Z.to_nat (audio_out_buffer_pos st1))
         stereo (Z.to_nat (2 * num_samples));
     audio_out_buffer_size := audio_out_buffer_size st1;
     audio_out_buffer_pos :=
       sz (audio_out_buffer_pos st1 + sz (Z.shiftl num_samples 1));
     audio_batch_frames_max := audio_batch_frames_max st1 |}.

(** The [while (num_samples > 0)] loop of [audio_upload_samples].  [ptr]
    is the offset of [audio_out_buffer_ptr] into the buffer.  The loop
    has no exit of its own when the ceiling is 0; [fuel] bounds the
    iterations and [None] stands for "still running". *)
Fixpoint upload_loop (fuel : nat) (h : Host) (buf : list Z) (ptr : Z)
  (num_samples : Z) (batch_max : Z) : option (Host * Z * list event) :=
  if 0 <? num_samples then
    match fuel with
    | O => None
    | S fuel' =>
        let samples_to_write :=
          if batch_max <? num_samples then batch_max else num_samples in
        let data :=
          take (Z.to_nat (2 * samples_to_write)) (drop (Z.to_nat ptr) buf) in
        let '(ret, h') := audio_batch_cb h data samples_to_write in
        let samples_written := sz ret in
        let batch_max' :=
          if (samples_written <? samples_to_write) && (0 <? samples_written)
          then samples_written else batch_max in
        match upload_loop fuel' h' buf
                (ptr + sz (Z.shiftl samples_to_write 1))
                (sz (num_samples - samples_to_write)) batch_max' with
        | Some (h'', m, evs) =>
            Some (h'', m, EvAudioBatch data samples_to_write samples_written
                          :: evs)
        | None => None
        end
    end
  else Some (h, batch_max, []).

(** [audio_upload_samples] (SF2000 variant).  The three globals it reads
    besides the audio ones are arguments.  Every iteration that ends
    removes at least one sample pair, so [num_samples] iterations are
    enough whenever the loop ends at all. *)
Definition audio_upload_samples (ff slowmo : Z)
  (fast_forward_audio_enabled : bool) (st : audio_state) (h : Host)
  : option (audio_state * Host * list event) :=
  let num_samples := Z.shiftr (audio_out_buffer_pos st) 1 in
  if ((0 <? ff) || (0 <? slowmo)) && negb fast_forward_audio_enabled then
    Some ({| audio_out_buffer := audio_out_buffer st;
             audio_out_buffer_size := audio_out_buffer_size st;
             audio_out_buffer_pos := 0;
             audio_batch_frames_max := audio_batch_frames_max st |}, h, [])
  else
    match upload_loop (Z.to_nat num_samples) h (audio_out_buffer st) 0
            num_samples (audio_batch_frames_max st) with
    | Some (h', m, evs) =>
        Some ({| audio_out_buffer := audio_out_buffer st;
                 audio_out_buffer_size := audio_out_buffer_size st;
                 audio_out_buffer_pos := 0;
                 audio_batch_frames_max := m |}, h', evs)
    | None => None
    end.

(** *** Vocabulary of the properties *)

(** A state the functions above can run on without leaving the
    allocation: the buffer has [audio_out_buffer_size] cells, whose byte
    count fits a [size_t], and the cursor is inside it. *)
Definition audio_wf (st : audio_state) : Prop :=
  length (audio_out_buffer st) = Z.to_nat (audio_out_buffer_size st) /\
  0 <= audio_out_buffer_pos st <= audio_out_buffer_size st /\
  2 * audio_out_buffer_size st < SIZE_MOD.

(** The cells written and not yet uploaded. *)
Definition pending (st : audio_state) : list Z :=
  take (Z.to_nat (audio_out_buffer_pos st)) (audio_out_buffer st).

(** A well-formed argument pair of [audio_out_buffer_write]. *)
Definition write_ok (w : list Z * Z) : Prop :=
  0 <= snd w /\ length (fst w) = Z.to_nat (2 * snd w).

(** A run of [audio_out_buffer_write] calls. *)
Definition write_all (st : audio_state) (ws : list (list Z * Z))
  : audio_state :=
  fold_left (fun s w => audio_out_buffer_write s (fst w) (snd w)) ws st.

(** The cells offered to the sink, in call order. *)
Fixpoint offered (evs : list event) : list Z :=
  match evs with
  | [] => []
  | EvAudioBatch data _ _ :: rest => data ++ offered rest
  | _ :: rest => offered rest
  end.

(** Sample pairs the sink reports as taken, summed over the calls. *)
Fixpoint accepted_total (evs : list event) : Z :=
  match evs with
  | [] => 0
  | EvAudioBatch _ _ w :: rest => w + accepted_total rest
  | _ :: rest => accepted_total rest
  end.

(** Every batch of [evs] offers between 1 and [m] sample pairs. *)
Definition batches_within (m : Z) (evs : list event) : Prop :=
  Forall (fun e => match e with
                   | EvAudioBatch _ n _ => 0 < n <= m
                   | _ => False
                   end) evs.

(** The cells written by a run of [audio_out_buffer_write] calls. *)
Definition written (ws : list (list Z * Z)) : list Z := concat (map fst ws).

(** The ceiling rule along a drain that starts with ceiling [m]: each
    batch offers between 1 and the ceiling then in force, and a batch
    taken only in part (but not refused) makes its accepted count the
    ceiling of what follows. *)
Fixpoint within_ceiling (m : Z) (evs : list event) : Prop :=
  match evs with
  | [] => True
  | EvAudioBatch _ n w :: rest =>
      0 < n <= m /\
      within_ceiling (if (w <? n) && (0 <? w) then w else m) rest
  | _ :: _ => False
  end.

(** The ceiling left behind by such a drain. *)
Fixpoint ceiling_after (m : Z) (evs : list event) : Z :=
  match evs with
  | [] => m
  | EvAudioBatch _ n w :: rest =>
      ceiling_after (if (w <? n) && (0 <? w) then w else m) rest
  | _ :: rest => ceiling_after m rest
  end.

(** The audio states the program can be in: the load-time state and
    whatever the five functions that write the audio globals make of
    it. *)
Inductive audio_reach : audio_state -> Prop :=
| reach_initial : audio_reach audio_initial
| reach_init st samples_per_frame :
    audio_reach st ->
    audio_reach (audio_out_buffer_init samples_per_frame)
| reach_deinit st :
    audio_reach st -> audio_reach (audio_out_buffer_deinit st)
| reach_write st samples n :
    audio_reach st ->
    audio_reach (audio_out_buffer_write st samples n)
| reach_read_blipper st stereo n :
    audio_reach st ->
    audio_reach (audio_out_buffer_read_blipper st stereo n)
| reach_upload st ff slowmo ffa h st' h' evs :
    audio_reach st ->
    audio_upload_samples ff slowmo ffa st h
      = Some (st', h', evs) ->
    audio_reach st'.

End WithPlatform.

(** *** Concrete runs on a 32-bit target *)

(** A sink that takes at most three sample pairs per call. *)
Definition sink_takes_3 (h : unit) (data : list Z) (frames : Z) : Z * unit :=
  (Z.min frames 3, tt).

(** Eight pending cells (four sample pairs) and the default ceiling. *)
Definition four_pairs_pending : audio_state :=
  {| audio_out_buffer := [1; 2; 3; 4; 5; 6; 7; 8];
     audio_out_buffer_size := 8; audio_out_buffer_pos := 8;
     audio_batch_frames_max := 65536 |}.

(** A twelve-cell buffer, as [audio_out_buffer_init] makes it for two
    samples per frame. *)
Definition small_buffer : audio_state := audio_out_buffer_init (2 ^ 32) 0 2.

(** Five sample pairs, then four more. *)
Definition two_writes : list (list Z * Z) :=
  [ ([1; 2; 3; 4; 5; 6; 7; 8; 9; 10], 5);
    ([11; 12; 13; 14; 15; 16; 17; 18], 4) ].

(** A reachable state: initialised, one write of four pairs. *)
Definition after_one_write : audio_state :=
  audio_out_buffer_write (2 ^ 32) 0 small_buffer [1; 2; 3; 4; 5; 6; 7; 8] 4.

End Audio.

(** ** Interframe blending: the "mix" filter ([blend_frames_mix],
    portable variant) *)

Module Blend.
Import Mach.
Local Open Scope nat_scope.

Definition GB_SCREEN_WIDTH : nat := 160.
Definition NUM_GAMEBOYS : nat := 1.
Definition VIDEO_WIDTH : nat := GB_SCREEN_WIDTH * NUM_GAMEBOYS.
Definition VIDEO_HEIGHT : nat := 144.
Definition VIDEO_PITCH : nat := 256 * NUM_GAMEBOYS.

(** Number of pixels in a video buffer:
    [VIDEO_BUFF_SIZE / sizeof(gambatte::video_pixel_t)]. *)
Definition VIDEO_BUFF_PIXELS : nat := 256 * NUM_GAMEBOYS * VIDEO_HEIGHT.

(** [gambatte::video_pixel_t] is declared in a header that is not part
    of the sources at hand; the build selects one of three layouts. *)
Inductive pixel_format :=
| RGB565      (* VIDEO_RGB565: uint16_t *)
| ABGR1555    (* VIDEO_ABGR1555: uint16_t *)
| XRGB8888.   (* otherwise: a 32-bit unsigned *)

(** The low-bit mask of the packed average, per layout. *)
Definition mix_mask (f : pixel_format) : Z :=
  match f with
  | RGB565 => 0x821
  | ABGR1555 => 0x521
  | XRGB8888 => 0x10101
  end%Z.

(** [(rgb_curr + rgb_prev + ((rgb_curr ^ rgb_prev) & mask)) >> 1] stored
    into a pixel.  With 16-bit pixels the operands are promoted to [int]
    (the sum of two 16-bit values and the mask cannot overflow it) and
    the store truncates to 16 bits; with 32-bit pixels the arithmetic is
    unsigned 32-bit. *)
Definition mix_pixel (f : pixel_format) (rgb_curr rgb_prev : Z) : Z :=
  match f with
  | XRGB8888 =>
      Z.shiftr (u32 (u32 (rgb_curr + rgb_prev)
                     + Z.land (Z.lxor rgb_curr rgb_prev) (mix_mask f))) 1
  | _ =>
      u16 (Z.shiftr (rgb_curr + rgb_prev
                     + Z.land (Z.lxor rgb_curr rgb_prev) (mix_mask f)) 1)
  end%Z.

(** [*(buf + i)] for a buffer given as the list of its pixels. *)
Definition get (buf : list Z) (i : nat) : Z := default 0%Z (buf !! i).

(** The inner [for (x = 0; x < VIDEO_WIDTH; x++)] loop, with [n]
    iterations left; [base] is the offset of the row pointers [curr] and
    [prev] into their buffers.  Returns the two buffers. *)
Fixpoint mix_row (f : pixel_format) (n x base : nat) (curr prev : list Z)
  : list Z * list Z :=
  match n with
  | O => (curr, prev)
  | S n' =>
      let rgb_curr := get curr (base + x) in
      let rgb_prev := get prev (base + x) in
      let prev := <[base + x := rgb_curr]> prev in
      let curr := <[base + x := mix_pixel f rgb_curr rgb_prev]> curr in
      mix_row f n' (S x) base curr prev
  end.

(** The outer [for (y = 0; y < VIDEO_HEIGHT; y++)] loop, with [n] rows
    left; each row ends with [curr += VIDEO_PITCH; prev += VIDEO_PITCH]. *)
Fixpoint mix_rows (f : pixel_format) (n base : nat) (curr prev : list Z)
  : list Z * list Z :=
  match n with
  | O => (curr, prev)
  | S n' =>
      let '(curr, prev) := mix_row f VIDEO_WIDTH 0 base curr prev in
      mix_rows f n' (base + VIDEO_PITCH) curr prev
  end.

(** [blend_frames_mix]: takes [video_buf] and [video_buf_prev_1] and
    returns both as the function leaves them. *)
Definition blend_frames_mix (f : pixel_format)
  (video_buf video_buf_prev_1 : list Z) : list Z * list Z :=
  mix_rows f VIDEO_HEIGHT 0 video_buf video_buf_prev_1.

(** [allocate_video_buf_prev] when the allocation succeeds: a buffer of
    [VIDEO_BUFF_SIZE] bytes cleared by [memset]. *)
Definition allocate_video_buf_prev : list Z :=
  replicate VIDEO_BUFF_PIXELS 0%Z.

(** *** Vocabulary of the properties *)

(** Pixel [i] of a buffer lies in the 160 x 144 picture (the rest of each
    256-pixel row is padding). *)
Definition visible (i : nat) : bool :=
  (i mod VIDEO_PITCH <? VIDEO_WIDTH) && (i / VIDEO_PITCH <? VIDEO_HEIGHT).

(** Pixel values for which the packed sum of the filter does not lose a
    bit: any 16-bit value, and 32-bit values with the top bit clear. *)
Definition pixel_ok (f : pixel_format) (c : Z) : Prop :=
  match f with
  | XRGB8888 => 0 <= c < 2 ^ 31
  | _ => 0 <= c < 2 ^ 16
  end%Z.

(** Pixel [i] belongs to the first [VIDEO_WIDTH] pixels of one of the
    [n] rows that start at offset [base]. *)
Definition in_rows (n base i : nat) : bool :=
  (base <=? i) && (i <? base + n * VIDEO_PITCH)
  && ((i - base) mod VIDEO_PITCH <? VIDEO_WIDTH).

(** An all-white RGB565 frame. *)
Definition white_frame : list Z := replicate VIDEO_BUFF_PIXELS 65535%Z.

End Blend.

(** ** Frame pacing and speed control ([retro_run], [retro_run_internal]) *)

Module Pacer.
Import Mach.

Definition SOUND_SAMPLES_PER_FRAME : Z := 35112.
Definition SOUND_SAMPLES_PER_RUN : Z := 2064.
Definition BLIP_BUFFER_SIZE : Z := 1024 + 512.
Definition SF2000_SPLASH_DURATION : Z := 180.
Definition VIDEO_WIDTH : Z := Z.of_nat Blend.VIDEO_WIDTH.
Definition VIDEO_HEIGHT : Z := Z.of_nat Blend.VIDEO_HEIGHT.
Definition VIDEO_PITCH : Z := Z.of_nat Blend.VIDEO_PITCH.

Section Types.

(** [B]: the retained buffers of the installed blend filter.
    [R]: the state of the resamplers (both blippers and the cosine one).
    [Core]: the state of the emulation library, with the globals that
    only it and its callbacks write (rumble counters, fake clock).
    [Host]: the state of the frontend's audio sink. *)
Context {B R Core Host : Type}.

(** What one [GB::runFor] call leaves behind: its return value, the
    value written back to [samples], the new core state, and the
    contents of the frame and sound buffers it was given. *)
Record run_result := {
  rr_ret     : Z;        (* std::ptrdiff_t; -1: no frame completed *)
  rr_samples : Z;        (* unsigned *)
  rr_gb      : Core;
  rr_video   : list Z;
  rr_sound   : list Z
}.

(** Globals that a core-option update may rewrite. *)
Record env := {
  cfg                        : Input.pad_config;
  fast_forward_audio_enabled : bool;
  use_cc_resampler           : bool;
  blend_frames               : option (list Z -> B -> list Z * B);
  blend_bufs                 : B;
  audio                      : Audio.audio_state;
  resampler                  : R;
  gb                         : Core;
  host                       : Host
}.

(** All globals the pass reads or writes.  [samples_count] and
    [frames_count] are the two [static uint64_t] of
    [retro_run_internal]. *)
Record state := {
  samples_count       : Z;      (* uint64_t *)
  frames_count        : Z;      (* uint64_t *)
  sp                  : Input.speed;
  sf2000_splash_shown : bool;
  sf2000_splash_timer : Z;      (* unsigned *)
  pd                  : Input.pad;
  video_buf           : list Z;
  sound_buf           : list Z;
  ev                  : env
}.

(** The target's constants and the code outside the sources at hand:
    the emulation core, the resamplers, the frontend, and the functions
    of [libretro.cpp] that only touch what the properties below do not
    speak about. *)
Record world := {
  SIZE_MOD    : Z;            (* SIZE_MAX + 1 *)
  uninit      : Z;            (* content of freshly allocated cells *)
  pixel_bytes : Z;            (* sizeof(gambatte::video_pixel_t) *)
  abi         : Input.abi;
  (* gb.runFor(frame_buf, VIDEO_PITCH, sound_buf.u32, SOUND_BUFF_SIZE,
     samples): the joypad word it polls, the frame buffer ([None] for
     NULL) and the incoming [samples] are arguments *)
  runFor : Core -> Z -> option (list Z) -> Z -> run_result;
  (* a bound on the number of further calls that return -1 *)
  remaining : Core -> nat;
  fake_rtc_update : Core -> Core;
  (* if (rumble_active) apply_rumble(); *)
  rumble_hook : Core -> Core;
  sf2000_draw_splash_screen : list Z -> list Z;
  (* both blipper_push_samples calls of blipper_renderaudio *)
  blipper_push_samples : R -> list Z -> Z -> R;
  blipper_read_avail : R -> Z;
  (* both blipper_read calls: the interleaved output and the new state *)
  blipper_read : R -> Z -> list Z * R;
  (* CC_renderaudio: the new state and its audio_out_buffer_write calls *)
  CC_renderaudio : R -> list Z -> Z -> R * list (list Z * Z);
  audio_batch_cb : Host -> list Z -> Z -> Z * Host;
  (* if (environ_cb(RETRO_ENVIRONMENT_GET_VARIABLE_UPDATE, &updated)
         && updated) check_variables(false);
     the notifications it sends are not traced *)
  variable_update : state -> env
}.

Variable w : world.

Definition set_ev (st : state) (e : env) : state :=
  {| samples_count := samples_count st; frames_count := frames_count st;
     sp := sp st; sf2000_splash_shown := sf2000_splash_shown st;
     sf2000_splash_timer := sf2000_splash_timer st; pd := pd st;
     video_buf := video_buf st; sound_buf := sound_buf st; ev := e |}.

Definition set_counts (st : state) (samples frames : Z) : state :=
  {| samples_count := samples; frames_count := frames;
     sp := sp st; sf2000_splash_shown := sf2000_splash_shown st;
     sf2000_splash_timer := sf2000_splash_timer st; pd := pd st;
     video_buf := video_buf st; sound_buf := sound_buf st; ev := ev st |}.

Definition set_input (st : state) (s : Input.speed) (p : Input.pad) : state :=
  {| samples_count := samples_count st; frames_count := frames_count st;
     sp := s; sf2000_splash_shown := sf2000_splash_shown st;
     sf2000_splash_timer := sf2000_splash_timer st; pd := p;
     video_buf := video_buf st; sound_buf := sound_buf st; ev := ev st |}.

Definition set_splash (st : state) (shown : bool) (timer : Z) : state :=
  {| samples_count := samples_count st; frames_count := frames_count st;
     sp := sp st; sf2000_splash_shown := shown;
     sf2000_splash_timer := timer; pd := pd st;
     video_buf := video_buf st; sound_buf := sound_buf st; ev := ev st |}.

Definition set_bufs (st : state) (video sound : list Z) : state :=
  {| samples_count := samples_count st; frames_count := frames_count st;
     sp := sp st; sf2000_splash_shown := sf2000_splash_shown st;
     sf2000_splash_timer := sf2000_splash_timer st; pd := pd st;
     video_buf := video; sound_buf := sound; ev := ev st |}.

Definition set_gb (e : env) (g : Core) : env :=
  {| cfg := cfg e; fast_forward_audio_enabled := fast_forward_audio_enabled e;
     use_cc_resampler := use_cc_resampler e; blend_frames := blend_frames e;
     blend_bufs := blend_bufs e; audio := audio e;
     resampler := resampler e; gb := g; host := host e |}.

Definition set_sound (e : env) (a : Audio.audio_state) (r : R) : env :=
  {| cfg := cfg e; fast_forward_audio_enabled := fast_forward_audio_enabled e;
     use_cc_resampler := use_cc_resampler e; blend_frames := blend_frames e;
     blend_bufs := blend_bufs e; audio := a;
     resampler := r; gb := gb e; host := host e |}.

Definition set_sink (e : env) (a : Audio.audio_state) (h : Host) : env :=
  {| cfg := cfg e; fast_forward_audio_enabled := fast_forward_audio_enabled e;
     use_cc_resampler := use_cc_resampler e; blend_frames := blend_frames e;
     blend_bufs := blend_bufs e; audio := a;
     resampler := resampler e; gb := gb e; host := h |}.

Definition set_blend_bufs (e : env) (b : B) : env :=
  {| cfg := cfg e; fast_forward_audio_enabled := fast_forward_audio_enabled e;
     use_cc_resampler := use_cc_resampler e; blend_frames := blend_frames e;
     blend_bufs := b; audio := audio e;
     resampler := resampler e; gb := gb e; host := host e |}.

(** [blipper_renderaudio]. *)
Definition blipper_renderaudio (r : R) (samples : list Z) (frames : Z) : R :=
  if frames =? 0 then r else blipper_push_samples w r samples frames.

(** [audio_out_buffer_read_blipper] on the pass's audio globals. *)
Definition read_blipper (e : env) (num_samples : Z) : env :=
  let '(stereo, r) := blipper_read w (resampler e) num_samples in
  set_sound e
    (Audio.audio_out_buffer_read_blipper (SIZE_MOD w) (uninit w) (audio e)
       stereo num_samples) r.

(** The audio statements that follow a [runFor] call: the cosine
    resampler writes what it produces; the blipper is fed and then read,
    inside the loops only once half of its buffer is filled ([always]
    false), after them whatever is available ([always] true). *)
Definition render_audio (always : bool) (sound : list Z) (samples : Z)
  (e : env) : env :=
  if use_cc_resampler e then
    let '(r, writes) := CC_renderaudio w (resampler e) sound samples in
    set_sound e (Audio.write_all (SIZE_MOD w) (uninit w) (audio e) writes) r
  else
    let r := blipper_renderaudio (resampler e) sound samples in
    let e := set_sound e (audio e) r in
    let read_avail := blipper_read_avail w r in
    if always || (Z.shiftr BLIP_BUFFER_SIZE 1 <=? read_avail)
    then read_blipper e read_avail else e.

(** [while (gb.runFor(frame_buf, ...) == -1) { body; samples_count +=
    samples; samples = SOUND_SAMPLES_PER_RUN; }] where [body] is the
    audio rendering when [with_audio] holds and nothing otherwise, and
    [frame_buf] is [video_buf] when [render] holds and NULL otherwise.
    Returns the state and the value of [samples] at loop exit; [None]
    when [fuel] calls did not complete a frame. *)
Fixpoint run_until_frame (fuel : nat) (render with_audio : bool)
  (samples : Z) (st : state) : option (state * Z * list event) :=
  match fuel with
  | O => None
  | S fuel' =>
      let r := runFor w (gb (ev st)) (Input.libretro_input_state (pd st))
                 (if render then Some (video_buf st) else None) samples in
      let st := set_bufs (set_ev st (set_gb (ev st) (rr_gb r)))
                  (if render then rr_video r else video_buf st)
                  (rr_sound r) in
      let samples := rr_samples r in
      let e := EvRunFor render (rr_ret r) samples in
      if rr_ret r =? -1 then
        let st := if with_audio
                  then set_ev st (render_audio false (sound_buf st) samples
                                    (ev st))
                  else st in
        let st := set_counts st (u64 (samples_count st + samples))
                    (frames_count st) in
        match run_until_frame fuel' render with_audio SOUND_SAMPLES_PER_RUN
                st with
        | Some (st', s', evs) => Some (st', s', e :: evs)
        | None => None
        end
      else Some (st, samples, [e])
  end.

(** One such loop, with as many calls as the core's bound allows. *)
Definition run_frame (render with_audio : bool) (samples : Z) (st : state)
  : option (state * Z * list event) :=
  run_until_frame (S (remaining w (gb (ev st)))) render with_audio samples st.

(** The fast-forward [for (iter = 0; iter < iterations; iter++)] loop,
    with [n] iterations left. *)
Fixpoint fast_forward_frames (n : nat) (iter iterations : Z) (samples : Z)
  (st : state) : option (state * Z * list event) :=
  match n with
  | O => Some (st, samples, [])
  | S n' =>
      let is_final_frame := iter =? iterations - 1 in
      let use_frameskip :=
        (Input.sf2000_fastforward_state (sp st) =? 2)
        && negb is_final_frame in
      match run_frame (negb use_frameskip) false SOUND_SAMPLES_PER_RUN st with
      | Some (st1, s1, evs1) =>
          match fast_forward_frames n' (iter + 1) iterations s1 st1 with
          | Some (st2, s2, evs2) => Some (st2, s2, evs1 ++ evs2)
          | None => None
          end
      | None => None
      end
  end.

(** The emulation part of a pass that is not a dupe: splash, fast
    forward, slow motion or normal speed.  Returns the state, the final
    value of the local [samples], and the calls made. *)
Definition emulate (st : state) : option (state * Z * list event) :=
  let samples := SOUND_SAMPLES_PER_RUN in
  if negb (sf2000_splash_shown st)
     && (sf2000_splash_timer st <? SF2000_SPLASH_DURATION) then
    let video := sf2000_draw_splash_screen w (video_buf st) in
    let timer := u32 (sf2000_splash_timer st + 1) in
    let shown := if SF2000_SPLASH_DURATION <=? timer then true
                 else sf2000_splash_shown st in
    Some (set_splash (set_bufs st video (sound_buf st)) shown timer,
          samples, [])
  else if 0 <? Input.sf2000_fastforward_state (sp st) then
    let iterations :=
      Input.speed_multiplier (Input.sf2000_fastforward_state (sp st)) in
    fast_forward_frames (Z.to_nat iterations) 0 iterations samples st
  else if 0 <? Input.sf2000_slowmotion_state (sp st) then
    let counter := Input.sf2000_slowmotion_frame_counter (sp st) in
    let should_run_frame :=
      if Input.sf2000_slowmotion_state (sp st) =? 1 then counter mod 2 =? 0
      else if Input.sf2000_slowmotion_state (sp st) =? 2
           then counter mod 5 =? 0
           else false in
    let st :=
      set_input st
        {| Input.sf2000_fastforward_state :=
             Input.sf2000_fastforward_state (sp st);
           Input.sf2000_select_a_prev := Input.sf2000_select_a_prev (sp st);
           Input.sf2000_slowmotion_state :=
             Input.sf2000_slowmotion_state (sp st);
           Input.sf2000_select_b_prev := Input.sf2000_select_b_prev (sp st);
           Input.sf2000_frame_counter := Input.sf2000_frame_counter (sp st);
           Input.sf2000_slowmotion_frame_counter := u32 (counter + 1) |}
        (pd st) in
    if should_run_frame
    then run_frame true (fast_forward_audio_enabled (ev st)) samples st
    else Some (st, samples, [])
  else run_frame true true samples st.

(** [retro_run_internal]: one pass.  [input_state_cb] is what the
    frontend reports after [input_poll_cb()].  [None] when a loop of the
    pass does not end. *)
Definition retro_run_internal (input_state_cb : Z -> Z) (st : state)
  : option (state * list event) :=
  let '(sp', pd', evs_input) :=
    Input.update_input_state (abi w) input_state_cb (cfg (ev st))
      (sp st) (pd st) in
  let st := set_input st sp' pd' in
  let st := set_ev st (set_gb (ev st) (fake_rtc_update w (gb (ev st)))) in
  let expected_frames := samples_count st / SOUND_SAMPLES_PER_FRAME in
  if frames_count st <? expected_frames then
    Some (set_counts st (samples_count st) (u64 (frames_count st + 1)),
          evs_input
          ++ [EvVideo None VIDEO_WIDTH VIDEO_HEIGHT
                (VIDEO_PITCH * pixel_bytes w)])
  else
    match emulate st with
    | None => None
    | Some (st, samples, evs_run) =>
        let st :=
          match blend_frames (ev st) with
          | Some blend =>
              let '(video, bufs) := blend (video_buf st) (blend_bufs (ev st)) in
              set_bufs (set_ev st (set_blend_bufs (ev st) bufs)) video
                (sound_buf st)
          | None => st
          end in
        let ev_video :=
          EvVideo (Some (video_buf st)) VIDEO_WIDTH VIDEO_HEIGHT
            (VIDEO_PITCH * pixel_bytes w) in
        let st := set_ev st (render_audio true (sound_buf st) samples (ev st)) in
        let st := set_counts st (u64 (samples_count st + samples))
                    (frames_count st) in
        match Audio.audio_upload_samples (SIZE_MOD w) Host (audio_batch_cb w)
                (Input.sf2000_fastforward_state (sp st))
                (Input.sf2000_slowmotion_state (sp st))
                (fast_forward_audio_enabled (ev st))
                (audio (ev st)) (host (ev st)) with
        | None => None
        | Some (a, h, evs_audio) =>
            let st := set_ev st (set_sink (ev st) a h) in
            let st := set_ev st (set_gb (ev st) (rumble_hook w (gb (ev st)))) in
            let st :=
              if 0 <? Input.sf2000_fastforward_state (sp st) then
                let speed_multiplier :=
                  Input.speed_multiplier
                    (Input.sf2000_fastforward_state (sp st)) in
                set_counts st (samples_count st)
                  (u64 (frames_count st + speed_multiplier))
              else
                set_counts st (samples_count st) (u64 (frames_count st + 1)) in
            Some (set_ev st (variable_update w st),
                  evs_input ++ evs_run ++ [ev_video] ++ evs_audio)
        end
    end.

(** [n] passes in a row; pass number [i] of the tick reads the joypad
    report [inputs i]. *)
Fixpoint passes (n : nat) (i : nat) (inputs : nat -> Z -> Z) (st : state)
  : option (state * list event) :=
  match n with
  | O => Some (st, [])
  | S n' =>
      match retro_run_internal (inputs i) st with
      | None => None
      | Some (st1, evs1) =>
          match passes n' (S i) inputs st1 with
          | None => None
          | Some (st2, evs2) => Some (st2, evs1 ++ evs2)
          end
      end
  end.

(** [retro_run]: one host tick. *)
Definition retro_run (inputs : nat -> Z -> Z) (st : state)
  : option (state * list event) :=
  if 0 <? Input.sf2000_fastforward_state (sp st) then
    let iterations :=
      Input.speed_multiplier (Input.sf2000_fastforward_state (sp st)) in
    passes (Z.to_nat iterations) 0 inputs st
  else passes 1 0 inputs st.

(** *** Vocabulary of the properties *)

(** Number of [runFor] calls of a trace that completed a frame. *)
Fixpoint completed_frames (evs : list event) : nat :=
  match evs with
  | [] => O
  | EvRunFor _ ret _ :: rest =>
      ((if (ret =? -1)%Z then 0 else 1) + completed_frames rest)%nat
  | _ :: rest => completed_frames rest
  end.

(** Number of [runFor] calls of a trace. *)
Fixpoint core_calls (evs : list event) : nat :=
  match evs with
  | [] => O
  | EvRunFor _ _ _ :: rest => S (core_calls rest)
  | _ :: rest => core_calls rest
  end.

(** The frames handed to [video_cb], in order: [true] for a buffer,
    [false] for the NULL reference. *)
Fixpoint video_frames (evs : list event) : list bool :=
  match evs with
  | [] => []
  | EvVideo (Some _) _ _ _ :: rest => true :: video_frames rest
  | EvVideo None _ _ _ :: rest => false :: video_frames rest
  | _ :: rest => video_frames rest
  end.

(** The calls to the audio sink in a trace. *)
Fixpoint audio_batches (evs : list event) : nat :=
  match evs with
  | [] => O
  | EvAudioBatch _ _ _ :: rest => S (audio_batches rest)
  | _ :: rest => audio_batches rest
  end.

(** The core makes progress: a [runFor] call that completes no frame
    lowers the bound [remaining]. *)
Definition core_progress : Prop :=
  forall g input frame samples,
    rr_ret (runFor w g input frame samples) = -1 ->
    (remaining w (rr_gb (runFor w g input frame samples)) < remaining w g)%nat.

(** *** Facts about a pass *)

(** The events of joypad handling are notifications to the frontend. *)
Definition notification (e : event) : Prop :=
  match e with
  | EvSetAvInfo _ | EvPaletteSwitch _ => True
  | _ => False
  end.

(** The events of an upload are audio batches. *)
Definition is_batch (e : event) : Prop :=
  match e with EvAudioBatch _ _ _ => True | _ => False end.

(** The frame count added at the end of a pass that is not a dupe. *)
Definition frames_step (s : Input.speed) : Z :=
  if 0 <? Input.sf2000_fastforward_state s
  then Input.speed_multiplier (Input.sf2000_fastforward_state s) else 1.

(** What the emulation loops leave alone. *)
Definition steady (st st' : state) : Prop :=
  frames_count st' = frames_count st /\ sp st' = sp st /\ pd st' = pd st /\
  sf2000_splash_shown st' = sf2000_splash_shown st /\
  sf2000_splash_timer st' = sf2000_splash_timer st /\
  host (ev st') = host (ev st) /\
  fast_forward_audio_enabled (ev st') = fast_forward_audio_enabled (ev st) /\
  use_cc_resampler (ev st') = use_cc_resampler (ev st).

(** An audio state from which an upload ends. *)
Definition audio_ready (a : Audio.audio_state) : Prop :=
  0 < Audio.audio_batch_frames_max a /\
  0 <= Audio.audio_out_buffer_pos a < SIZE_MOD w.

(** The state a pass works on once the joypad and the clock are done. *)
Definition after_input (cb : Z -> Z) (st : state)
  : state :=
  let r := Input.update_input_state (abi w) cb (cfg (ev st)) (sp st) (pd st) in
  set_ev (set_input st (fst (fst r)) (snd (fst r)))
    (set_gb (ev st) (fake_rtc_update w (gb (ev st)))).

(** A run that did nothing but repeat the last frame: it ended, its
    last call handed the frontend the NULL frame with the usual width,
    height and pitch, before that it only sent notifications (no
    [runFor] call, no audio batch, no other frame), [frames_count] went
    up by exactly 1, and [samples_count], the resampler, the audio
    buffer and the sink are as they were. *)
Definition repeats_last_frame (st : state)
  (res : option (state * list event)) : Prop :=
  exists st' notes,
    res = Some (st', notes ++ [EvVideo None VIDEO_WIDTH VIDEO_HEIGHT
                                 (VIDEO_PITCH * pixel_bytes w)]) /\
    core_calls notes = O /\ audio_batches notes = O /\
    video_frames notes = [] /\
    frames_count st' = frames_count st + 1 /\
    samples_count st' = samples_count st /\
    resampler (ev st') = resampler (ev st) /\
    audio (ev st') = audio (ev st) /\
    host (ev st') = host (ev st).

End Types.

(** *** Concrete runs

    A small world to run the pass on: a 32-bit target with 16-bit
    pixels, a core whose [n]-th [runFor] call answers [script n], silent
    resamplers, a sink that takes all it is offered, no option updates. *)

Definition scripted_world (script : nat -> Z * Z) (bound : nat)
  : @world unit unit nat unit :=
  {| SIZE_MOD := 2 ^ 32; uninit := 0; pixel_bytes := 2;
     abi := Input.libretro_abi;
     runFor := fun g _ frame _ =>
       {| rr_ret := fst (script g); rr_samples := snd (script g);
          rr_gb := S g; rr_video := default [] frame; rr_sound := [] |};
     remaining := fun g => (bound - g)%nat;
     fake_rtc_update := fun g => g;
     rumble_hook := fun g => g;
     sf2000_draw_splash_screen := fun video => video;
     blipper_push_samples := fun r _ _ => r;
     blipper_read_avail := fun _ => 0;
     blipper_read := fun r _ => ([], r);
     CC_renderaudio := fun r _ _ => (r, []);
     audio_batch_cb := fun h _ frames => (frames, h);
     variable_update := fun st => ev st |}.

(** A core that completes a frame on every call, 100 samples each. *)
Definition frame_per_call (g : nat) : Z * Z := (0, 100).

(** A core that completes its first frame on call [k + 1], after [k]
    calls of 2064 samples each, with 48 samples to go. *)
Definition frame_after (k : nat) (g : nat) : Z * Z :=
  if (g <? k)%nat then (-1, 2064) else (0, 48).

Definition sample_env : @env unit unit nat unit :=
  {| cfg := Input.pad_config_default false;
     fast_forward_audio_enabled := false; use_cc_resampler := false;
     blend_frames := None; blend_bufs := tt;
     audio := Audio.audio_initial (2 ^ 32); resampler := tt;
     gb := O; host := tt |}.

(** A state with the given counters, fast-forward state and splash
    variables, everything else at rest. *)
Definition sample_state (samples frames ff : Z) (shown : bool) (timer : Z)
  : @state unit unit nat unit :=
  {| samples_count := samples; frames_count := frames;
     sp := {| Input.sf2000_fastforward_state := ff;
              Input.sf2000_select_a_prev := false;
              Input.sf2000_slowmotion_state := 0;
              Input.sf2000_select_b_prev := false;
              Input.sf2000_frame_counter := 0;
              Input.sf2000_slowmotion_frame_counter := 0 |};
     sf2000_splash_shown := shown; sf2000_splash_timer := timer;
     pd := Input.pad_init; video_buf := []; sound_buf := [];
     ev := sample_env |}.

Definition no_buttons (i : nat) : Z -> Z := Input.held_none.

(** What a run left behind: [samples_count], [frames_count], completed
    core frames, [runFor] calls and the frames delivered. *)
Definition summary {B R Core Host : Type}
  (res : option (@state B R Core Host * list event))
  : option (Z * Z * nat * nat * list bool) :=
  match res with
  | Some (st, evs) =>
      Some (samples_count st, frames_count st, completed_frames evs,
            core_calls evs, video_frames evs)
  | None => None
  end.


(** The state after a first tick at normal speed in which the core
    produces 34 * 2064 + 48 = 70224 samples. *)
Definition after_long_tick : @state unit unit nat unit :=
  match retro_run (scripted_world (frame_after 34) 40) no_buttons
          (sample_state 0 0 0 true 0) with
  | Some (st1, _) => st1
  | None => sample_state 0 0 0 true 0
  end.

Definition long_tick_events : list event :=
  match retro_run (scripted_world (frame_after 34) 40) no_buttons
          (sample_state 0 0 0 true 0) with
  | Some (_, evs1) => evs1
  | None => []
  end.

(** [n] host ticks in a row. *)
Fixpoint ticks {B R Core Host : Type} (w : @world B R Core Host) (n : nat)
  (inputs : nat -> Z -> Z) (st : @state B R Core Host)
  : option (@state B R Core Host) :=
  match n with
  | O => Some st
  | S n' =>
      match retro_run w inputs st with
      | Some (st1, _) => ticks w n' inputs st1
      | None => None
      end
  end.

(** The globals as the first pass of the program finds them: both
    static counters of [retro_run_internal] at 0, the splash pending
    (as [retro_load_game] sets it), normal speed, and the audio buffer
    as [audio_out_buffer_init] creates it for 535 samples per frame. *)
Definition startup_state : @state unit unit nat unit :=
  {| samples_count := 0; frames_count := 0;
     sp := Input.speed_init;
     sf2000_splash_shown := false; sf2000_splash_timer := 0;
     pd := Input.pad_init; video_buf := []; sound_buf := [];
     ev := {| cfg := Input.pad_config_default false;
              fast_forward_audio_enabled := false;
              use_cc_resampler := false;
              blend_frames := None; blend_bufs := tt;
              audio := Audio.audio_out_buffer_init (2 ^ 32) 0 535;
              resampler := tt; gb := O; host := tt |} |}.

(** The state [n] host ticks after startup, no button held. *)
Definition state_after (w : @world unit unit nat unit) (n : nat)
  : @state unit unit nat unit :=
  match ticks w n no_buttons startup_state with
  | Some st => st
  | None => startup_state
  end.

(** A core whose first frame takes 2918 calls: 2917 calls of 2064
    samples each, then 48 samples. *)
Definition slow_start_world : @world unit unit nat unit :=
  scripted_world (frame_after 2917) 3000.

End Pacer.

(** ** The fake clock object ([FakeRtc] class of [fake_rtc.cpp]) *)

Module RtcObject.
Import Mach FakeRtc.

Definition EPOCH_TIMESTAMP : Z := 946684800.
Definition SAVE_INTERVAL : Z := 300.
Definition SAVE_FILENAME : string := "gambatte_rtc.dat".

(** The members of [class FakeRtc]. *)
Record fake_rtc := {
  state_                    : fake_rtc_state_type;
  save_dir_                 : string;
  persistent_bump_minutes_  : Z;   (* int *)
  one_off_bump_minutes_     : Z;   (* int *)
  previous_persistent_bump_ : Z;   (* int *)
  last_save_time_           : Z    (* uint32_t *)
}.

(** What the class sees of the operating system: the answers of the
    successive [time(NULL)] calls, and the files by path.  A path
    [std::ofstream] cannot open is listed in [unwritable]; a path absent
    from [files] cannot be opened by [std::ifstream]. *)
Record os := {
  clock       : nat -> Z;
  clock_calls : nat;
  files       : gmap string (list ascii);
  unwritable  : string -> bool
}.

Definition set_state (r : fake_rtc) (s : fake_rtc_state_type) : fake_rtc :=
  {| state_ := s; save_dir_ := save_dir_ r;
     persistent_bump_minutes_ := persistent_bump_minutes_ r;
     one_off_bump_minutes_ := one_off_bump_minutes_ r;
     previous_persistent_bump_ := previous_persistent_bump_ r;
     last_save_time_ := last_save_time_ r |}.

Definition set_last_save_time (r : fake_rtc) (t : Z) : fake_rtc :=
  {| state_ := state_ r; save_dir_ := save_dir_ r;
     persistent_bump_minutes_ := persistent_bump_minutes_ r;
     one_off_bump_minutes_ := one_off_bump_minutes_ r;
     previous_persistent_bump_ := previous_persistent_bump_ r;
     last_save_time_ := t |}.

Definition set_previous_persistent_bump (r : fake_rtc) (b : Z) : fake_rtc :=
  {| state_ := state_ r; save_dir_ := save_dir_ r;
     persistent_bump_minutes_ := persistent_bump_minutes_ r;
     one_off_bump_minutes_ := one_off_bump_minutes_ r;
     previous_persistent_bump_ := b;
     last_save_time_ := last_save_time_ r |}.


Definition set_enabled_flag (s : fake_rtc_state_type) (b : bool)
  : fake_rtc_state_type :=
  {| total_minutes := total_minutes s; last_real_time := last_real_time s;
     enabled := b; needs_save := needs_save s |}.

Definition set_files (o : os) (f : gmap string (list ascii)) : os :=
  {| clock := clock o; clock_calls := clock_calls o; files := f;
     unwritable := unwritable o |}.

(** [time(NULL)]: the next answer of the clock. *)
Definition time (o : os) : Z * os :=
  (clock o (clock_calls o),
   {| clock := clock o; clock_calls := S (clock_calls o); files := files o;
      unwritable := unwritable o |}).

(** [FakeRtc::get_current_unix_time]. *)
Definition get_current_unix_time (o : os) : Z * os :=
  let '(t, o) := time o in (u32 t, o).

(** [std::ofstream f(path); if (f.is_open()) { f << content; f.close(); }]:
    whether the file could be opened, and the files afterwards. *)
Definition write_file (o : os) (path : string) (content : list ascii)
  : bool * os :=
  if unwritable o path then (false, o)
  else (true, set_files o (<[path := content]> (files o))).

(** [save_dir_.empty()]. *)
Definition is_empty (s : string) : bool := String.eqb s "".

Section WithTarget.

(** Byte order of the target: [save_to_file] and [load_from_file] copy
    the four bytes of a [uint32_t] as they lie in memory. *)
Variable big_endian : bool.

Definition bytes_of_u32 (x : Z) : list ascii :=
  let le := map (fun i => ascii_of_N (Z.to_N (Z.shiftr x (8 * i) mod 256)))
              [0; 1; 2; 3] in
  if big_endian then rev le else le.

Definition u32_of_bytes (l : list ascii) : Z :=
  let le := if big_endian then rev l else l in
  fold_right (fun c acc => Z.of_N (N_of_ascii c) + 256 * acc) 0 le.

(** [FakeRtc::save_to_file]. *)
Definition save_to_file (r : fake_rtc) (o : os) : os :=
  if is_empty (save_dir_ r) then o
  else
    let filepath := (save_dir_ r ++ "/" ++ SAVE_FILENAME)%string in
    snd (write_file o filepath (bytes_of_u32 (total_minutes (state_ r)))).

(** [FakeRtc::load_from_file].  [file.read] takes up to four bytes;
    [file.gcount()] is how many it got. *)
Definition load_from_file (r : fake_rtc) (o : os) : fake_rtc :=
  if is_empty (save_dir_ r) then r
  else
    let filepath := (save_dir_ r ++ "/" ++ SAVE_FILENAME)%string in
    match files o !! filepath with
    | Some content =>
        let loaded := take 4 content in
        if (length loaded =? 4)%nat
        then set_state r (set_total_minutes (state_ r) (u32_of_bytes loaded))
        else r
    | None =>
        set_state r
          (set_needs_save (set_total_minutes (state_ r) (2 * 365 * 24 * 60))
             true)
    end.

(** [FakeRtc::save]. *)
Definition save (r : fake_rtc) (o : os) : fake_rtc * os :=
  if negb (enabled (state_ r)) then (r, o)
  else
    let o := save_to_file r o in
    let r := set_state r (set_needs_save (state_ r) false) in
    let '(t, o) := get_current_unix_time o in
    (set_last_save_time r t, o).

(** [FakeRtc::load]. *)
Definition load (r : fake_rtc) (o : os) : fake_rtc :=
  if negb (enabled (state_ r)) then r else load_from_file r o.

(** [FakeRtc::update_elapsed_time]. *)
Definition update_elapsed_time (r : fake_rtc) (o : os) : fake_rtc * os :=
  let '(current_time, o) := get_current_unix_time o in
  let elapsed_seconds := u32 (current_time - last_real_time (state_ r)) in
  if 60 <=? elapsed_seconds then
    let elapsed_minutes := elapsed_seconds / 60 in
    (set_state r
       {| total_minutes := u32 (total_minutes (state_ r) + elapsed_minutes);
          last_real_time := u32 (current_time - elapsed_seconds mod 60);
          enabled := enabled (state_ r);
          needs_save := true |}, o)
  else (r, o).

(** [FakeRtc::should_save]. *)
Definition should_save (r : fake_rtc) (o : os) : bool * os :=
  if negb (needs_save (state_ r)) then (false, o)
  else
    let '(current_time, o) := get_current_unix_time o in
    (SAVE_INTERVAL <=? u32 (current_time - last_save_time_ r), o).

(** [FakeRtc::update]. *)
Definition update (r : fake_rtc) (o : os) : fake_rtc * os :=
  if negb (enabled (state_ r)) then (r, o)
  else
    let '(r, o) := update_elapsed_time r o in
    let '(due, o) := should_save r o in
    if due then save r o else (r, o).

(** [FakeRtc::bump_time] on the object. *)
Definition bump (r : fake_rtc) (bump_minutes : Z) : fake_rtc :=
  set_state r (bump_time (state_ r) bump_minutes).

(** [FakeRtc::get_opt_file_path]: the first of the two candidate paths
    that can be opened, or the empty string. *)
Definition get_opt_file_path (r : fake_rtc) (o : os) : string :=
  if is_empty (save_dir_ r) then ""%string
  else
    let possible_paths :=
      [ (save_dir_ r ++ "/gambatte.opt")%string;
        (save_dir_ r ++ "/../configs/gambatte/gambatte.opt")%string ] in
    fold_right
      (fun p later => if decide (is_Some (files o !! p)) then p else later)
      ""%string possible_paths.

(** The line feed and double quote characters. *)
Definition LF : ascii := "010"%char.
Definition DQ : ascii := "034"%char.

(** One [std::getline(input_file, line)] on what is left of the file:
    the characters before the first line feed, and what follows it. *)
Fixpoint getline (s : list ascii) : list ascii * list ascii :=
  match s with
  | [] => ([], [])
  | c :: s' =>
      if Ascii.eqb c LF then ([], s')
      else let '(line, rest) := getline s' in (c :: line, rest)
  end.

(** [line.find(needle) == 0]: [needle] starts [line]. *)
Fixpoint starts_with (needle line : list ascii) : bool :=
  match needle, line with
  | [], _ => true
  | _ :: _, [] => false
  | a :: needle', b :: line' => Ascii.eqb a b && starts_with needle' line'
  end.

(** The [while (std::getline(input_file, line))] loop of
    [find_and_modify_opt_file]: [getline] fails once nothing is left to
    read.  Every line read takes at least one character off the input,
    so [fuel] equal to its length is enough. *)
Fixpoint rewrite_lines (fuel : nat) (input : list ascii)
  (option_name new_value : list ascii) (file_content : list ascii)
  (found : bool) : list ascii * bool :=
  match input, fuel with
  | [], _ => (file_content, found)
  | _, O => (file_content, found)
  | _, S fuel' =>
      let '(line, rest) := getline input in
      if starts_with (option_name ++ list_ascii_of_string " = ") line then
        rewrite_lines fuel' rest option_name new_value
          (file_content ++ option_name ++ list_ascii_of_string " = " ++ [DQ]
             ++ new_value ++ [DQ; LF])
          true
      else
        rewrite_lines fuel' rest option_name new_value
          (file_content ++ line ++ [LF]) found
  end.

(** [FakeRtc::find_and_modify_opt_file]. *)
Definition find_and_modify_opt_file (r : fake_rtc) (o : os)
  (option_name new_value : list ascii) : bool * os :=
  let opt_file_path := get_opt_file_path r o in
  if is_empty opt_file_path then (false, o)
  else
    match files o !! opt_file_path with
    | None => (false, o)
    | Some input =>
        let '(file_content, found) :=
          rewrite_lines (length input) input option_name new_value [] false in
        if negb found then (false, o)
        else write_file o opt_file_path file_content
    end.


(** [FakeRtc::apply_persistent_bump]. *)
Definition apply_persistent_bump (r : fake_rtc) : fake_rtc :=
  if negb (enabled (state_ r)) then r
  else
    let diff :=
      i32 (persistent_bump_minutes_ r - previous_persistent_bump_ r) in
    if negb (diff =? 0) then
      set_previous_persistent_bump (bump r diff) (persistent_bump_minutes_ r)
    else r.



(** [FakeRtc::set_enabled]. *)
Definition set_enabled (r : fake_rtc) (o : os) (en : bool) : fake_rtc * os :=
  let '(r, o) :=
    if enabled (state_ r) && negb en && needs_save (state_ r)
    then save r o else (r, o) in
  (set_state r (set_enabled_flag (state_ r) en), o).

(** [FakeRtc::set_save_dir], [set_persistent_bump], [set_one_off_bump]. *)
Definition set_save_dir (r : fake_rtc) (save_dir : string) : fake_rtc :=
  {| state_ := state_ r; save_dir_ := save_dir;
     persistent_bump_minutes_ := persistent_bump_minutes_ r;
     one_off_bump_minutes_ := one_off_bump_minutes_ r;
     previous_persistent_bump_ := previous_persistent_bump_ r;
     last_save_time_ := last_save_time_ r |}.

Definition set_persistent_bump (r : fake_rtc) (minutes : Z) : fake_rtc :=
  {| state_ := state_ r; save_dir_ := save_dir_ r;
     persistent_bump_minutes_ := minutes;
     one_off_bump_minutes_ := one_off_bump_minutes_ r;
     previous_persistent_bump_ := previous_persistent_bump_ r;
     last_save_time_ := last_save_time_ r |}.


(** [FakeRtc::get_base_time]. *)
Definition get_base_time (r : fake_rtc) (o : os) : Z * os :=
  if negb (enabled (state_ r)) then
    let '(sys_time, o) := time o in (u64 sys_time, o)
  else (u64 (EPOCH_TIMESTAMP + u64 (total_minutes (state_ r) * 60)), o).

(** [FakeRtc::set_base_time]. *)
Definition set_base_time (r : fake_rtc) (o : os) (base_time : Z)
  : fake_rtc * os :=
  if negb (enabled (state_ r)) then (r, o)
  else
    let '(current_time, o) := get_current_unix_time o in
    let fake_time := u64 (u64 (current_time - base_time) + current_time) in
    if EPOCH_TIMESTAMP <=? fake_time then
      (set_state r
         (set_needs_save
            (set_total_minutes (state_ r)
               (u32 ((fake_time - EPOCH_TIMESTAMP) / 60))) true), o)
    else (r, o).

(** [FakeRtc::FakeRtc()]. *)
Definition construct (o : os) : fake_rtc * os :=
  let '(t, o) := time o in
  ({| state_ := {| total_minutes := 0; last_real_time := u32 t;
                   enabled := true; needs_save := false |};
      save_dir_ := ""; persistent_bump_minutes_ := 0;
      one_off_bump_minutes_ := 0; previous_persistent_bump_ := 0;
      last_save_time_ := 0 |}, o).

(** *** Vocabulary of the properties *)

(** The lines [std::getline] reads off a text, in order. *)
Fixpoint lines_of (fuel : nat) (s : list ascii) : list (list ascii) :=
  match s, fuel with
  | [], _ => []
  | _, O => []
  | _, S fuel' => let '(line, rest) := getline s in line :: lines_of fuel' rest
  end.

Definition text_lines (s : list ascii) : list (list ascii) :=
  lines_of (length s) s.

(** The line [find_and_modify_opt_file] writes for an option. *)
Definition option_line (option_name new_value : list ascii) : list ascii :=
  option_name ++ list_ascii_of_string " = " ++ [DQ] ++ new_value ++ [DQ].

(** The seconds the clock stands for at real time [now]: the minutes
    counted, plus the seconds since [last_real_time] not yet counted. *)
Definition seconds_at (s : fake_rtc_state_type) (now : Z) : Z :=
  60 * total_minutes s + u32 (now - last_real_time s).

End WithTarget.

(** *** Concrete runs *)

Definition sample_clock (start : Z) : nat -> Z :=
  fun n => start + Z.of_nat n.

Definition sample_os (start : Z) (fs : gmap string (list ascii)) : os :=
  {| clock := sample_clock start; clock_calls := 0; files := fs;
     unwritable := fun _ => false |}.

(** A system whose clock stands still at [t]. *)
Definition frozen_os (t : Z) (fs : gmap string (list ascii)) : os :=
  {| clock := fun _ => t; clock_calls := 0; files := fs;
     unwritable := fun _ => false |}.

Definition sample_rtc (minutes : Z) (dir : string) : fake_rtc :=
  {| state_ := rtc_sample minutes true; save_dir_ := dir;
     persistent_bump_minutes_ := 0; one_off_bump_minutes_ := 0;
     previous_persistent_bump_ := 0; last_save_time_ := 0 |}.

(** An options file of three lines. *)
Definition sample_opt_file : list ascii :=
  option_line (list_ascii_of_string "gambatte_fake_rtc")
    (list_ascii_of_string "enabled") ++ [LF]
  ++ option_line
       (list_ascii_of_string "gambatte_fake_rtc_one_off_bump_minutes")
       (list_ascii_of_string "90") ++ [LF]
  ++ option_line (list_ascii_of_string "gambatte_up_down_allowed")
       (list_ascii_of_string "disabled") ++ [LF].

(** A save directory holding that options file and no saved clock. *)
Definition sample_files : gmap string (list ascii) :=
  {[ "saves/gambatte.opt"%string := sample_opt_file ]}.


End RtcObject.

(** ** Joypad handling: turbo timing, palette selection and the speed
    states ([check_variables], [palette_switch_set_index],
    [update_input_state]) *)

Module InputMore.
Import Mach Input.

Definition TURBO_PERIOD_MAX : Z := 120.
Definition TURBO_PULSE_WIDTH_MAX : Z := 15.

Definition NUM_PALETTES_DEFAULT : Z := 51.
Definition NUM_PALETTES_TWB64_1 : Z := 100.
Definition NUM_PALETTES_TWB64_2 : Z := 100.
Definition NUM_PALETTES_TWB64_3 : Z := 100.
Definition NUM_PALETTES_PIXELSHIFT_1 : Z := 45.

(** The turbo block of [check_variables].  [value] is [atoi(var.value)]
    when the frontend knows the option [gambatte_turbo_period], [None]
    otherwise; the [int] is stored into the [unsigned turbo_period]. *)
Definition check_variables_turbo (value : option Z) (cfg : pad_config)
  (pd : pad) : pad_config * pad :=
  let turbo_period := TURBO_PERIOD_MIN in
  let turbo_pulse_width := TURBO_PULSE_WIDTH_MIN in
  let '(turbo_period, turbo_pulse_width, pd) :=
    match value with
    | Some v =>
        let turbo_period := u32 v in
        let turbo_period :=
          if turbo_period <? TURBO_PERIOD_MIN then TURBO_PERIOD_MIN
          else turbo_period in
        let turbo_period :=
          if TURBO_PERIOD_MAX <? turbo_period then TURBO_PERIOD_MAX
          else turbo_period in
        let turbo_pulse_width := Z.shiftr turbo_period 1 in
        let turbo_pulse_width :=
          if turbo_pulse_width <? TURBO_PULSE_WIDTH_MIN
          then TURBO_PULSE_WIDTH_MIN else turbo_pulse_width in
        let turbo_pulse_width :=
          if TURBO_PULSE_WIDTH_MAX <? turbo_pulse_width
          then TURBO_PULSE_WIDTH_MAX else turbo_pulse_width in
        (turbo_period, turbo_pulse_width,
         {| libretro_input_state := libretro_input_state pd;
            turbo_a_counter := 0; turbo_b_counter := 0;
            palette_switch_counter := palette_switch_counter pd |})
    | None => (turbo_period, turbo_pulse_width, pd)
    end in
  ({| libretro_supports_bitmasks := libretro_supports_bitmasks cfg;
      libretro_supports_set_variable := libretro_supports_set_variable cfg;
      internal_palette_active := internal_palette_active cfg;
      internal_palette_index := internal_palette_index cfg;
      up_down_allowed := up_down_allowed cfg;
      turbo_period := turbo_period;
      turbo_pulse_width := turbo_pulse_width |}, pd).

(** The five option groups [palette_switch_set_index] chooses from. *)
Inductive palette_group :=
| PalettesDefault      (* gambatte_gb_internal_palette itself *)
| PalettesTwb64_1      (* gambatte_gb_palette_twb64_1 *)
| PalettesTwb64_2      (* gambatte_gb_palette_twb64_2 *)
| PalettesTwb64_3      (* gambatte_gb_palette_twb64_3 *)
| PalettesPixelShift_1 (* gambatte_gb_palette_pixelshift_1 *).

(** The head of [palette_switch_set_index]: the group a palette index
    falls into and [opt_index], the position read in that group's table
    of option values. *)
Definition palette_option (palette_index : Z) : palette_group * Z :=
  let palette_index :=
    if NUM_PALETTES_TOTAL <=? palette_index then NUM_PALETTES_TOTAL - 1
    else palette_index in
  if palette_index <? NUM_PALETTES_DEFAULT then
    (PalettesDefault, palette_index)
  else if palette_index <? NUM_PALETTES_DEFAULT + NUM_PALETTES_TWB64_1 then
    (PalettesTwb64_1, palette_index - NUM_PALETTES_DEFAULT)
  else if palette_index <?
            NUM_PALETTES_DEFAULT + NUM_PALETTES_TWB64_1 + NUM_PALETTES_TWB64_2
  then
    (PalettesTwb64_2,
     palette_index - (NUM_PALETTES_DEFAULT + NUM_PALETTES_TWB64_1))
  else if palette_index <?
            NUM_PALETTES_DEFAULT + NUM_PALETTES_TWB64_1 + NUM_PALETTES_TWB64_2
            + NUM_PALETTES_TWB64_3
  then
    (PalettesTwb64_3,
     palette_index
     - (NUM_PALETTES_DEFAULT + NUM_PALETTES_TWB64_1 + NUM_PALETTES_TWB64_2))
  else
    (PalettesPixelShift_1,
     palette_index
     - (NUM_PALETTES_DEFAULT + NUM_PALETTES_TWB64_1 + NUM_PALETTES_TWB64_2
        + NUM_PALETTES_TWB64_3)).

(** *** Vocabulary of the properties *)

(** Length of a group's table of option values, and the palette index of
    its first entry. *)
Definition group_size (g : palette_group) : Z :=
  match g with
  | PalettesDefault => NUM_PALETTES_DEFAULT
  | PalettesTwb64_1 => NUM_PALETTES_TWB64_1
  | PalettesTwb64_2 => NUM_PALETTES_TWB64_2
  | PalettesTwb64_3 => NUM_PALETTES_TWB64_3
  | PalettesPixelShift_1 => NUM_PALETTES_PIXELSHIFT_1
  end.

Definition group_start (g : palette_group) : Z :=
  match g with
  | PalettesDefault => 0
  | PalettesTwb64_1 => NUM_PALETTES_DEFAULT
  | PalettesTwb64_2 => NUM_PALETTES_DEFAULT + NUM_PALETTES_TWB64_1
  | PalettesTwb64_3 =>
      NUM_PALETTES_DEFAULT + NUM_PALETTES_TWB64_1 + NUM_PALETTES_TWB64_2
  | PalettesPixelShift_1 =>
      NUM_PALETTES_DEFAULT + NUM_PALETTES_TWB64_1 + NUM_PALETTES_TWB64_2
      + NUM_PALETTES_TWB64_3
  end.

(** The speed states are both in range and at most one of fast forward
    and slow motion is on. *)
Definition speed_ok (sp : speed) : Prop :=
  0 <= sf2000_fastforward_state sp < 3 /\
  0 <= sf2000_slowmotion_state sp < 3 /\
  (sf2000_fastforward_state sp = 0 \/ sf2000_slowmotion_state sp = 0).

(** The configuration with another palette selected. *)
Definition with_palette (cfg : pad_config) (i : Z) : pad_config :=
  {| libretro_supports_bitmasks := libretro_supports_bitmasks cfg;
     libretro_supports_set_variable := libretro_supports_set_variable cfg;
     internal_palette_active := internal_palette_active cfg;
     internal_palette_index := i;
     up_down_allowed := up_down_allowed cfg;
     turbo_period := turbo_period cfg;
     turbo_pulse_width := turbo_pulse_width cfg |}.

Section MoreWithAbi.
Variable k : abi.

(** Number of rising edges of the SELECT+B chord in a run, given the
    level [prev] seen on the pass before it. *)
Fixpoint b_edges (prev : bool) (ticks : list (pad_config * (Z -> Z))) : nat :=
  match ticks with
  | [] => O
  | (cfg, cb) :: rest =>
      ((if chord_b k cfg cb && negb prev then 1 else 0)
       + b_edges (chord_b k cfg cb) rest)%nat
  end.

(** No pass of the run sees a rising edge of the SELECT+A chord. *)
Fixpoint no_a_edge (prev : bool) (ticks : list (pad_config * (Z -> Z)))
  : bool :=
  match ticks with
  | [] => true
  | (cfg, cb) :: rest =>
      negb (chord_a k cfg cb && negb prev) && no_a_edge (chord_a k cfg cb) rest
  end.

(** The mask of button A is a non-zero [int] value that shares no bit
    with the mask of any other button. *)
Definition a_mask_apart : Prop :=
  0 < IG_A k < 2 ^ 31 /\
  Forall (fun m => 0 <= m < 2 ^ 31 /\ Z.land m (IG_A k) = 0)
    [IG_B k; IG_SELECT k; IG_START k;
     IG_RIGHT k; IG_LEFT k; IG_UP k; IG_DOWN k].

(** On this pass the turbo button for A (RetroPad X) is held, button A
    itself is not, and the turbo period is [P]. *)
Definition turbo_a_held (P : Z) (t : pad_config * (Z -> Z)) : Prop :=
  turbo_period (fst t) = P /\
  pressed k (fst t) (snd t) (JOYPAD_X k) = true /\
  pressed k (fst t) (snd t) (JOYPAD_A k) = false.

End MoreWithAbi.

(** Frontend reports: RetroPad X (turbo A) held. *)
Definition held_x (id : Z) : Z := if id =? 9 then 1 else 0.

(** Frontend reports: SELECT and B held. *)
Definition held_select_b (id : Z) : Z :=
  if (id =? 2) || (id =? 0) then 1 else 0.

End InputMore.

(** ** Frame pacing: further vocabulary *)

Module PacerMore.
Import Mach Pacer.

(** The samples the core reported over the [runFor] calls of a trace. *)
Fixpoint samples_reported (evs : list event) : Z :=
  match evs with
  | [] => 0
  | EvRunFor _ _ samples :: rest => samples + samples_reported rest
  | _ :: rest => samples_reported rest
  end.

(** The events of the emulation loops are [runFor] calls. *)
Definition is_run (e : event) : Prop :=
  match e with EvRunFor _ _ _ => True | _ => False end.

(** How many passes in a row run the core once in a slow-motion state:
    every second pass in state 1, every fifth in state 2. *)
Definition slowmotion_period (slowmo : Z) : Z :=
  if slowmo =? 1 then 2 else 5.

(** A state with the given slow-motion state and counter, splash over,
    everything else at rest. *)
Definition slow_state (slowmo counter : Z) : @state unit unit nat unit :=
  {| samples_count := 0; frames_count := 0;
     sp := {| Input.sf2000_fastforward_state := 0;
              Input.sf2000_select_a_prev := false;
              Input.sf2000_slowmotion_state := slowmo;
              Input.sf2000_select_b_prev := false;
              Input.sf2000_frame_counter := 0;
              Input.sf2000_slowmotion_frame_counter := counter |};
     sf2000_splash_shown := true; sf2000_splash_timer := 0;
     pd := Input.pad_init; video_buf := []; sound_buf := [];
     ev := sample_env |}.

(** The state and the events a run left behind ([d] and no events if it
    did not end). *)
Definition result_state {B R Core Host : Type} (d : @state B R Core Host)
  (res : option (@state B R Core Host * list event)) : @state B R Core Host :=
  match res with Some (st, _) => st | None => d end.

Definition result_events {B R Core Host : Type}
  (res : option (@state B R Core Host * list event)) : list event :=
  match res with Some (_, evs) => evs | None => [] end.

(** A pass in fast-forward state 1. *)
Definition fast_pass : option (@state unit unit nat unit * list event) :=
  retro_run_internal (scripted_world frame_per_call 0) Input.held_none
    (sample_state 0 0 1 true 0).

End PacerMore.

(** ** Interframe blending: the ghosting filters and the loops over the
    frame ([blend_frames_lcd_ghost], [blend_frames_lcd_ghost_fast],
    [blend_frames_ultra_fast]) *)

Module BlendMore.
Import Mach Blend.

(** [static_cast<int>(LCD_RESPONSE_TIME_FAKE * 256.0f)] with
    [LCD_RESPONSE_TIME_FAKE] defined as [0.5f], and [256 - fade_factor]. *)
Definition fade_factor : Z := 128.
Definition curr_factor : Z := 256 - fade_factor.

(** The three [int] channels [r], [g], [b] the fast filters unpack from
    a pixel. *)
Definition unpack (f : pixel_format) (rgb : Z) : Z * Z * Z :=
  match f with
  | RGB565 =>
      (Z.land (Z.shiftr rgb 11) 0x1F, Z.land (Z.shiftr rgb 6) 0x1F,
       Z.land rgb 0x1F)
  | ABGR1555 =>
      (Z.land rgb 0x1F, Z.land (Z.shiftr rgb 5) 0x1F,
       Z.land (Z.shiftr rgb 10) 0x1F)
  | XRGB8888 =>
      (Z.land (Z.shiftr rgb 16) 0x1F, Z.land (Z.shiftr rgb 8) 0x1F,
       Z.land rgb 0x1F)
  end.

(** The pixel the fast filters store for three mixed channels (the store
    truncates the [int] to the pixel type). *)
Definition repack (f : pixel_format) (r g b : Z) : Z :=
  match f with
  | RGB565 => u16 (Z.lor (Z.lor (Z.shiftl r 11) (Z.shiftl g 6)) b)
  | ABGR1555 => u16 (Z.lor (Z.lor r (Z.shiftl g 5)) (Z.shiftl b 10))
  | XRGB8888 => u32 (Z.lor (Z.lor (Z.shiftl r 16) (Z.shiftl g 8)) b)
  end.

(** The pixel computation of [blend_frames_lcd_ghost_fast]: mix in 8.8
    fixed point, clamp to [0x1F], repack.  The channels are at most 31,
    so the [int] products and sums stay far below the range of [int]. *)
Definition ghost_fast_pixel (f : pixel_format) (rgb_curr rgb_prev : Z) : Z :=
  let '(r_curr, g_curr, b_curr) := unpack f rgb_curr in
  let '(r_prev, g_prev, b_prev) := unpack f rgb_prev in
  let r_mix := Z.shiftr (r_curr * curr_factor + r_prev * fade_factor) 8 in
  let g_mix := Z.shiftr (g_curr * curr_factor + g_prev * fade_factor) 8 in
  let b_mix := Z.shiftr (b_curr * curr_factor + b_prev * fade_factor) 8 in
  let r_mix := if 0x1F <? r_mix then 0x1F else r_mix in
  let g_mix := if 0x1F <? g_mix then 0x1F else g_mix in
  let b_mix := if 0x1F <? b_mix then 0x1F else b_mix in
  repack f r_mix g_mix b_mix.

(** The pixel computation of [blend_frames_ultra_fast]: three quarters of
    the current channel plus one quarter of the previous one. *)
Definition ultra_fast_pixel (f : pixel_format) (rgb_curr rgb_prev : Z) : Z :=
  let '(r_curr, g_curr, b_curr) := unpack f rgb_curr in
  let '(r_prev, g_prev, b_prev) := unpack f rgb_prev in
  let r_blend := Z.shiftr (r_curr * 3 + r_prev) 2 in
  let g_blend := Z.shiftr (g_curr * 3 + g_prev) 2 in
  let b_blend := Z.shiftr (b_curr * 3 + b_prev) 2 in
  repack f r_blend g_blend b_blend.

(** [frame_blend_response_int], as [init_frame_blending] sets it for
    the LCD ghosting filter: [static_cast<int>(response * 256.0f)] for
    the responses [LCD_RESPONSE_TIME] (0.333f) and its second, third and
    fourth power.  The products are about 85.25, 28.39, 9.45 and 3.15,
    so the truncations do not depend on how the [float] operations
    round. *)
Definition frame_blend_response_int : list Z := [85; 28; 9; 3].

Definition response (k : nat) : Z := default 0 (frame_blend_response_int !! k).

(** One channel of [blend_frames_lcd_ghost]: accumulate in 8.8 fixed
    point, convert back with rounding, clamp to [0, 0x1F].  All values
    are [int]s of small magnitude. *)
Definition ghost_channel (curr prev_1 prev_2 prev_3 prev_4 : Z) : Z :=
  let accum := Z.shiftl curr 8 in
  let accum := accum + (prev_1 - curr) * response 0 in
  let accum := accum + (prev_2 - curr) * response 1 in
  let accum := accum + (prev_3 - curr) * response 2 in
  let accum := accum + (prev_4 - curr) * response 3 in
  let mix := Z.shiftr (accum + 128) 8 in
  if 0x1F <? mix then 0x1F else if mix <? 0 then 0 else mix.

(** The pixel computation of [blend_frames_lcd_ghost] (the body of its
    inner loop): the pixel stored into the current frame for the pixels
    of the current and the four previous frames. *)
Definition lcd_ghost_pixel (f : pixel_format)
  (rgb_curr rgb_prev_1 rgb_prev_2 rgb_prev_3 rgb_prev_4 : Z) : Z :=
  let '(r_curr, g_curr, b_curr) := unpack f rgb_curr in
  let '(r_prev_1, g_prev_1, b_prev_1) := unpack f rgb_prev_1 in
  let '(r_prev_2, g_prev_2, b_prev_2) := unpack f rgb_prev_2 in
  let '(r_prev_3, g_prev_3, b_prev_3) := unpack f rgb_prev_3 in
  let '(r_prev_4, g_prev_4, b_prev_4) := unpack f rgb_prev_4 in
  repack f
    (ghost_channel r_curr r_prev_1 r_prev_2 r_prev_3 r_prev_4)
    (ghost_channel g_curr g_prev_1 g_prev_2 g_prev_3 g_prev_4)
    (ghost_channel b_curr b_prev_1 b_prev_2 b_prev_3 b_prev_4).

(** The inner [for (x = 0; x < VIDEO_WIDTH; x++)] loop of a filter with
    pixel computation [op], [n] iterations left; [base] is the offset of
    the row pointers into their buffers. *)
Fixpoint blend_row (op : Z -> Z -> Z) (n x base : nat) (curr prev : list Z)
  : list Z * list Z :=
  match n with
  | O => (curr, prev)
  | S n' =>
      let rgb_curr := get curr (base + x) in
      let rgb_prev := get prev (base + x) in
      let prev := <[(base + x)%nat := rgb_curr]> prev in
      let curr := <[(base + x)%nat := op rgb_curr rgb_prev]> curr in
      blend_row op n' (S x) base curr prev
  end.

(** The outer [for (y = 0; y < VIDEO_HEIGHT; y++)] loop, [n] rows left;
    each row ends with [curr += VIDEO_PITCH; prev += VIDEO_PITCH]. *)
Fixpoint blend_rows (op : Z -> Z -> Z) (n base : nat) (curr prev : list Z)
  : list Z * list Z :=
  match n with
  | O => (curr, prev)
  | S n' =>
      let '(curr, prev) := blend_row op VIDEO_WIDTH 0 base curr prev in
      blend_rows op n' (base + VIDEO_PITCH)%nat curr prev
  end.

(** The loop of the [__mips__] variants,
    [for (i = 0; i < total_pixels; i++)], [n] iterations left. *)
Fixpoint blend_linear (op : Z -> Z -> Z) (n i : nat) (curr prev : list Z)
  : list Z * list Z :=
  match n with
  | O => (curr, prev)
  | S n' =>
      let rgb_curr := get curr i in
      let rgb_prev := get prev i in
      let prev := <[i := rgb_curr]> prev in
      let curr := <[i := op rgb_curr rgb_prev]> curr in
      blend_linear op n' (S i) curr prev
  end.

(** [size_t total_pixels = VIDEO_HEIGHT * VIDEO_WIDTH]. *)
Definition total_pixels : nat := (VIDEO_HEIGHT * VIDEO_WIDTH)%nat.

(** [blend_frames_lcd_ghost_fast], as built with ([mips = true]) and
    without [__mips__]: takes [video_buf] and [video_buf_prev_1] and
    returns both as the function leaves them. *)
Definition blend_frames_lcd_ghost_fast (mips : bool) (f : pixel_format)
  (video_buf video_buf_prev_1 : list Z) : list Z * list Z :=
  if mips then
    blend_linear (ghost_fast_pixel f) total_pixels 0 video_buf video_buf_prev_1
  else
    blend_rows (ghost_fast_pixel f) VIDEO_HEIGHT 0 video_buf video_buf_prev_1.

(** [blend_frames_ultra_fast] (it exists under [__mips__] only). *)
Definition blend_frames_ultra_fast (f : pixel_format)
  (video_buf video_buf_prev_1 : list Z) : list Z * list Z :=
  blend_linear (ultra_fast_pixel f) total_pixels 0 video_buf video_buf_prev_1.

(** *** [blend_frames_mix] as built with [__mips__] *)

(** [blend_mask]: the mask of the layout in both halves of a 32-bit word
    (with 32-bit pixels, 0x01010101). *)
Definition blend_mask (f : pixel_format) : Z :=
  match f with
  | RGB565 => 0x08210821
  | ABGR1555 => 0x05210521
  | XRGB8888 => 0x01010101
  end.

(** [(curr_pair + prev_pair + ((curr_pair ^ prev_pair) & blend_mask)) >> 1]
    in [uint32_t] arithmetic. *)
Definition mix_pair (f : pixel_format) (curr_pair prev_pair : Z) : Z :=
  Z.shiftr (u32 (u32 (curr_pair + prev_pair)
                 + Z.land (Z.lxor curr_pair prev_pair) (blend_mask f))) 1.

(** [buf32[i]] for a pixel buffer read through a [uint32_t] pointer.
    With 16-bit pixels the word holds the pixels [2 i] and [2 i + 1];
    the first of them is its low half on a little-endian target and its
    high half on a big-endian one.  With 32-bit pixels the word is the
    pixel [i]. *)
Definition load32 (big_endian : bool) (f : pixel_format) (buf : list Z)
  (i : nat) : Z :=
  match f with
  | XRGB8888 => get buf i
  | _ =>
      let first := get buf (2 * i) in
      let second := get buf (2 * i + 1) in
      if big_endian then Z.lor (Z.shiftl first 16) second
      else Z.lor (Z.shiftl second 16) first
  end.

(** [buf32[i] = v] for the same buffer. *)
Definition store32 (big_endian : bool) (f : pixel_format) (buf : list Z)
  (i : nat) (v : Z) : list Z :=
  match f with
  | XRGB8888 => <[i := v]> buf
  | _ =>
      let low := Z.land v 0xFFFF in
      let high := Z.shiftr v 16 in
      if big_endian
      then <[(2 * i + 1)%nat := low]> (<[(2 * i)%nat := high]> buf)
      else <[(2 * i + 1)%nat := high]> (<[(2 * i)%nat := low]> buf)
  end.

(** The loop [for (i = 0; i < pixels_32; i++)], [n] iterations left. *)
Fixpoint mix_pairs (big_endian : bool) (f : pixel_format) (n i : nat)
  (curr prev : list Z) : list Z * list Z :=
  match n with
  | O => (curr, prev)
  | S n' =>
      let curr_pair := load32 big_endian f curr i in
      let prev_pair := load32 big_endian f prev i in
      let prev := store32 big_endian f prev i curr_pair in
      let curr := store32 big_endian f curr i (mix_pair f curr_pair prev_pair) in
      mix_pairs big_endian f n' (S i) curr prev
  end.

(** [blend_frames_mix] as built with [__mips__]: the loop over
    [pixels_32 = total_pixels >> 1] words, then the last pixel on its
    own if [total_pixels] is odd. *)
Definition blend_frames_mix_mips (big_endian : bool) (f : pixel_format)
  (video_buf video_buf_prev_1 : list Z) : list Z * list Z :=
  let pixels_32 := Nat.div2 total_pixels in
  let '(curr, prev) :=
    mix_pairs big_endian f pixels_32 0 video_buf video_buf_prev_1 in
  if Nat.odd total_pixels then
    let rgb_curr := get curr (total_pixels - 1) in
    let rgb_prev := get prev (total_pixels - 1) in
    let prev := <[(total_pixels - 1)%nat := rgb_curr]> prev in
    (<[(total_pixels - 1)%nat := mix_pixel f rgb_curr rgb_prev]> curr, prev)
  else (curr, prev).

(** *** Vocabulary of the properties *)

(** The pixel with red, green and blue channel values [r], [g], [b]. *)
Definition pack (f : pixel_format) (r g b : Z) : Z :=
  match f with
  | RGB565 => r * 2048 + g * 32 + b
  | ABGR1555 => b * 1024 + g * 32 + r
  | XRGB8888 => r * 65536 + g * 256 + b
  end.

(** The channel values fit the layout: 5, 6 and 5 bits, three times 5
    bits, three times 8 bits. *)
Definition channels_ok (f : pixel_format) (r g b : Z) : Prop :=
  match f with
  | RGB565 => 0 <= r < 32 /\ 0 <= g < 64 /\ 0 <= b < 32
  | ABGR1555 => 0 <= r < 32 /\ 0 <= g < 32 /\ 0 <= b < 32
  | XRGB8888 => 0 <= r < 256 /\ 0 <= g < 256 /\ 0 <= b < 256
  end.

(** The mean of two channel values, rounded up and rounded down. *)
Definition mean_up (a b : Z) : Z := (a + b + 1) / 2.
Definition mean_down (a b : Z) : Z := (a + b) / 2.

(** The bit the mask of the ABGR1555 build has besides the lowest bit of
    each channel (0x521 is bits 0, 5, 8 and 10) adds 256 to the packed
    sum when the green values differ in bit 3. *)
Definition stray (f : pixel_format) (g1 g2 : Z) : Z :=
  match f with
  | ABGR1555 => if xorb (Z.testbit g1 3) (Z.testbit g2 3) then 128 else 0
  | _ => 0
  end.

(** What the fast filters see of a channel triple: five bits of each
    channel (the upper five of the six green bits of RGB565, the lower
    five of the eight bits of an XRGB8888 channel). *)
Definition seen (f : pixel_format) (r g b : Z) : Z * Z * Z :=
  match f with
  | RGB565 => (r, g / 2, b)
  | ABGR1555 => (r, g, b)
  | XRGB8888 => (r mod 32, g mod 32, b mod 32)
  end.

(** The pixel the fast filters store for three five-bit results. *)
Definition stored (f : pixel_format) (r g b : Z) : Z :=
  match f with
  | RGB565 => pack f r (2 * g) b
  | _ => pack f r g b
  end.

(** The mean of the current and four previous channel values with the
    weights 131, 85, 28, 9 and 3 (of 256), rounded to the nearest. *)
Definition weighted (c p1 p2 p3 p4 : Z) : Z :=
  (131 * c + 85 * p1 + 28 * p2 + 9 * p3 + 3 * p4 + 128) / 256.

(** A pixel by its channel triple, and the triples that fit the layout. *)
Definition pixel_of (f : pixel_format) (t : Z * Z * Z) : Z :=
  let '(r, g, b) := t in pack f r g b.

Definition triple_ok (f : pixel_format) (t : Z * Z * Z) : Prop :=
  let '(r, g, b) := t in channels_ok f r g b.

Definition seen_of (f : pixel_format) (t : Z * Z * Z) : Z * Z * Z :=
  let '(r, g, b) := t in seen f r g b.

(** The frames the frontend is handed when the core produces [frames]
    one after the other and the mix filter runs on each, and the
    previous-frame buffer left at the end. *)
Fixpoint blend_sequence (f : pixel_format) (frames : list (list Z))
  (prev : list Z) : list (list Z) * list Z :=
  match frames with
  | [] => ([], prev)
  | F :: rest =>
      let '(out, prev) := blend_frames_mix f F prev in
      let '(outs, prev) := blend_sequence f rest prev in
      (out :: outs, prev)
  end.

(** The pixel [j] of a buffer of 16-bit pixels is the high half of the
    32-bit word it lies in: the second pixel of the word on a
    little-endian target, the first on a big-endian one. *)
Definition high_half (big_endian : bool) (j : nat) : bool :=
  xorb (Nat.odd j) big_endian.

(** What the word loop makes of the pixel [j]: the per-pixel mix, cut to
    15 bits for the pixel in the high half of a word. *)
Definition mix_in_word (big_endian : bool) (f : pixel_format) (j : nat)
  (rgb_curr rgb_prev : Z) : Z :=
  let m := mix_pixel f rgb_curr rgb_prev in
  if high_half big_endian j then m mod 32768 else m.

(** A buffer of 16-bit pixels. *)
Definition pixels16 (buf : list Z) : Prop :=
  Forall (fun c => 0 <= c < 65536) buf.

(** A frame whose pixels all have the value [c]. *)
Definition flat_frame (c : Z) : list Z := replicate VIDEO_BUFF_PIXELS c.

End BlendMore.

(** ** Rumble ([cartridge_set_rumble], [apply_rumble],
    [deactivate_rumble] and their callers) *)

Module Rumble.
Import Mach.

(** [enum retro_rumble_effect] of the libretro API. *)
Inductive retro_rumble_effect := RETRO_RUMBLE_STRONG | RETRO_RUMBLE_WEAK.

(** A call [rumble.set_rumble_state(port, effect, strength)]. *)
Inductive rumble_call :=
| SetRumbleState (port : Z) (effect : retro_rumble_effect) (strength : Z).

(** The rumble globals.  [set_rumble_state] tells whether the function
    pointer [rumble.set_rumble_state] is set; the four [uint16_t]
    globals hold values below 2^16. *)
Record rumble_state := {
  set_rumble_state     : bool;
  rumble_strength_last : Z;   (* uint16_t *)
  rumble_strength_up   : Z;   (* uint16_t *)
  rumble_strength_down : Z;   (* uint16_t *)
  rumble_level         : Z;   (* uint16_t *)
  rumble_active        : bool
}.

(** Load-time values, with the interface as [retro_load_game] found
    it. *)
Definition rumble_initial (have_interface : bool) : rumble_state :=
  {| set_rumble_state := have_interface; rumble_strength_last := 0;
     rumble_strength_up := 0; rumble_strength_down := 0;
     rumble_level := 0; rumble_active := false |}.

(** [cartridge_set_rumble]. *)
Definition cartridge_set_rumble (active : Z) (st : rumble_state)
  : rumble_state :=
  if negb (set_rumble_state st) || (rumble_level st =? 0) then st
  else
    let up :=
      if negb (active =? 0) then u16 (rumble_strength_up st + 1)
      else rumble_strength_up st in
    let down :=
      if negb (active =? 0) then rumble_strength_down st
      else u16 (rumble_strength_down st + 1) in
    {| set_rumble_state := set_rumble_state st;
       rumble_strength_last := rumble_strength_last st;
       rumble_strength_up := up; rumble_strength_down := down;
       rumble_level := rumble_level st; rumble_active := true |}.

(** [apply_rumble].  The [uint16_t] operands are promoted to [int]: the
    product wraps as a 32-bit [int] would (it stays below 2^31 unless
    more than 32768 calls were counted), the division truncates, and the
    store into [strength] reduces modulo 2^16. *)
Definition apply_rumble (st : rumble_state)
  : rumble_state * list rumble_call :=
  if negb (set_rumble_state st) || (rumble_level st =? 0) then (st, [])
  else
    let strength :=
      u16 (if 0 <? rumble_strength_up st
           then Z.quot (i32 (rumble_strength_up st * rumble_level st))
                  (rumble_strength_up st + rumble_strength_down st)
           else 0) in
    if strength =? rumble_strength_last st then
      ({| set_rumble_state := set_rumble_state st;
          rumble_strength_last := rumble_strength_last st;
          rumble_strength_up := 0; rumble_strength_down := 0;
          rumble_level := rumble_level st;
          rumble_active := rumble_active st |}, [])
    else
      ({| set_rumble_state := set_rumble_state st;
          rumble_strength_last := strength;
          rumble_strength_up := 0; rumble_strength_down := 0;
          rumble_level := rumble_level st;
          rumble_active := rumble_active st |},
       [SetRumbleState 0 RETRO_RUMBLE_WEAK strength;
        SetRumbleState 0 RETRO_RUMBLE_STRONG strength]).

(** [deactivate_rumble]. *)
Definition deactivate_rumble (st : rumble_state)
  : rumble_state * list rumble_call :=
  if negb (set_rumble_state st) || (rumble_strength_last st =? 0) then
    ({| set_rumble_state := set_rumble_state st;
        rumble_strength_last := rumble_strength_last st;
        rumble_strength_up := 0; rumble_strength_down := 0;
        rumble_level := rumble_level st; rumble_active := false |}, [])
  else
    ({| set_rumble_state := set_rumble_state st;
        rumble_strength_last := 0;
        rumble_strength_up := 0; rumble_strength_down := 0;
        rumble_level := rumble_level st; rumble_active := false |},
     [SetRumbleState 0 RETRO_RUMBLE_WEAK 0;
      SetRumbleState 0 RETRO_RUMBLE_STRONG 0]).

(** The rumble block of [check_variables].  [value] is [atoi(var.value)]
    when the frontend knows the option [gambatte_rumble_level]; the
    [int] results are stored into the [uint16_t rumble_level]. *)
Definition check_variables_rumble (value : option Z) (st : rumble_state)
  : rumble_state * list rumble_call :=
  let level :=
    match value with
    | Some v =>
        let level := u16 v in
        let level := if 10 <? level then 10 else level in
        if 0 <? level then u16 (0x1999 * level + 0x5) else 0
    | None => 0
    end in
  let st :=
    {| set_rumble_state := set_rumble_state st;
       rumble_strength_last := rumble_strength_last st;
       rumble_strength_up := rumble_strength_up st;
       rumble_strength_down := rumble_strength_down st;
       rumble_level := level; rumble_active := rumble_active st |} in
  if level =? 0 then deactivate_rumble st else (st, []).

(** The rumble step at the end of [retro_run_internal]:
    [if (rumble_active) apply_rumble();]. *)
Definition retro_run_rumble (st : rumble_state)
  : rumble_state * list rumble_call :=
  if rumble_active st then apply_rumble st else (st, []).

(** What happens to the rumble globals between [retro_load_game] and
    [retro_deinit]: the core reports the motor bit of the cartridge, a
    pass of [retro_run_internal] ends, the options are read again. *)
Inductive rumble_op :=
| OpCartridge (active : Z)
| OpRunEnd
| OpCheckVariables (value : option Z).

Definition rumble_step (op : rumble_op) (st : rumble_state)
  : rumble_state * list rumble_call :=
  match op with
  | OpCartridge active => (cartridge_set_rumble active st, [])
  | OpRunEnd => retro_run_rumble st
  | OpCheckVariables value => check_variables_rumble value st
  end.

Fixpoint rumble_run (ops : list rumble_op) (st : rumble_state)
  : rumble_state * list rumble_call :=
  match ops with
  | [] => (st, [])
  | op :: rest =>
      let '(st1, calls1) := rumble_step op st in
      let '(st2, calls2) := rumble_run rest st1 in
      (st2, calls1 ++ calls2)
  end.

(** *** Vocabulary of the properties *)

(** Both motors set to strength [s], the weak one first. *)
Definition both_motors (s : Z) : list rumble_call :=
  [SetRumbleState 0 RETRO_RUMBLE_WEAK s;
   SetRumbleState 0 RETRO_RUMBLE_STRONG s].

(** Each strength of the list differs from the one before it, [prev]
    being the one before the first. *)
Fixpoint changes (prev : Z) (ss : list Z) : Prop :=
  match ss with
  | [] => True
  | s :: rest => s <> prev /\ changes s rest
  end.

(** A call of one of the functions either sends nothing and keeps
    [rumble_strength_last], or sets both motors to a new strength and
    records it. *)
Definition one_change (last : Z) (st' : rumble_state)
  (sent : list rumble_call) : Prop :=
  (sent = [] /\ rumble_strength_last st' = last) \/
  (exists s, sent = both_motors s /\ s <> last /\ 0 <= s < 2 ^ 16 /\
             rumble_strength_last st' = s).

(** The calls of [cartridge_set_rumble] during one pass, by their
    arguments, counted into the state. *)
Definition count_calls (calls : list Z) (st : rumble_state) : rumble_state :=
  fold_left (fun s active => cartridge_set_rumble active s) calls st.

(** How many of the calls had the motor bit set. *)
Definition active_calls (calls : list Z) : Z :=
  Z.of_nat (length (filter (fun a => a <> 0) calls)).

(** The state at the start of a pass: interface present, level [level],
    last strength sent [last], nothing counted yet. *)
Definition pass_start (level last : Z) (active : bool) : rumble_state :=
  {| set_rumble_state := true; rumble_strength_last := last;
     rumble_strength_up := 0; rumble_strength_down := 0;
     rumble_level := level; rumble_active := active |}.

End Rumble.

(** ** Interframe blending: choosing the filter and its buffers
    ([allocate_video_buf_prev], [init_frame_blending],
    [deinit_frame_blending], [check_frame_blend_variable]) *)

Module BlendInit.
Import Mach Blend.

(** [enum frame_blend_method]; its last member exists under [__mips__]
    only. *)
Inductive frame_blend_method :=
| FRAME_BLEND_NONE
| FRAME_BLEND_MIX
| FRAME_BLEND_LCD_GHOSTING
| FRAME_BLEND_LCD_GHOSTING_FAST
| FRAME_BLEND_ULTRA_FAST.

#[global] Instance frame_blend_method_eq_dec : EqDecision frame_blend_method.
Proof. solve_decision. Defined.

(** The blending globals.  A buffer pointer is [None] when it is NULL
    and lists the pixels of the allocation otherwise; [blend_frames] is
    [None] when the function pointer is NULL and otherwise names the
    method whose filter it points to.  The three [video_buf_acc_]
    pointers are left out: nothing allocates them. *)
Record blend_state := {
  frame_blend_type         : frame_blend_method;
  video_buf_prev_1         : option (list Z);
  video_buf_prev_2         : option (list Z);
  video_buf_prev_3         : option (list Z);
  video_buf_prev_4         : option (list Z);
  frame_blend_response_set : bool;
  blend_frames             : option frame_blend_method
}.

(** Load-time values. *)
Definition blend_initial : blend_state :=
  {| frame_blend_type := FRAME_BLEND_NONE;
     video_buf_prev_1 := None; video_buf_prev_2 := None;
     video_buf_prev_3 := None; video_buf_prev_4 := None;
     frame_blend_response_set := false; blend_frames := None |}.

Section WithMalloc.

(** Whether the [n]-th call of [malloc] succeeds, and whether the build
    defines [__mips__]. *)
Variable malloc_ok : nat -> bool.
Variable mips : bool.

(** [allocate_video_buf_prev] on one of the four pointers, after [n]
    calls of [malloc]: the pointer as it is left, the result, and the
    number of calls made so far.  A buffer that exists is cleared over
    [VIDEO_BUFF_SIZE] bytes, the size every buffer is allocated with. *)
Definition allocate_video_buf_prev_at (buf : option (list Z)) (n : nat)
  : option (list Z) * bool * nat :=
  match buf with
  | None =>
      if malloc_ok n then (Some allocate_video_buf_prev, true, S n)
      else (None, false, S n)
  | Some _ => (Some allocate_video_buf_prev, true, n)
  end.

Definition with_blend_frames (st : blend_state)
  (b : option frame_blend_method) : blend_state :=
  {| frame_blend_type := frame_blend_type st;
     video_buf_prev_1 := video_buf_prev_1 st;
     video_buf_prev_2 := video_buf_prev_2 st;
     video_buf_prev_3 := video_buf_prev_3 st;
     video_buf_prev_4 := video_buf_prev_4 st;
     frame_blend_response_set := frame_blend_response_set st;
     blend_frames := b |}.

Definition with_prev_1 (st : blend_state) (b : option (list Z))
  : blend_state :=
  {| frame_blend_type := frame_blend_type st;
     video_buf_prev_1 := b;
     video_buf_prev_2 := video_buf_prev_2 st;
     video_buf_prev_3 := video_buf_prev_3 st;
     video_buf_prev_4 := video_buf_prev_4 st;
     frame_blend_response_set := frame_blend_response_set st;
     blend_frames := blend_frames st |}.

Definition with_prev_2 (st : blend_state) (b : option (list Z))
  : blend_state :=
  {| frame_blend_type := frame_blend_type st;
     video_buf_prev_1 := video_buf_prev_1 st;
     video_buf_prev_2 := b;
     video_buf_prev_3 := video_buf_prev_3 st;
     video_buf_prev_4 := video_buf_prev_4 st;
     frame_blend_response_set := frame_blend_response_set st;
     blend_frames := blend_frames st |}.

Definition with_prev_3 (st : blend_state) (b : option (list Z))
  : blend_state :=
  {| frame_blend_type := frame_blend_type st;
     video_buf_prev_1 := video_buf_prev_1 st;
     video_buf_prev_2 := video_buf_prev_2 st;
     video_buf_prev_3 := b;
     video_buf_prev_4 := video_buf_prev_4 st;
     frame_blend_response_set := frame_blend_response_set st;
     blend_frames := blend_frames st |}.

Definition with_prev_4 (st : blend_state) (b : option (list Z))
  : blend_state :=
  {| frame_blend_type := frame_blend_type st;
     video_buf_prev_1 := video_buf_prev_1 st;
     video_buf_prev_2 := video_buf_prev_2 st;
     video_buf_prev_3 := video_buf_prev_3 st;
     video_buf_prev_4 := b;
     frame_blend_response_set := frame_blend_response_set st;
     blend_frames := blend_frames st |}.

(** The first [switch] of [init_frame_blending]: the buffers the method
    needs, allocated or cleared one after the other; [false] when the
    function returns from inside the switch. *)
Definition allocate_for (st : blend_state) (n : nat)
  : blend_state * bool * nat :=
  let one (st : blend_state) (n : nat) :=
    let '(b, ok, n) := allocate_video_buf_prev_at (video_buf_prev_1 st) n in
    (with_prev_1 st b, ok, n) in
  match frame_blend_type st with
  | FRAME_BLEND_MIX => one st n
  | FRAME_BLEND_LCD_GHOSTING =>
      let '(b, ok, n) := allocate_video_buf_prev_at (video_buf_prev_1 st) n in
      let st := with_prev_1 st b in
      if negb ok then (st, false, n) else
      let '(b, ok, n) := allocate_video_buf_prev_at (video_buf_prev_2 st) n in
      let st := with_prev_2 st b in
      if negb ok then (st, false, n) else
      let '(b, ok, n) := allocate_video_buf_prev_at (video_buf_prev_3 st) n in
      let st := with_prev_3 st b in
      if negb ok then (st, false, n) else
      let '(b, ok, n) := allocate_video_buf_prev_at (video_buf_prev_4 st) n in
      let st := with_prev_4 st b in
      (st, ok, n)
  | FRAME_BLEND_LCD_GHOSTING_FAST => one st n
  | FRAME_BLEND_ULTRA_FAST => if mips then one st n else (st, false, n)
  | FRAME_BLEND_NONE => (st, false, n)
  end.

(** [init_frame_blending]. *)
Definition init_frame_blending (st : blend_state) (n : nat)
  : blend_state * nat :=
  let st := with_blend_frames st None in
  let '(st, ok, n) := allocate_for st n in
  if negb ok then (st, n)
  else
    let response_set :=
      if decide (frame_blend_type st = FRAME_BLEND_LCD_GHOSTING)
      then true else frame_blend_response_set st in
    ({| frame_blend_type := frame_blend_type st;
        video_buf_prev_1 := video_buf_prev_1 st;
        video_buf_prev_2 := video_buf_prev_2 st;
        video_buf_prev_3 := video_buf_prev_3 st;
        video_buf_prev_4 := video_buf_prev_4 st;
        frame_blend_response_set := response_set;
        blend_frames := Some (frame_blend_type st) |}, n).

(** [deinit_frame_blending]. *)
Definition deinit_frame_blending (st : blend_state) : blend_state :=
  {| frame_blend_type := FRAME_BLEND_NONE;
     video_buf_prev_1 := None; video_buf_prev_2 := None;
     video_buf_prev_3 := None; video_buf_prev_4 := None;
     frame_blend_response_set := false;
     blend_frames := blend_frames st |}.

(** The method an option value names ([strcmp] against the four
    names). *)
Definition method_of_value (value : string) : frame_blend_method :=
  if String.eqb value "mix" then FRAME_BLEND_MIX
  else if String.eqb value "lcd_ghosting" then FRAME_BLEND_LCD_GHOSTING
  else if String.eqb value "lcd_ghosting_fast"
       then FRAME_BLEND_LCD_GHOSTING_FAST
  else if mips && String.eqb value "ultra_fast" then FRAME_BLEND_ULTRA_FAST
  else FRAME_BLEND_NONE.

(** [check_frame_blend_variable].  [value] is [var.value] when the
    frontend knows the option [gambatte_mix_frames]. *)
Definition check_frame_blend_variable (value : option string)
  (st : blend_state) (n : nat) : blend_state * nat :=
  let old_frame_blend_type := frame_blend_type st in
  let new_type :=
    match value with
    | Some v => method_of_value v
    | None => FRAME_BLEND_NONE
    end in
  let st :=
    {| frame_blend_type := new_type;
       video_buf_prev_1 := video_buf_prev_1 st;
       video_buf_prev_2 := video_buf_prev_2 st;
       video_buf_prev_3 := video_buf_prev_3 st;
       video_buf_prev_4 := video_buf_prev_4 st;
       frame_blend_response_set := frame_blend_response_set st;
       blend_frames := blend_frames st |} in
  if decide (new_type = FRAME_BLEND_NONE) then (with_blend_frames st None, n)
  else if decide (new_type <> old_frame_blend_type)
       then init_frame_blending st n
  else (st, n).

(** The calls that write the blending globals: [check_variables] reads
    the option, [retro_deinit] releases the buffers. *)
Inductive blend_op :=
| OpCheckBlend (value : option string)
| OpDeinitBlend.

Definition blend_step (op : blend_op) (st : blend_state) (n : nat)
  : blend_state * nat :=
  match op with
  | OpCheckBlend value => check_frame_blend_variable value st n
  | OpDeinitBlend => (deinit_frame_blending st, n)
  end.

Fixpoint blend_run (ops : list blend_op) (st : blend_state) (n : nat)
  : blend_state * nat :=
  match ops with
  | [] => (st, n)
  | op :: rest =>
      let '(st, n) := blend_step op st n in blend_run rest st n
  end.

End WithMalloc.

(** *** Vocabulary of the properties *)

(** The previous-frame buffers, by number. *)
Definition prev_buffer (st : blend_state) (k : nat) : option (list Z) :=
  match k with
  | 1%nat => video_buf_prev_1 st
  | 2%nat => video_buf_prev_2 st
  | 3%nat => video_buf_prev_3 st
  | 4%nat => video_buf_prev_4 st
  | _ => None
  end.

(** The previous-frame buffers the filter of a method reads and
    writes. *)
Definition buffers_used (m : frame_blend_method) : list nat :=
  match m with
  | FRAME_BLEND_NONE => []
  | FRAME_BLEND_LCD_GHOSTING => [1; 2; 3; 4]%nat
  | _ => [1]%nat
  end.

(** Buffer [k] exists and has the size of a frame. *)
Definition buffer_ready (st : blend_state) (k : nat) : Prop :=
  exists b, prev_buffer st k = Some b /\ length b = VIDEO_BUFF_PIXELS.

(** If a filter is installed it is the one of the method selected, and
    every buffer it uses is ready. *)
Definition blend_safe (st : blend_state) : Prop :=
  match blend_frames st with
  | None => True
  | Some m =>
      m = frame_blend_type st /\ m <> FRAME_BLEND_NONE /\
      Forall (buffer_ready st) (buffers_used m)
  end.

(** Every buffer that exists has the size of a frame. *)
Definition buffers_sized (st : blend_state) : Prop :=
  forall k b, prev_buffer st k = Some b -> length b = VIDEO_BUFF_PIXELS.

(** Buffer [k] was just cleared. *)
Definition buffer_cleared (st : blend_state) (k : nat) : Prop :=
  prev_buffer st k = Some allocate_video_buf_prev.

(** What the allocation switch of [init_frame_blending] leaves behind. *)
Definition allocated (st st' : blend_state) (ok : bool) : Prop :=
  frame_blend_type st' = frame_blend_type st /\
  blend_frames st' = blend_frames st /\
  (buffers_sized st -> buffers_sized st') /\
  (ok = true ->
   frame_blend_type st <> FRAME_BLEND_NONE /\
   Forall (buffer_cleared st') (buffers_used (frame_blend_type st))).

(** The states the calls keep to: buffers of the right size, and a
    filter installed only with its buffers, or no method selected. *)
Definition blend_inv (st : blend_state) : Prop :=
  buffers_sized st /\
  (blend_safe st \/ frame_blend_type st = FRAME_BLEND_NONE).

End BlendInit.

(** * Properties *)

(** ** Machine arithmetic: properties *)

Module MachFacts.
Import Mach.

Lemma u32_small x : 0 <= x < 2 ^ 32 -> u32 x = x.
Proof. intros H. unfold u32. now apply Z.mod_small. Qed.

Lemma u64_small x : 0 <= x < 2 ^ 64 -> u64 x = x.
Proof. intros H. unfold u64. now apply Z.mod_small. Qed.

Lemma u16_small x : 0 <= x < 2 ^ 16 -> u16 x = x.
Proof. intros H. unfold u16. now apply Z.mod_small. Qed.

Lemma i32_small x : INT_MIN <= x <= INT_MAX -> i32 x = x.
Proof.
  unfold i32, INT_MIN, INT_MAX. intros H.
  rewrite Z.mod_small; lia.
Qed.

Lemma u32_range x : 0 <= u32 x < 2 ^ 32.
Proof. unfold u32. apply Z.mod_pos_bound. lia. Qed.

Lemma u64_range x : 0 <= u64 x < 2 ^ 64.
Proof. unfold u64. apply Z.mod_pos_bound. lia. Qed.

End MachFacts.

(** ** The fake clock: properties *)

Module FakeRtcFacts.
Import Mach MachFacts FakeRtc.

Lemma abs_bump_value b :
  INT_MIN <= b < 0 -> u32 (i32 (- b)) = - b.
Proof.
  unfold INT_MIN. intros Hb.
  destruct (Z.eq_dec b (- 2 ^ 31)) as [-> | Hne].
  - reflexivity.
  - rewrite i32_small by (unfold INT_MIN, INT_MAX; lia).
    apply u32_small. lia.
Qed.

Lemma bump_time_disabled s b :
  enabled s = false -> bump_time s b = s.
Proof. intros H. unfold bump_time. now rewrite H. Qed.

Lemma bump_time_floor s b :
  enabled s = true -> INT_MIN <= b < 0 -> total_minutes s < - b ->
  total_minutes (bump_time s b) = 0.
Proof.
  intros He Hb Hlt. unfold bump_time. rewrite He. cbn [negb].
  destruct (0 <? b) eqn:E1; [apply Z.ltb_lt in E1; lia |].
  destruct (b <? 0) eqn:E2; [| apply Z.ltb_ge in E2; lia].
  rewrite abs_bump_value by lia.
  destruct (total_minutes s <? - b) eqn:E3; [reflexivity |].
  apply Z.ltb_ge in E3. lia.
Qed.

Lemma bump_time_exact s b :
  enabled s = true -> rtc_wf s -> INT_MIN <= b <= INT_MAX ->
  0 <= total_minutes s + b < 2 ^ 32 ->
  total_minutes (bump_time s b) = total_minutes s + b.
Proof.
  unfold rtc_wf, INT_MIN, INT_MAX. intros He Hwf Hb Hr.
  unfold bump_time. rewrite He. cbn [negb].
  destruct (0 <? b) eqn:E1.
  - apply Z.ltb_lt in E1. cbn.
    rewrite (u32_small b) by lia. apply u32_small. lia.
  - apply Z.ltb_ge in E1.
    destruct (b <? 0) eqn:E2.
    + apply Z.ltb_lt in E2.
      rewrite abs_bump_value by (unfold INT_MIN; lia).
      destruct (total_minutes s <? - b) eqn:E3.
      * apply Z.ltb_lt in E3. lia.
      * cbn. rewrite u32_small by lia. lia.
    + apply Z.ltb_ge in E2. cbn. lia.
Qed.

(** One theorem for the clock: what [bump_time] does to [total_minutes]. *)

(** C9 (as amended): when the clock is enabled, a negative bump whose
    magnitude exceeds [total_minutes] leaves exactly 0, and every other
    bump for which [total_minutes + bump_minutes] still fits in 32 bits
    changes [total_minutes] by exactly [bump_minutes]; when the clock is
    disabled, [bump_time] changes nothing. *)
Theorem bump_time_saturates_at_zero (s : fake_rtc_state_type) (b : Z) :
  rtc_wf s -> INT_MIN <= b <= INT_MAX ->
  (enabled s = false -> bump_time s b = s) /\
  (enabled s = true -> b < 0 -> total_minutes s < - b ->
   total_minutes (bump_time s b) = 0) /\
  (enabled s = true -> 0 <= total_minutes s + b < 2 ^ 32 ->
   total_minutes (bump_time s b) = total_minutes s + b).
Proof.
  intros Hwf Hb. split; [| split].
  - apply bump_time_disabled.
  - intros He Hneg Hlt. apply bump_time_floor; trivial. lia.
  - intros He Hr. now apply bump_time_exact.
Qed.

Lemma bump_time_saturates_at_zero_witness :
  total_minutes (bump_time (rtc_sample 5 true) (-10)) = 0 /\
  total_minutes (bump_time (rtc_sample 100 true) (-10)) = 90 /\
  bump_time (rtc_sample 5 false) (-10) = rtc_sample 5 false.
Proof.
  assert (Hwf5 : rtc_wf (rtc_sample 5 true)) by (unfold rtc_wf; simpl; lia).
  assert (Hwf100 : rtc_wf (rtc_sample 100 true)) by (unfold rtc_wf; simpl; lia).
  assert (Hwf5' : rtc_wf (rtc_sample 5 false)) by (unfold rtc_wf; simpl; lia).
  assert (Hb : INT_MIN <= -10 <= INT_MAX) by (unfold INT_MIN, INT_MAX; lia).
  split; [| split].
  - apply (proj1 (proj2 (bump_time_saturates_at_zero _ (-10) Hwf5 Hb)));
      simpl; [reflexivity | lia | lia].
  - apply (proj2 (proj2 (bump_time_saturates_at_zero _ (-10) Hwf100 Hb)));
      simpl; [reflexivity | lia].
  - apply (proj1 (bump_time_saturates_at_zero _ (-10) Hwf5' Hb)). reflexivity.
Defined.

(** C9 as stated fails twice: a disabled clock ignores a negative bump
    larger than its counter (the counter stays 5, it does not become 0),
    and a positive bump past 2^32 - 1 wraps (4294967295 + 1 gives 0). *)
Lemma bump_time_claim_counterexample :
  total_minutes (bump_time (rtc_sample 5 false) (-10)) = 5 /\
  total_minutes (bump_time (rtc_sample 4294967295 true) 1) = 0.
Proof. split; reflexivity. Qed.

End FakeRtcFacts.

(** ** Joypad handling and the speed controller: properties *)

Module InputFacts.
Import Mach MachFacts Input.

(** *** Facts about the speed controller *)

Lemma select_a_chord_spec sel a sp :
  let sp' := fst (select_a_chord sel a sp) in
  sf2000_fastforward_state sp' =
    (if (sel && a) && negb (sf2000_select_a_prev sp)
     then u32 (sf2000_fastforward_state sp + 1) mod 3
     else sf2000_fastforward_state sp) /\
  sf2000_select_a_prev sp' = sel && a /\
  sf2000_select_b_prev sp' = sf2000_select_b_prev sp.
Proof.
  unfold select_a_chord.
  destruct ((sel && a) && negb (sf2000_select_a_prev sp)); cbn; auto.
Qed.

Lemma select_b_chord_spec sel b sp :
  let sp' := select_b_chord sel b sp in
  sf2000_fastforward_state sp' =
    (if (sel && b) && negb (sf2000_select_b_prev sp)
     then 0 else sf2000_fastforward_state sp) /\
  sf2000_select_a_prev sp' = sf2000_select_a_prev sp /\
  sf2000_select_b_prev sp' = sel && b.
Proof.
  unfold select_b_chord.
  destruct ((sel && b) && negb (sf2000_select_b_prev sp)); cbn; auto.
Qed.

Lemma sf2000_chords_spec sel a b sp :
  let sp' := fst (sf2000_chords sel a b sp) in
  sf2000_fastforward_state sp' =
    (if (sel && b) && negb (sf2000_select_b_prev sp) then 0
     else if (sel && a) && negb (sf2000_select_a_prev sp)
          then u32 (sf2000_fastforward_state sp + 1) mod 3
          else sf2000_fastforward_state sp) /\
  sf2000_select_a_prev sp' = sel && a /\
  sf2000_select_b_prev sp' = sel && b.
Proof.
  unfold sf2000_chords.
  pose proof (select_a_chord_spec sel a sp) as Ha.
  destruct (select_a_chord sel a sp) as [sp1 evs]. cbn [fst] in Ha |- *.
  destruct Ha as (Hff & Hap & Hbp).
  pose proof (select_b_chord_spec sel b sp1) as Hb. cbv zeta in Hb.
  destruct Hb as (Hff' & Hap' & Hbp').
  rewrite Hff', Hap', Hbp', Hbp, Hff, Hap. auto.
Qed.

Lemma update_input_state_speed k cb cfg sp pd :
  fst (fst (update_input_state k cb cfg sp pd)) =
  fst (sf2000_chords (pressed k cfg cb (JOYPAD_SELECT k))
         (pressed k cfg cb (JOYPAD_A k)) (pressed k cfg cb (JOYPAD_B k)) sp).
Proof.
  unfold update_input_state.
  destruct (sf2000_chords _ _ _ sp) as [sp' evs].
  destruct (turbo_button _ _ _ _ _ _) as [r1 ta].
  destruct (turbo_button _ _ _ _ _ r1) as [r2 tb].
  destruct (palette_switch _ _ _ _) as [pc evp]. reflexivity.
Qed.

(** One pass: the fast-forward state after [update_input_state]. *)
Lemma update_input_state_ff k cb cfg sp pd :
  let sp' := fst (fst (update_input_state k cb cfg sp pd)) in
  sf2000_fastforward_state sp' =
    (if chord_b k cfg cb && negb (sf2000_select_b_prev sp) then 0
     else if chord_a k cfg cb && negb (sf2000_select_a_prev sp)
          then u32 (sf2000_fastforward_state sp + 1) mod 3
          else sf2000_fastforward_state sp) /\
  sf2000_select_a_prev sp' = chord_a k cfg cb /\
  sf2000_select_b_prev sp' = chord_b k cfg cb.
Proof.
  cbv zeta. rewrite update_input_state_speed. apply sf2000_chords_spec.
Qed.

Lemma ff_step_mod3 ff : 0 <= ff < 3 -> u32 (ff + 1) mod 3 = (ff + 1) mod 3.
Proof. intros H. rewrite u32_small; [reflexivity | lia]. Qed.

Lemma run_inputs_ff k ticks : forall sp pd,
  0 <= sf2000_fastforward_state sp < 3 ->
  no_b_edge k (sf2000_select_b_prev sp) ticks = true ->
  sf2000_fastforward_state (fst (run_inputs k ticks sp pd)) =
  (sf2000_fastforward_state sp
   + Z.of_nat (a_edges k (sf2000_select_a_prev sp) ticks)) mod 3.
Proof.
  induction ticks as [| [cfg cb] rest IH]; intros sp pd Hff Hnb.
  - cbn. rewrite Z.add_0_r. symmetry. apply Z.mod_small. lia.
  - cbn [run_inputs a_edges no_b_edge] in *.
    apply andb_true_iff in Hnb. destruct Hnb as [Hb Hrest].
    apply negb_true_iff in Hb.
    pose proof (update_input_state_ff k cb cfg sp pd) as Hstep.
    destruct (update_input_state k cb cfg sp pd) as [[sp' pd'] evs].
    cbn in Hstep. destruct Hstep as (Hff' & Hap & Hbp).
    rewrite Hb in Hff'.
    assert (Hrange : 0 <= sf2000_fastforward_state sp' < 3).
    { rewrite Hff'. destruct (chord_a k cfg cb && negb _); [| lia].
      rewrite ff_step_mod3 by lia. apply Z.mod_pos_bound. lia. }
    rewrite IH; [| assumption | rewrite Hbp; assumption].
    rewrite Hap, Hff'.
    destruct (chord_a k cfg cb && negb (sf2000_select_a_prev sp)).
    + rewrite ff_step_mod3 by lia.
      rewrite Nat2Z.inj_add. change (Z.of_nat 1) with 1.
      rewrite Zplus_mod_idemp_l. f_equal. lia.
    + rewrite Nat2Z.inj_add. change (Z.of_nat 0) with 0. f_equal.
Qed.

(** *** Facts about the direction filter *)

Lemma has_false res m : has res m = false <-> Z.land res (u32 m) = 0.
Proof.
  unfold has. rewrite negb_false_iff. apply Z.eqb_eq.
Qed.

Lemma land_lnot_lor_l x y : Z.land (Z.lnot (Z.lor x y)) x = 0.
Proof.
  apply Z.bits_inj'. intros n Hn.
  rewrite Z.land_spec, Z.lnot_spec, Z.lor_spec, Z.bits_0 by assumption.
  destruct (Z.testbit x n), (Z.testbit y n); reflexivity.
Qed.

Lemma land_lnot_lor_r x y : Z.land (Z.lnot (Z.lor x y)) y = 0.
Proof. rewrite Z.lor_comm. apply land_lnot_lor_l. Qed.

Lemma u32_land_ones x : u32 x = Z.land x (Z.ones 32).
Proof. unfold u32. symmetry. apply Z.land_ones. lia. Qed.

(** After [res &= ~(x | y)] neither mask is left in [res]. *)
Lemma land_cleared res x y m :
  Z.land (Z.lnot (Z.lor x y)) m = 0 ->
  Z.land (Z.land res (u32 (Z.lnot (Z.lor x y)))) (u32 m) = 0.
Proof.
  intros H. rewrite !u32_land_ones.
  rewrite <- Z.land_assoc.
  replace (Z.land (Z.land (Z.lnot (Z.lor x y)) (Z.ones 32))
             (Z.land m (Z.ones 32)))
    with (Z.land (Z.land (Z.lnot (Z.lor x y)) m) (Z.ones 32)).
  - rewrite H. cbn. apply Z.land_0_r.
  - apply Z.bits_inj'. intros n Hn. rewrite !Z.land_spec.
    destruct (Z.testbit (Z.lnot (Z.lor x y)) n), (Z.testbit m n),
      (Z.testbit (Z.ones 32) n); reflexivity.
Qed.

(** Masking never sets a bit. *)
Lemma land_keeps_zero res c m :
  Z.land res m = 0 -> Z.land (Z.land res c) m = 0.
Proof.
  intros H. rewrite <- Z.land_assoc, (Z.land_comm c m), Z.land_assoc, H.
  apply Z.land_0_l.
Qed.

Lemma clear_pair_keeps_zero x y res m :
  has res m = false -> has (clear_pair x y res) m = false.
Proof.
  rewrite !has_false. intros H. unfold clear_pair.
  destruct (negb (Z.land res (u32 x) =? 0)); [| assumption].
  destruct (negb (Z.land res (u32 y) =? 0)); [| assumption].
  now apply land_keeps_zero.
Qed.

Lemma clear_pair_spec x y res :
  has (clear_pair x y res) x && has (clear_pair x y res) y = false.
Proof.
  unfold clear_pair.
  destruct (negb (Z.land res (u32 x) =? 0)) eqn:Ex.
  - destruct (negb (Z.land res (u32 y) =? 0)) eqn:Ey.
    + apply andb_false_iff. left. apply has_false.
      apply land_cleared, land_lnot_lor_l.
    + apply andb_false_iff. right. exact Ey.
  - apply andb_false_iff. left. exact Ex.
Qed.

Lemma has_lor_disjoint res a m :
  0 <= a < 2 ^ 31 -> 0 <= m < 2 ^ 31 -> Z.land a m = 0 ->
  forall c : bool, has (Z.lor res (u32 (if c then a else 0))) m = has res m.
Proof.
  intros Ha Hm Hdis c. unfold has. f_equal. f_equal.
  rewrite Z.land_lor_distr_l.
  replace (Z.land (u32 (if c then a else 0)) (u32 m)) with 0.
  - apply Z.lor_0_r.
  - destruct c.
    + rewrite !u32_small by lia. now rewrite Hdis.
    + reflexivity.
Qed.

Lemma turbo_button_has held counter period width gb res m :
  0 <= gb < 2 ^ 31 -> 0 <= m < 2 ^ 31 -> Z.land gb m = 0 ->
  has (fst (turbo_button held counter period width gb res)) m = has res m.
Proof.
  intros Hg Hm Hdis. unfold turbo_button. destruct held; cbn [fst].
  - now apply has_lor_disjoint.
  - reflexivity.
Qed.

Lemma update_input_state_res k cb cfg sp pd :
  libretro_input_state (snd (fst (update_input_state k cb cfg sp pd))) =
  let res := read_buttons k (pressed k cfg cb) in
  let res := if negb (up_down_allowed cfg) then clear_opposites k res
             else res in
  let res := fst (turbo_button (pressed k cfg cb (JOYPAD_X k))
                    (turbo_a_counter pd) (turbo_period cfg)
                    (turbo_pulse_width cfg) (IG_A k) res) in
  fst (turbo_button (pressed k cfg cb (JOYPAD_Y k))
         (turbo_b_counter pd) (turbo_period cfg)
         (turbo_pulse_width cfg) (IG_B k) res).
Proof.
  unfold update_input_state. cbv zeta.
  destruct (sf2000_chords _ _ _ sp) as [sp' evs].
  destruct (turbo_button _ _ _ _ (IG_A k) _) as [r1 ta]. cbn [fst].
  destruct (turbo_button _ _ _ _ (IG_B k) r1) as [r2 tb].
  destruct (palette_switch _ _ _ _) as [pc evp]. reflexivity.
Qed.

(** C10: with [up_down_allowed] off, the joypad word handed to the core
    never holds UP together with DOWN, nor LEFT together with RIGHT. *)
Theorem opposing_directions_never_both (k : abi) (cb : Z -> Z)
  (cfg : pad_config) (sp : speed) (pd : pad) :
  abi_wf k -> up_down_allowed cfg = false ->
  let res :=
    libretro_input_state (snd (fst (update_input_state k cb cfg sp pd))) in
  has res (IG_UP k) && has res (IG_DOWN k) = false /\
  has res (IG_LEFT k) && has res (IG_RIGHT k) = false.
Proof.
  intros [Hr Hd] Hud. cbv zeta. rewrite update_input_state_res. cbv zeta.
  rewrite Hud. cbn [negb].
  repeat match goal with H : Forall _ (_ :: _) |- _ => inversion_clear H end.
  repeat match goal with
         | H : Z.land _ _ = 0 /\ _ |- _ => destruct H
         end.
  rewrite !turbo_button_has by assumption.
  unfold clear_opposites. split.
  - set (r := clear_pair (IG_UP k) (IG_DOWN k) _).
    pose proof (clear_pair_spec (IG_UP k) (IG_DOWN k)
                  (read_buttons k (pressed k cfg cb))) as Hs.
    fold r in Hs. apply andb_false_iff in Hs. apply andb_false_iff.
    destruct Hs as [Hs | Hs]; [left | right];
      now apply clear_pair_keeps_zero.
  - apply clear_pair_spec.
Qed.

Lemma libretro_abi_wf : abi_wf libretro_abi.
Proof.
  split; repeat constructor; cbn; try lia; reflexivity.
Qed.

Lemma opposing_directions_never_both_witness :
  let res :=
    libretro_input_state
      (snd (fst (update_input_state libretro_abi all_held
                   (pad_config_default true) speed_init pad_init))) in
  has res 0x40 && has res 0x80 = false /\
  has res 0x20 && has res 0x10 = false.
Proof.
  exact (opposing_directions_never_both libretro_abi all_held
           (pad_config_default true) speed_init pad_init
           libretro_abi_wf eq_refl).
Defined.

(** C6 (as amended): starting from normal speed, over any run of passes
    in which the SELECT+B chord has no rising edge, the fast-forward
    state is the number of rising edges of the SELECT+A chord modulo 3:
    each edge moves one step along 0 -> 1 -> 2 -> 0, three edges return
    to normal speed, and a pass without a new edge (chord held or
    released) leaves the state where it is. *)
Theorem fastforward_state_counts_chord_edges (k : abi)
  (ticks : list (pad_config * (Z -> Z))) (sp : speed) (pd : pad) :
  sf2000_fastforward_state sp = 0 ->
  no_b_edge k (sf2000_select_b_prev sp) ticks = true ->
  sf2000_fastforward_state (fst (run_inputs k ticks sp pd)) =
  Z.of_nat (a_edges k (sf2000_select_a_prev sp) ticks) mod 3.
Proof.
  intros H0 Hnb. rewrite run_inputs_ff by (rewrite ?H0; auto; lia).
  now rewrite H0.
Qed.

Lemma fastforward_state_counts_chord_edges_witness :
  sf2000_fastforward_state
    (fst (run_inputs libretro_abi (take 2 three_presses) speed_init pad_init))
  = 1 /\
  sf2000_fastforward_state
    (fst (run_inputs libretro_abi (take 5 three_presses) speed_init pad_init))
  = 2 /\
  sf2000_fastforward_state
    (fst (run_inputs libretro_abi three_presses speed_init pad_init)) = 0.
Proof.
  split; [| split].
  - exact (fastforward_state_counts_chord_edges libretro_abi
             (take 2 three_presses) speed_init pad_init eq_refl eq_refl).
  - exact (fastforward_state_counts_chord_edges libretro_abi
             (take 5 three_presses) speed_init pad_init eq_refl eq_refl).
  - exact (fastforward_state_counts_chord_edges libretro_abi
             three_presses speed_init pad_init eq_refl eq_refl).
Defined.

(** C6 as stated fails when the SELECT+B chord rises too.  Pressing
    SELECT, A and B together from normal speed is a rising edge of
    SELECT+A, yet the state ends at 0, not 1 (the SELECT+B block resets
    it); and while SELECT+A stays held in state 1, adding B moves the
    state back to 0 without any new SELECT+A edge. *)
Lemma chord_edge_counterexample :
  (chord_a libretro_abi (pad_config_default false) held_select_a_b = true /\
   sf2000_select_a_prev speed_init = false /\
   sf2000_fastforward_state
     (fst (run_inputs libretro_abi [tick_of held_select_a_b]
             speed_init pad_init)) = 0) /\
  (sf2000_fastforward_state
     (fst (run_inputs libretro_abi [tick_of held_select_a]
             speed_init pad_init)) = 1 /\
   sf2000_fastforward_state
     (fst (run_inputs libretro_abi
             [tick_of held_select_a; tick_of held_select_a_b]
             speed_init pad_init)) = 0).
Proof. repeat split. Qed.

End InputFacts.

(** ** The audio output buffer: properties *)

Module AudioFacts.
Import Mach MachFacts Audio.

(** *** Facts about the buffer *)

Ltac zdiv := Z.to_euclidean_division_equations; lia.

Section BufferFacts.
Variable SIZE_MOD : Z.
Variable uninit : Z.
Hypothesis size_t_wide : 2 ^ 32 <= SIZE_MOD.

Variable Host : Type.
Variable audio_batch_cb : Host -> list Z -> Z -> Z * Host.

Lemma sz_small x : 0 <= x < SIZE_MOD -> sz SIZE_MOD x = x.
Proof. intros H. unfold sz. now apply Z.mod_small. Qed.

Lemma sz_range x : 0 <= sz SIZE_MOD x < SIZE_MOD.
Proof. unfold sz. apply Z.mod_pos_bound. lia. Qed.

Lemma shiftl_1 x : Z.shiftl x 1 = 2 * x.
Proof. rewrite Z.shiftl_mul_pow2 by lia. change (2 ^ 1) with 2. lia. Qed.

Lemma shiftr_1 x : Z.shiftr x 1 = x / 2.
Proof. rewrite Z.shiftr_div_pow2 by lia. reflexivity. Qed.

Lemma cells_of_small n :
  0 <= n -> 2 * n < SIZE_MOD -> cells_of SIZE_MOD n = Z.to_nat n.
Proof.
  intros H0 H1. unfold cells_of. rewrite sz_small by lia.
  now rewrite Z.div_mul by lia.
Qed.

Lemma buffer_capacity_eq st :
  audio_wf SIZE_MOD st ->
  buffer_capacity SIZE_MOD st =
  (audio_out_buffer_size st - audio_out_buffer_pos st) / 2.
Proof.
  intros (_ & Hpos & Hsz). unfold buffer_capacity.
  rewrite shiftr_1, sz_small by lia. reflexivity.
Qed.

(** The size computed when the buffer has to grow. *)
Lemma grown_size st n :
  audio_wf SIZE_MOD st -> 0 <= n ->
  3 * audio_out_buffer_pos st + 6 * n + 4 < SIZE_MOD ->
  buffer_capacity SIZE_MOD st < n ->
  let c := buffer_capacity SIZE_MOD st in
  let t := audio_out_buffer_size st + 2 * (n - c) in
  sz SIZE_MOD
    (sz SIZE_MOD
       (Z.shiftl
          (sz SIZE_MOD
             (audio_out_buffer_size st
              + sz SIZE_MOD (Z.shiftl (sz SIZE_MOD (n - c)) 1))) 1)
     - Z.shiftr
         (sz SIZE_MOD
            (audio_out_buffer_size st
             + sz SIZE_MOD (Z.shiftl (sz SIZE_MOD (n - c)) 1))) 1)
  = 2 * t - t / 2 /\
  audio_out_buffer_pos st + 2 * n <= t <= audio_out_buffer_pos st + 2 * n + 1.
Proof.
  intros Hwf Hn Hb Hlt. pose proof (buffer_capacity_eq st Hwf) as Hc.
  destruct Hwf as (_ & Hpos & Hsz). cbv zeta.
  set (c := buffer_capacity SIZE_MOD st) in *.
  assert (Hc2 : audio_out_buffer_size st - audio_out_buffer_pos st - 1
                <= 2 * c <= audio_out_buffer_size st - audio_out_buffer_pos st)
    by (rewrite Hc; zdiv).
  rewrite (sz_small (n - c)) by lia.
  rewrite (shiftl_1 (n - c)), (sz_small (2 * (n - c))) by lia.
  rewrite (sz_small (audio_out_buffer_size st + 2 * (n - c))) by lia.
  rewrite shiftl_1, shiftr_1.
  rewrite (sz_small (2 * _)) by lia.
  rewrite sz_small by zdiv.
  split; [reflexivity | lia].
Qed.

Lemma resize_spec st n :
  audio_wf SIZE_MOD st -> 0 <= n ->
  3 * audio_out_buffer_pos st + 6 * n + 4 < SIZE_MOD ->
  let st1 := audio_out_buffer_resize SIZE_MOD uninit st n in
  audio_wf SIZE_MOD st1 /\
  audio_out_buffer_pos st1 = audio_out_buffer_pos st /\
  audio_batch_frames_max st1 = audio_batch_frames_max st /\
  pending st1 = pending st /\
  audio_out_buffer_pos st + 2 * n <= audio_out_buffer_size st1 /\
  (buffer_capacity SIZE_MOD st < n ->
   2 * (n - buffer_capacity SIZE_MOD st)
   < audio_out_buffer_size st1 - audio_out_buffer_size st).
Proof.
  intros Hwf Hn Hb. cbv zeta. unfold audio_out_buffer_resize.
  destruct (Z.ltb_spec (buffer_capacity SIZE_MOD st) n) as [Hlt | Hge].
  - destruct (grown_size st n Hwf Hn Hb Hlt) as [Et Ht]. cbv zeta in Et, Ht.
    rewrite Et. clear Et.
    pose proof (buffer_capacity_eq st Hwf) as Hc.
    destruct Hwf as (Hlen & Hpos & Hsz).
    set (c := buffer_capacity SIZE_MOD st) in *.
    set (t := audio_out_buffer_size st + 2 * (n - c)) in *.
    assert (Ht2 : t <= 2 * t - t / 2 /\ 2 * (2 * t - t / 2) <= 3 * t + 1)
      by zdiv.
    assert (Hcells : cells_of SIZE_MOD (audio_out_buffer_pos st)
                     = Z.to_nat (audio_out_buffer_pos st))
      by (apply cells_of_small; lia).
    assert (Hmal : cells_of SIZE_MOD (2 * t - t / 2)
                   = Z.to_nat (2 * t - t / 2))
      by (apply cells_of_small; lia).
    assert (Htake : length (take (Z.to_nat (audio_out_buffer_pos st))
                              (audio_out_buffer st))
                    = Z.to_nat (audio_out_buffer_pos st))
      by (apply length_take_le; lia).
    unfold pending, audio_wf, memcpy, malloc_i16; cbn.
    rewrite Hcells, Hmal, take_0. cbn [app].
    repeat split; try lia.
    + rewrite length_app, Htake, length_drop, length_replicate. lia.
    + now rewrite take_app_length' by (symmetry; exact Htake).
    + assert (Hgrow : 1 <= t - t / 2) by zdiv. lia.
  - destruct Hwf as (Hlen & Hpos & Hsz).
    repeat split; try assumption; try lia.
    pose proof (buffer_capacity_eq st (conj Hlen (conj Hpos Hsz))) as Hc.
    rewrite Hc in Hge. zdiv.
Qed.

Lemma write_spec st samples n :
  audio_wf SIZE_MOD st -> write_ok (samples, n) ->
  3 * audio_out_buffer_pos st + 6 * n + 4 < SIZE_MOD ->
  let st' := audio_out_buffer_write SIZE_MOD uninit st samples n in
  audio_wf SIZE_MOD st' /\
  audio_out_buffer_pos st' = audio_out_buffer_pos st + 2 * n /\
  audio_batch_frames_max st' = audio_batch_frames_max st /\
  pending st' = pending st ++ samples.
Proof.
  intros Hwf [Hn Hlen] Hb. cbn [fst snd] in Hn, Hlen. cbv zeta.
  destruct (resize_spec st n Hwf Hn Hb) as (Hwf1 & Hp1 & Hm1 & Hpe1 & Hcap & _).
  unfold audio_out_buffer_write.
  set (st1 := audio_out_buffer_resize SIZE_MOD uninit st n) in *.
  destruct Hwf1 as (Hlen1 & Hpos1 & Hsz1).
  rewrite shiftl_1, (sz_small (2 * n)) by lia.
  rewrite cells_of_small by lia.
  rewrite sz_small by lia.
  assert (Htake : length (take (Z.to_nat (audio_out_buffer_pos st1))
                            (audio_out_buffer st1))
                  = Z.to_nat (audio_out_buffer_pos st1))
    by (apply length_take_le; lia).
  unfold audio_wf, pending, memcpy; cbn.
  rewrite (take_ge samples) by lia.
  repeat split; try lia.
  - rewrite !length_app, Htake, length_drop. lia.
  - rewrite Z2Nat.inj_add by lia.
    rewrite <- Htake at 1. rewrite take_app_add.
    rewrite take_app_length' by (rewrite Hlen; lia).
    unfold pending in Hpe1. now rewrite Hpe1.
Qed.

Lemma write_all_spec ws : forall st,
  audio_wf SIZE_MOD st -> Forall write_ok ws ->
  3 * (audio_out_buffer_pos st + Z.of_nat (length (written ws))) + 4
    < SIZE_MOD ->
  let st' := write_all SIZE_MOD uninit st ws in
  audio_wf SIZE_MOD st' /\
  audio_out_buffer_pos st'
    = audio_out_buffer_pos st + Z.of_nat (length (written ws)) /\
  audio_batch_frames_max st' = audio_batch_frames_max st /\
  pending st' = pending st ++ written ws.
Proof.
  induction ws as [| [samples n] ws IH]; intros st Hwf Hok Hb; cbv zeta.
  - cbn. rewrite app_nil_r, Z.add_0_r. auto.
  - inversion_clear Hok as [| ? ? Hw Hws].
    pose proof Hw as [Hn Hlen]. cbn [fst snd] in Hn, Hlen.
    unfold written in *. cbn [map concat fst] in *.
    rewrite length_app in *.
    assert (Hb1 : 3 * audio_out_buffer_pos st + 6 * n + 4 < SIZE_MOD)
      by lia.
    destruct (write_spec st samples n Hwf Hw Hb1) as (Hwf1 & Hp1 & Hm1 & Hpe1).
    unfold write_all. cbn [fold_left fst snd].
    set (st1 := audio_out_buffer_write SIZE_MOD uninit st samples n) in *.
    specialize (IH st1 Hwf1 Hws). cbv zeta in IH. unfold write_all in IH.
    destruct IH as (Hwf2 & Hp2 & Hm2 & Hpe2); [lia |].
    repeat split; try apply Hwf2.
    + rewrite Hp2, Hp1. lia.
    + congruence.
    + rewrite Hpe2, Hpe1. now rewrite app_assoc.
Qed.

(** Growth on a write that does not fit exceeds the deficit. *)
Lemma write_grows_past_deficit st samples n :
  audio_wf SIZE_MOD st -> 0 <= n ->
  3 * audio_out_buffer_pos st + 6 * n + 4 < SIZE_MOD ->
  buffer_capacity SIZE_MOD st < n ->
  2 * (n - buffer_capacity SIZE_MOD st)
  < audio_out_buffer_size (audio_out_buffer_write SIZE_MOD uninit st samples n)
    - audio_out_buffer_size st.
Proof.
  intros Hwf Hn Hb Hlt.
  destruct (resize_spec st n Hwf Hn Hb) as (_ & _ & _ & _ & _ & Hg).
  exact (Hg Hlt).
Qed.

Lemma written_app ws1 ws2 : written (ws1 ++ ws2) = written ws1 ++ written ws2.
Proof. unfold written. now rewrite map_app, concat_app. Qed.

Lemma next_ceiling_bounds m n w :
  0 < m -> 0 < n <= m ->
  let m' := if (w <? n) && (0 <? w) then w else m in 0 < m' <= m.
Proof.
  intros Hm Hn. cbv zeta.
  destruct (Z.ltb_spec w n), (Z.ltb_spec 0 w); cbn; lia.
Qed.

Lemma within_ceiling_bounds evs : forall m,
  0 < m -> within_ceiling m evs ->
  batches_within m evs /\ 0 < ceiling_after m evs <= m.
Proof.
  induction evs as [| e evs IH]; intros m Hm Hw.
  - split; [constructor | cbn; lia].
  - destruct e as [| d n w | | |]; cbn in Hw; try contradiction.
    destruct Hw as [Hn Hrest].
    pose proof (next_ceiling_bounds m n w Hm Hn) as Hm'. cbv zeta in Hm'.
    destruct (IH _ (proj1 Hm') Hrest) as [Hb Hc].
    split.
    + constructor; [exact Hn |].
      eapply Forall_impl; [exact Hb |].
      intros [| ? n' ? | | |]; cbn; try tauto. lia.
    + cbn. lia.
Qed.

Lemma within_ceiling_split pre : forall m d n w post,
  0 < m -> within_ceiling m (pre ++ EvAudioBatch d n w :: post) ->
  0 < w < n ->
  within_ceiling w post /\ ceiling_after m (pre ++ EvAudioBatch d n w :: post)
                           = ceiling_after w post.
Proof.
  induction pre as [| e pre IH]; intros m d n w post Hm Hw Hwn.
  - cbn in Hw |- *. destruct Hw as [_ Hrest].
    destruct (Z.ltb_spec w n), (Z.ltb_spec 0 w); try lia. cbn in *. auto.
  - destruct e as [| d' n' w' | | |]; cbn in Hw; try contradiction.
    destruct Hw as [Hn' Hrest]. cbn [app ceiling_after].
    pose proof (next_ceiling_bounds m n' w' Hm Hn') as Hm'. cbv zeta in Hm'.
    exact (IH _ d n w post (proj1 Hm') Hrest Hwn).
Qed.

Lemma upload_loop_spec fuel : forall h buf ptr num m,
  0 < m -> 0 <= num -> 2 * num < SIZE_MOD -> 0 <= ptr ->
  (Z.to_nat num <= fuel)%nat ->
  exists h' m' evs,
    upload_loop SIZE_MOD Host audio_batch_cb fuel h buf ptr num m
      = Some (h', m', evs) /\
    within_ceiling m evs /\ m' = ceiling_after m evs /\
    offered evs = take (Z.to_nat (2 * num)) (drop (Z.to_nat ptr) buf).
Proof.
  induction fuel as [| fuel IH]; intros h buf ptr num m Hm Hnum Hsz Hptr Hf.
  - assert (num = 0) by lia. subst num. exists h, m, []. cbn. auto.
  - cbn [upload_loop]. destruct (Z.ltb_spec 0 num) as [Hpos | Hz].
    2:{ assert (num = 0) by lia. subst num. exists h, m, []. cbn. auto. }
    set (tw := if m <? num then m else num).
    assert (Htw : 0 < tw <= num /\ tw <= m)
      by (subst tw; destruct (Z.ltb_spec m num); lia).
    destruct (audio_batch_cb h _ tw) as [ret h1] eqn:Ecb.
    set (w := sz SIZE_MOD ret).
    set (m1 := if (w <? tw) && (0 <? w) then w else m).
    pose proof (next_ceiling_bounds m tw w Hm (conj (proj1 (proj1 Htw))
                                               (proj2 Htw))) as Hm1.
    cbv zeta in Hm1. fold m1 in Hm1.
    rewrite shiftl_1, (sz_small (2 * tw)), (sz_small (num - tw)) by lia.
    destruct (IH h1 buf (ptr + 2 * tw) (num - tw) m1) as
      (h' & m' & evs & Eloop & Hwc & Hm' & Hoff); try lia.
    rewrite Eloop. exists h', m', (EvAudioBatch
      (take (Z.to_nat (2 * tw)) (drop (Z.to_nat ptr) buf)) tw w :: evs).
    split; [reflexivity |]. cbn [within_ceiling ceiling_after offered].
    fold m1. repeat split; try lia; try assumption.
    rewrite Hoff.
    replace (Z.to_nat (ptr + 2 * tw))
      with (Z.to_nat ptr + Z.to_nat (2 * tw))%nat by lia.
    rewrite <- drop_drop, take_take_drop. f_equal. lia.
Qed.

Lemma audio_upload_samples_spec st h ff slowmo ffa :
  0 <= audio_out_buffer_pos st < SIZE_MOD ->
  0 < audio_batch_frames_max st ->
  ((0 <? ff) || (0 <? slowmo)) && negb ffa = false ->
  exists st' h' evs,
    audio_upload_samples SIZE_MOD Host audio_batch_cb ff slowmo ffa st h
      = Some (st', h', evs) /\
    audio_out_buffer_pos st' = 0 /\
    audio_out_buffer st' = audio_out_buffer st /\
    audio_out_buffer_size st' = audio_out_buffer_size st /\
    within_ceiling (audio_batch_frames_max st) evs /\
    audio_batch_frames_max st'
      = ceiling_after (audio_batch_frames_max st) evs /\
    offered evs
      = take (Z.to_nat (2 * (audio_out_buffer_pos st / 2)))
          (audio_out_buffer st).
Proof.
  intros Hpos Hmax Hgate. unfold audio_upload_samples. rewrite Hgate.
  rewrite shiftr_1.
  destruct (upload_loop_spec (Z.to_nat (audio_out_buffer_pos st / 2)) h
              (audio_out_buffer st) 0 (audio_out_buffer_pos st / 2)
              (audio_batch_frames_max st))
    as (h' & m' & evs & Eloop & Hwc & Hm' & Hoff);
    try assumption; try zdiv; try lia.
  rewrite Eloop. cbn in Hoff. rewrite drop_0 in Hoff.
  eexists _, h', evs. split; [reflexivity |]. cbn. auto 10.
Qed.

Lemma resize_keeps_ceiling st n :
  audio_batch_frames_max (audio_out_buffer_resize SIZE_MOD uninit st n)
  = audio_batch_frames_max st.
Proof.
  unfold audio_out_buffer_resize.
  destruct (buffer_capacity SIZE_MOD st <? n); reflexivity.
Qed.

Lemma default_ceiling_positive : 0 < sz SIZE_MOD (Z.shiftl 1 16).
Proof.
  change (Z.shiftl 1 16) with 65536. rewrite sz_small; lia.
Qed.

Lemma audio_reach_invariant st :
  audio_reach SIZE_MOD uninit Host audio_batch_cb st ->
  0 < audio_batch_frames_max st /\ 0 <= audio_out_buffer_pos st < SIZE_MOD.
Proof.
  induction 1 as [| st spf _ _ | st _ _ | st samples n _ IH
                 | st stereo n _ IH | st ff slowmo ffa h st' h' evs _ IH E].
  - cbn. split; [apply default_ceiling_positive | lia].
  - cbn. split; [apply default_ceiling_positive | lia].
  - cbn. split; [apply default_ceiling_positive | lia].
  - cbn. rewrite resize_keeps_ceiling. split; [apply IH | apply sz_range].
  - cbn. rewrite resize_keeps_ceiling. split; [apply IH | apply sz_range].
  - destruct IH as [Hm Hp].
    destruct (((0 <? ff) || (0 <? slowmo)) && negb ffa) eqn:Hgate.
    + unfold audio_upload_samples in E. rewrite Hgate in E.
      inversion E; subst. cbn. split; [assumption | lia].
    + destruct (audio_upload_samples_spec st h ff slowmo ffa Hp Hm Hgate)
        as (st2 & h2 & evs2 & E2 & Hp2 & _ & _ & Hwc & Hm2 & _).
      rewrite E in E2. inversion E2; subst.
      destruct (within_ceiling_bounds _ _ Hm Hwc) as [_ Hc].
      split; lia.
Qed.

(** C8: the batch ceiling is strictly positive in every state the audio
    code can reach, and from every such state the upload loop ends,
    whatever the sink answers. *)
Theorem batch_ceiling_positive_and_drain_ends (st : audio_state) :
  audio_reach SIZE_MOD uninit Host audio_batch_cb st ->
  0 < audio_batch_frames_max st /\
  forall ff slowmo ffa h,
  exists r,
    audio_upload_samples SIZE_MOD Host audio_batch_cb ff slowmo ffa st h
      = Some r.
Proof.
  intros Hr. destruct (audio_reach_invariant st Hr) as [Hm Hp].
  split; [exact Hm |]. intros ff slowmo ffa h.
  destruct (((0 <? ff) || (0 <? slowmo)) && negb ffa) eqn:Hgate.
  - unfold audio_upload_samples. rewrite Hgate. eauto.
  - destruct (audio_upload_samples_spec st h ff slowmo ffa Hp Hm Hgate)
      as (st2 & h2 & evs2 & E2 & _). eauto.
Qed.

Lemma written_even ws :
  Forall write_ok ws ->
  exists k, 0 <= k /\ Z.of_nat (length (written ws)) = 2 * k.
Proof.
  induction 1 as [| [samples n] ws [Hn Hlen] _ (k & Hk & IH)].
  - exists 0. cbn. lia.
  - cbn [fst snd] in Hn, Hlen. exists (n + k). split; [lia |].
    unfold written in *. cbn [map concat fst]. rewrite length_app. lia.
Qed.

(** C5: a run of writes after a cursor reset leaves exactly the
    concatenation of the samples written in the buffer, within its
    capacity; a write that does not fit grows the buffer by more than
    the deficit; and an upload that is not muted offers the sink exactly
    that concatenation. *)
Theorem writes_survive_growth (st : audio_state) (ws : list (list Z * Z)) :
  audio_wf SIZE_MOD st -> audio_out_buffer_pos st = 0 ->
  Forall write_ok ws ->
  3 * Z.of_nat (length (written ws)) + 4 < SIZE_MOD ->
  let st' := write_all SIZE_MOD uninit st ws in
  pending st' = written ws /\
  audio_wf SIZE_MOD st' /\
  (forall ws1 samples n ws2, ws = ws1 ++ (samples, n) :: ws2 ->
     let s := write_all SIZE_MOD uninit st ws1 in
     buffer_capacity SIZE_MOD s < n ->
     2 * (n - buffer_capacity SIZE_MOD s)
     < audio_out_buffer_size
         (audio_out_buffer_write SIZE_MOD uninit s samples n)
       - audio_out_buffer_size s) /\
  (forall h ff slowmo ffa,
     0 < audio_batch_frames_max st ->
     ((0 <? ff) || (0 <? slowmo)) && negb ffa = false ->
     exists st'' h' evs,
       audio_upload_samples SIZE_MOD Host audio_batch_cb ff slowmo ffa st' h
         = Some (st'', h', evs) /\
       offered evs = written ws /\ audio_out_buffer_pos st'' = 0).
Proof.
  intros Hwf Hp0 Hok Hb. cbv zeta.
  destruct (write_all_spec ws st Hwf Hok) as (Hwf' & Hp' & Hm' & Hpe');
    [rewrite Hp0; lia |].
  assert (Hpend : pending (write_all SIZE_MOD uninit st ws) = written ws).
  { rewrite Hpe'. unfold pending. rewrite Hp0. reflexivity. }
  split; [exact Hpend |]. split; [exact Hwf' |]. split.
  - intros ws1 samples n ws2 -> Hlt.
    rewrite written_app in Hb. rewrite length_app in Hb.
    apply Forall_app in Hok. destruct Hok as [Hok1 Hok2].
    inversion_clear Hok2 as [| ? ? [Hn Hlen] _]. cbn [fst snd] in Hn, Hlen.
    destruct (write_all_spec ws1 st Hwf Hok1) as (Hwf1 & Hp1 & _);
      [rewrite Hp0; lia |].
    apply write_grows_past_deficit; try assumption.
    rewrite Hp1, Hp0. unfold written in Hb. cbn [map concat fst] in Hb.
    rewrite length_app in Hb. fold (written ws1) in Hb. lia.
  - intros h ff slowmo ffa Hmax Hgate.
    destruct (written_even ws Hok) as (k & Hk & Hev).
    rewrite Hp0 in Hp'. cbn in Hp'.
    destruct (audio_upload_samples_spec (write_all SIZE_MOD uninit st ws)
                h ff slowmo ffa) as
      (st2 & h2 & evs & E & Hp2 & _ & _ & _ & _ & Hoff);
      [lia | lia | assumption |].
    exists st2, h2, evs. split; [exact E |]. split; [| exact Hp2].
    rewrite Hoff, <- Hpend. unfold pending. f_equal.
    rewrite Hp', Hev. zdiv.
Qed.

(** C4 (as amended): an upload that is not muted ends, offers every
    pending cell to the sink exactly once and in order, each batch no
    larger than the ceiling; when the sink takes only [w] of the [n]
    pairs of a batch ([0 < w < n]), every later batch of the drain
    offers at most [w] pairs and the ceiling left for later drains is at
    most [w].  (The pairs of that batch the sink did not take are not
    offered again.) *)
Theorem upload_adapts_ceiling (st : audio_state) (h : Host)
  (ff slowmo : Z) (ffa : bool) :
  0 <= audio_out_buffer_pos st < SIZE_MOD ->
  Z.even (audio_out_buffer_pos st) = true ->
  0 < audio_batch_frames_max st ->
  ((0 <? ff) || (0 <? slowmo)) && negb ffa = false ->
  exists st' h' evs,
    audio_upload_samples SIZE_MOD Host audio_batch_cb ff slowmo ffa st h
      = Some (st', h', evs) /\
    audio_out_buffer_pos st' = 0 /\
    offered evs = pending st /\
    batches_within (audio_batch_frames_max st) evs /\
    0 < audio_batch_frames_max st' <= audio_batch_frames_max st /\
    forall pre d n w post,
      evs = pre ++ EvAudioBatch d n w :: post -> 0 < w < n ->
      batches_within w post /\ audio_batch_frames_max st' <= w.
Proof.
  intros Hpos Heven Hmax Hgate.
  destruct (audio_upload_samples_spec st h ff slowmo ffa Hpos Hmax Hgate)
    as (st' & h' & evs & E & Hp' & _ & _ & Hwc & Hm' & Hoff).
  exists st', h', evs. split; [exact E |]. split; [exact Hp' |].
  destruct (within_ceiling_bounds _ _ Hmax Hwc) as [Hb Hc].
  split; [| split; [exact Hb | split; [rewrite Hm'; exact Hc |]]].
  - rewrite Hoff. unfold pending. f_equal.
    apply Zeven_bool_iff, Zeven_div2 in Heven.
    rewrite Z.div2_div in Heven. lia.
  - intros pre d n w post -> Hwn.
    destruct (within_ceiling_split pre _ d n w post Hmax Hwc Hwn) as [Hw Hca].
    destruct (within_ceiling_bounds _ _ (proj1 Hwn) Hw) as [Hb' Hc'].
    split; [exact Hb' |]. rewrite Hm', Hca. lia.
Qed.

End BufferFacts.

Lemma size_t_32_wide : 2 ^ 32 <= 2 ^ 32.
Proof. lia. Qed.

Lemma small_buffer_eq :
  small_buffer
  = {| audio_out_buffer := replicate 12 0; audio_out_buffer_size := 12;
       audio_out_buffer_pos := 0; audio_batch_frames_max := 65536 |}.
Proof. reflexivity. Qed.

Lemma small_buffer_wf : audio_wf (2 ^ 32) small_buffer.
Proof.
  rewrite small_buffer_eq. unfold audio_wf.
  cbn [audio_out_buffer audio_out_buffer_size audio_out_buffer_pos].
  split; [reflexivity | lia].
Qed.

Lemma two_writes_ok : Forall write_ok two_writes.
Proof. repeat constructor; cbn; lia. Qed.

Lemma writes_survive_growth_witness :
  pending (write_all (2 ^ 32) 0 small_buffer two_writes)
  = [1; 2; 3; 4; 5; 6; 7; 8; 9; 10; 11; 12; 13; 14; 15; 16; 17; 18] /\
  audio_out_buffer_size (write_all (2 ^ 32) 0 small_buffer two_writes) = 27.
Proof.
  split.
  - refine (proj1 (writes_survive_growth (2 ^ 32) 0 size_t_32_wide unit
                     sink_takes_3 small_buffer two_writes small_buffer_wf
                     eq_refl two_writes_ok _)).
    cbn. lia.
  - reflexivity.
Defined.

Lemma upload_adapts_ceiling_witness :
  exists st' h' evs,
    audio_upload_samples (2 ^ 32) unit sink_takes_3 0 0 false
      four_pairs_pending tt = Some (st', h', evs) /\
    audio_out_buffer_pos st' = 0 /\
    offered evs = pending four_pairs_pending /\
    batches_within (audio_batch_frames_max four_pairs_pending) evs /\
    0 < audio_batch_frames_max st'
      <= audio_batch_frames_max four_pairs_pending /\
    forall pre d n w post,
      evs = pre ++ EvAudioBatch d n w :: post -> 0 < w < n ->
      batches_within w post /\ audio_batch_frames_max st' <= w.
Proof.
  apply (upload_adapts_ceiling (2 ^ 32) size_t_32_wide unit sink_takes_3
           four_pairs_pending tt 0 0 false); cbn; try reflexivity; lia.
Defined.

(** C4 as stated fails: offered four sample pairs, the sink takes three;
    the ceiling becomes 3, but the loop still advances by the four pairs
    it offered, so the drain is over after this one call and the fourth
    pair is never offered again. *)
Lemma partial_batch_counterexample :
  audio_upload_samples (2 ^ 32) unit sink_takes_3 0 0 false
    four_pairs_pending tt
  = Some ({| audio_out_buffer := [1; 2; 3; 4; 5; 6; 7; 8];
             audio_out_buffer_size := 8; audio_out_buffer_pos := 0;
             audio_batch_frames_max := 3 |},
          tt, [EvAudioBatch [1; 2; 3; 4; 5; 6; 7; 8] 4 3]) /\
  accepted_total [EvAudioBatch [1; 2; 3; 4; 5; 6; 7; 8] 4 3] = 3.
Proof. split; reflexivity. Qed.

Lemma after_one_write_reach :
  audio_reach (2 ^ 32) 0 unit sink_takes_3 after_one_write.
Proof.
  apply reach_write. unfold small_buffer.
  apply (reach_init _ _ _ _ (audio_initial (2 ^ 32))). apply reach_initial.
Qed.

Lemma batch_ceiling_positive_and_drain_ends_witness :
  0 < audio_batch_frames_max after_one_write /\
  forall ff slowmo ffa h,
  exists r,
    audio_upload_samples (2 ^ 32) unit sink_takes_3 ff slowmo ffa
      after_one_write h = Some r.
Proof.
  exact (batch_ceiling_positive_and_drain_ends (2 ^ 32) 0 size_t_32_wide
           unit sink_takes_3 after_one_write after_one_write_reach).
Defined.

End AudioFacts.

(** ** The mix filter: properties *)

Module BlendFacts.
Import Mach MachFacts Blend.
Local Open Scope nat_scope.

(** *** Facts *)

Lemma get_insert (l : list Z) (j i : nat) (v : Z) :
  get (<[j := v]> l) i = if decide (j = i /\ j < length l) then v else get l i.
Proof.
  unfold get. rewrite list_lookup_insert. now destruct (decide _).
Qed.

Lemma get_ext (l1 l2 : list Z) :
  length l1 = length l2 ->
  (forall i, i < length l1 -> get l1 i = get l2 i) -> l1 = l2.
Proof.
  intros Hlen Hget. apply list_eq. intros i.
  destruct (Nat.lt_ge_cases i (length l1)) as [Hlt | Hge].
  - specialize (Hget i Hlt). unfold get in Hget.
    destruct (lookup_lt_is_Some_2 l1 i Hlt) as [a Ha].
    destruct (lookup_lt_is_Some_2 l2 i ltac:(lia)) as [b Hb].
    rewrite Ha, Hb in *. cbn in Hget. now subst.
  - rewrite !lookup_ge_None_2; [reflexivity | lia | lia].
Qed.

Lemma mix_row_spec f n : forall x base curr prev,
  let r := mix_row f n x base curr prev in
  length (fst r) = length curr /\ length (snd r) = length prev /\
  forall i,
    get (fst r) i =
      (if decide (base + x <= i < base + x + n /\ i < length curr)
       then mix_pixel f (get curr i) (get prev i) else get curr i) /\
    get (snd r) i =
      (if decide (base + x <= i < base + x + n /\ i < length prev)
       then get curr i else get prev i).
Proof.
  induction n as [| n IH]; intros x base curr prev; cbv zeta.
  - cbn [mix_row fst snd]. repeat split; destruct (decide _); auto; lia.
  - cbn [mix_row].
    specialize (IH (S x) base
      (<[base + x := mix_pixel f (get curr (base + x)) (get prev (base + x))]>
         curr)
      (<[base + x := get curr (base + x)]> prev)).
    cbv zeta in IH. destruct IH as (Hl1 & Hl2 & IH).
    rewrite length_insert in Hl1, Hl2.
    split; [exact Hl1 |]. split; [exact Hl2 |]. intros i.
    destruct (IH i) as [Hc Hp]. rewrite Hc, Hp. clear Hc Hp IH.
    rewrite !length_insert, !get_insert.
    split; repeat destruct (decide _); try reflexivity; try lia;
      repeat match goal with
             | H : _ = _ /\ _ |- _ => destruct H as [<- ?]
             end; try reflexivity; lia.
Qed.

Lemma width_le_pitch : VIDEO_WIDTH <= VIDEO_PITCH /\ 0 < VIDEO_PITCH.
Proof. unfold VIDEO_WIDTH, VIDEO_PITCH, GB_SCREEN_WIDTH, NUM_GAMEBOYS. lia. Qed.

Lemma in_rows_0 base i : in_rows 0 base i = false.
Proof.
  unfold in_rows. destruct (Nat.leb_spec base i); [| reflexivity].
  destruct (Nat.ltb_spec i (base + 0 * VIDEO_PITCH)); [lia | reflexivity].
Qed.

Lemma in_rows_S n base i :
  in_rows (S n) base i =
  (base <=? i) && (i <? base + VIDEO_WIDTH)
  || in_rows n (base + VIDEO_PITCH) i.
Proof.
  destruct width_le_pitch as [Hw Hp]. unfold in_rows.
  destruct (Nat.lt_ge_cases i (base + VIDEO_PITCH)) as [Hlt | Hge].
  - assert (Hfar : (base + VIDEO_PITCH <=? i) = false)
      by (apply Nat.leb_gt; lia).
    rewrite Hfar. cbn [andb]. rewrite orb_false_r.
    destruct (Nat.leb_spec base i) as [Hb | Hb]; [| reflexivity].
    cbn [andb]. rewrite Nat.mod_small by lia.
    assert (Hin : (i <? base + S n * VIDEO_PITCH) = true)
      by (apply Nat.ltb_lt; lia).
    rewrite Hin. cbn [andb].
    destruct (Nat.ltb_spec (i - base) VIDEO_WIDTH),
      (Nat.ltb_spec i (base + VIDEO_WIDTH)); try reflexivity; lia.
  - assert (Hnear : (i <? base + VIDEO_WIDTH) = false)
      by (apply Nat.ltb_ge; lia).
    rewrite Hnear, andb_false_r. cbn [orb].
    replace (i - base) with (i - (base + VIDEO_PITCH) + 1 * VIDEO_PITCH)
      by lia.
    rewrite Nat.Div0.mod_add.
    assert (Hb : (base <=? i) = true) by (apply Nat.leb_le; lia).
    assert (Hb' : (base + VIDEO_PITCH <=? i) = true)
      by (apply Nat.leb_le; lia).
    rewrite Hb, Hb'. cbn [andb]. f_equal.
    destruct (Nat.ltb_spec i (base + S n * VIDEO_PITCH)),
      (Nat.ltb_spec i (base + VIDEO_PITCH + n * VIDEO_PITCH));
      try reflexivity; lia.
Qed.

Lemma in_rows_later n base i :
  in_rows n (base + VIDEO_PITCH) i = true -> base + VIDEO_WIDTH <= i.
Proof.
  destruct width_le_pitch as [Hw Hp]. unfold in_rows. intros H.
  apply andb_true_iff in H. destruct H as [H _].
  apply andb_true_iff in H. destruct H as [H _].
  apply Nat.leb_le in H. lia.
Qed.

Lemma mix_rows_spec f n : forall base curr prev,
  let r := mix_rows f n base curr prev in
  length (fst r) = length curr /\ length (snd r) = length prev /\
  forall i,
    get (fst r) i =
      (if in_rows n base i && (i <? length curr)
       then mix_pixel f (get curr i) (get prev i) else get curr i) /\
    get (snd r) i =
      (if in_rows n base i && (i <? length prev)
       then get curr i else get prev i).
Proof.
  induction n as [| n IH]; intros base curr prev; cbv zeta.
  - cbn [mix_rows fst snd]. repeat split; now rewrite in_rows_0.
  - cbn [mix_rows].
    pose proof (mix_row_spec f VIDEO_WIDTH 0 base curr prev) as Hrow.
    destruct (mix_row f VIDEO_WIDTH 0 base curr prev) as [c1 p1].
    cbv zeta in Hrow. cbn [fst snd] in Hrow.
    destruct Hrow as (Hlc & Hlp & Hrow).
    specialize (IH (base + VIDEO_PITCH) c1 p1). cbv zeta in IH.
    destruct IH as (Hl1 & Hl2 & IH).
    split; [congruence |]. split; [congruence |]. intros i.
    destruct (IH i) as [Hc Hp]. destruct (Hrow i) as [Hc1 Hp1].
    rewrite Hc, Hp, Hlc, Hlp, in_rows_S. clear Hc Hp IH Hrow.
    destruct (in_rows n (base + VIDEO_PITCH) i) eqn:Hlater.
    + apply in_rows_later in Hlater.
      rewrite orb_true_r, Hc1, Hp1.
      repeat destruct (decide _); lia.
    + rewrite orb_false_r. cbn [andb]. rewrite Hc1, Hp1. clear Hc1 Hp1.
      split.
      * destruct (Nat.leb_spec base i), (Nat.ltb_spec i (base + VIDEO_WIDTH)),
          (Nat.ltb_spec i (length curr)); cbn [andb];
          destruct (decide _); try reflexivity; lia.
      * destruct (Nat.leb_spec base i), (Nat.ltb_spec i (base + VIDEO_WIDTH)),
          (Nat.ltb_spec i (length prev)); cbn [andb];
          destruct (decide _); try reflexivity; lia.
Qed.

Lemma in_rows_visible i :
  i < VIDEO_BUFF_PIXELS -> in_rows VIDEO_HEIGHT 0 i = visible i.
Proof.
  destruct width_le_pitch as [Hw Hp]. intros Hi.
  unfold in_rows, visible. cbn [Nat.leb andb].
  rewrite Nat.sub_0_r, Nat.add_0_l.
  assert (Hsize : VIDEO_BUFF_PIXELS = VIDEO_HEIGHT * VIDEO_PITCH)
    by (unfold VIDEO_BUFF_PIXELS, VIDEO_PITCH; lia).
  assert (H1 : (i <? VIDEO_HEIGHT * VIDEO_PITCH) = true)
    by (apply Nat.ltb_lt; lia).
  assert (H2 : (i / VIDEO_PITCH <? VIDEO_HEIGHT) = true).
  { apply Nat.ltb_lt. apply Nat.Div0.div_lt_upper_bound. lia. }
  rewrite H1, H2, andb_true_r. reflexivity.
Qed.

(** What one call of the filter does to each pixel. *)
Lemma blend_frames_mix_spec f curr prev :
  length curr = VIDEO_BUFF_PIXELS -> length prev = VIDEO_BUFF_PIXELS ->
  let r := blend_frames_mix f curr prev in
  length (fst r) = VIDEO_BUFF_PIXELS /\ length (snd r) = VIDEO_BUFF_PIXELS /\
  forall i, i < VIDEO_BUFF_PIXELS ->
    get (fst r) i =
      (if visible i then mix_pixel f (get curr i) (get prev i)
       else get curr i) /\
    get (snd r) i = (if visible i then get curr i else get prev i).
Proof.
  intros Hc Hp. cbv zeta. unfold blend_frames_mix.
  destruct (mix_rows_spec f VIDEO_HEIGHT 0 curr prev) as (Hl1 & Hl2 & H).
  split; [congruence |]. split; [congruence |]. intros i Hi.
  destruct (H i) as [H1 H2]. rewrite H1, H2, Hc, Hp.
  rewrite in_rows_visible by assumption.
  assert (Hlt : (i <? VIDEO_BUFF_PIXELS) = true) by now apply Nat.ltb_lt.
  rewrite Hlt, andb_true_r. split; reflexivity.
Qed.

(** The average of a pixel with itself is that pixel. *)
Lemma mix_pixel_same f c : pixel_ok f c -> mix_pixel f c c = c.
Proof.
  unfold pixel_ok, mix_pixel. intros H.
  rewrite Z.lxor_nilpotent, Z.land_0_l, Z.add_0_r.
  assert (Hhalf : Z.shiftr (c + c) 1 = c).
  { rewrite Z.shiftr_div_pow2 by lia. change (2 ^ 1)%Z with 2%Z.
    Z.to_euclidean_division_equations; lia. }
  destruct f.
  - rewrite Hhalf. apply u16_small. lia.
  - rewrite Hhalf. apply u16_small. lia.
  - rewrite (u32_small (c + c)) by lia. rewrite Z.add_0_r.
    rewrite (u32_small (c + c)) by lia. exact Hhalf.
Qed.

Lemma get_replicate n c i : i < n -> get (replicate n c) i = c.
Proof. intros H. unfold get. now rewrite lookup_replicate_2. Qed.

Lemma get_pixel_ok f F i :
  Forall (pixel_ok f) F -> i < length F -> pixel_ok f (get F i).
Proof.
  intros HF Hi. unfold get.
  destruct (lookup_lt_is_Some_2 F i Hi) as [c Hc]. rewrite Hc. cbn.
  rewrite Forall_lookup in HF. eauto.
Qed.

(** C7 (as amended): feed a frame [F] to the mix filter twice, starting
    from a previous-frame buffer fresh from [allocate_video_buf_prev].
    The second call returns [F] unchanged.  The first call returns, at
    every pixel of the picture, the packed average of [F]'s pixel with
    0, and leaves the padding alone. *)
Theorem mix_returns_frame_on_second_pass (f : pixel_format) (F : list Z) :
  length F = VIDEO_BUFF_PIXELS -> Forall (pixel_ok f) F ->
  let first := blend_frames_mix f F allocate_video_buf_prev in
  let second := blend_frames_mix f F (snd first) in
  fst second = F /\
  forall i, i < VIDEO_BUFF_PIXELS ->
    get (fst first) i =
      (if visible i then mix_pixel f (get F i) 0 else get F i).
Proof.
  intros HlF Hok. cbv zeta.
  assert (Hl0 : length allocate_video_buf_prev = VIDEO_BUFF_PIXELS)
    by apply length_replicate.
  destruct (blend_frames_mix_spec f F allocate_video_buf_prev HlF Hl0)
    as (Hl1 & Hlp1 & H1). cbv zeta in H1.
  set (first := blend_frames_mix f F allocate_video_buf_prev) in *.
  destruct (blend_frames_mix_spec f F (snd first) HlF Hlp1)
    as (Hl2 & _ & H2). cbv zeta in H2.
  split.
  - apply get_ext; [congruence |]. intros i Hi. rewrite Hl2 in Hi.
    destruct (H2 i Hi) as [Hc _]. destruct (H1 i Hi) as [_ Hp].
    rewrite Hc, Hp. destruct (visible i); [| reflexivity].
    apply mix_pixel_same. apply get_pixel_ok; [assumption | lia].
  - intros i Hi. destruct (H1 i Hi) as [Hc _]. rewrite Hc.
    unfold allocate_video_buf_prev. now rewrite get_replicate.
Qed.

Lemma white_frame_ok : Forall (pixel_ok RGB565) white_frame.
Proof. apply Forall_replicate. cbn. lia. Qed.

Lemma mix_returns_frame_on_second_pass_witness :
  let first := blend_frames_mix RGB565 white_frame allocate_video_buf_prev in
  let second := blend_frames_mix RGB565 white_frame (snd first) in
  fst second = white_frame /\
  forall i, i < VIDEO_BUFF_PIXELS ->
    get (fst first) i =
      (if visible i then mix_pixel RGB565 (get white_frame i) 0
       else get white_frame i).
Proof.
  exact (mix_returns_frame_on_second_pass RGB565 white_frame
           (length_replicate _ _) white_frame_ok).
Defined.

Lemma buff_pixels_pos : 0 < VIDEO_BUFF_PIXELS.
Proof. unfold VIDEO_BUFF_PIXELS, NUM_GAMEBOYS, VIDEO_HEIGHT. lia. Qed.

(** C7 as stated fails on the first call: against the zeroed buffer the
    first pixel of an all-white RGB565 frame (0xFFFF) comes out as
    0x8410, half as bright. *)
Lemma mix_first_pass_counterexample :
  get white_frame 0 = 65535%Z /\
  get (fst (blend_frames_mix RGB565 white_frame allocate_video_buf_prev)) 0
  = 33808%Z.
Proof.
  split.
  - apply get_replicate, buff_pixels_pos.
  - destruct (blend_frames_mix_spec RGB565 white_frame allocate_video_buf_prev
                (length_replicate _ _) (length_replicate _ _))
      as (_ & _ & H).
    destruct (H 0 buff_pixels_pos) as [Hc _]. rewrite Hc.
    unfold white_frame, allocate_video_buf_prev.
    rewrite !get_replicate by apply buff_pixels_pos. reflexivity.
Qed.

End BlendFacts.

(** ** Frame pacing and speed control: properties *)

Module PacerFacts.
Import Mach MachFacts Pacer.

Lemma update_input_state_notifies k cb c s p :
  Forall notification (snd (Input.update_input_state k cb c s p)).
Proof.
  unfold Input.update_input_state.
  destruct (Input.sf2000_chords _ _ _ s) as [s' evs] eqn:Ec.
  destruct (Input.turbo_button _ _ _ _ (Input.IG_A k) _) as [r1 ta].
  destruct (Input.turbo_button _ _ _ _ (Input.IG_B k) r1) as [r2 tb].
  destruct (Input.palette_switch _ _ _ _) as [pc evp] eqn:Ep.
  cbn [snd]. apply Forall_app. split.
  - unfold Input.sf2000_chords, Input.select_a_chord in Ec.
    destruct (_ && negb (Input.sf2000_select_a_prev s)); inversion Ec;
      repeat constructor.
  - unfold Input.palette_switch in Ep.
    destruct (_ || _); [| inversion Ep; constructor].
    destruct (_ =? 0); inversion Ep; repeat constructor.
Qed.

Lemma notifications_silent evs :
  Forall notification evs ->
  core_calls evs = O /\ completed_frames evs = O /\
  audio_batches evs = O /\ video_frames evs = [].
Proof.
  induction 1 as [| e evs He _ IH]; [repeat split |].
  destruct e; cbn in He; try contradiction; exact IH.
Qed.

Lemma core_calls_app a b : core_calls (a ++ b) = (core_calls a + core_calls b)%nat.
Proof.
  induction a as [| e a IH]; [reflexivity |].
  destruct e; cbn; rewrite ?IH; reflexivity.
Qed.

Lemma completed_frames_app a b :
  completed_frames (a ++ b) = (completed_frames a + completed_frames b)%nat.
Proof.
  induction a as [| e a IH]; [reflexivity |].
  destruct e; cbn; rewrite ?IH; try reflexivity. lia.
Qed.

Lemma audio_batches_app a b :
  audio_batches (a ++ b) = (audio_batches a + audio_batches b)%nat.
Proof.
  induction a as [| e a IH]; [reflexivity |].
  destruct e; cbn; rewrite ?IH; reflexivity.
Qed.

Lemma video_frames_app a b :
  video_frames (a ++ b) = video_frames a ++ video_frames b.
Proof.
  induction a as [| e a IH]; [reflexivity |].
  destruct e as [[?|] ? ? ? | | | |]; cbn; rewrite ?IH; reflexivity.
Qed.

Section PassFacts.
Context {B R Core Host : Type}.
Variable w : @world B R Core Host.

(** The dupe branch, spelled out. *)
Lemma retro_run_internal_dupe cb st :
  frames_count st < samples_count st / SOUND_SAMPLES_PER_FRAME ->
  let r := Input.update_input_state (abi w) cb (cfg (ev st)) (sp st) (pd st) in
  retro_run_internal w cb st =
  Some (set_counts
          (set_ev (set_input st (fst (fst r)) (snd (fst r)))
             (set_gb (ev st) (fake_rtc_update w (gb (ev st)))))
          (samples_count st) (u64 (frames_count st + 1)),
        snd r ++ [EvVideo None VIDEO_WIDTH VIDEO_HEIGHT
                    (VIDEO_PITCH * pixel_bytes w)]).
Proof.
  intros Hlt. cbv zeta. unfold retro_run_internal.
  destruct (Input.update_input_state _ _ _ _ _) as [[sp' pd'] evs].
  cbn [fst snd set_input set_ev samples_count frames_count ev].
  apply Z.ltb_lt in Hlt. now rewrite Hlt.
Qed.

Ltac fields :=
  cbn [samples_count frames_count sp sf2000_splash_shown sf2000_splash_timer
       pd video_buf sound_buf ev cfg fast_forward_audio_enabled
       use_cc_resampler blend_frames blend_bufs audio resampler gb host
       set_ev set_counts set_input set_splash set_bufs set_gb set_sound
       set_sink set_blend_bufs fst snd] in *.

(** C1 (as amended): a pass entered with [frames_count] below
    [samples_count / 35112] hands the frontend the NULL frame with the
    usual width, height and pitch, adds exactly 1 to [frames_count]
    whatever the speed state, and returns without running the core and
    without touching [samples_count], the resampler or the audio
    buffer.  At normal speed a host tick is one pass, so the same holds
    of the whole tick. *)
Theorem dupe_pass_repeats_last_frame (inputs : nat -> Z -> Z)
  (st : @state B R Core Host) :
  0 <= frames_count st -> samples_count st < 2 ^ 64 ->
  frames_count st < samples_count st / SOUND_SAMPLES_PER_FRAME ->
  repeats_last_frame w st (retro_run_internal w (inputs O) st) /\
  (Input.sf2000_fastforward_state (sp st) = 0 ->
   repeats_last_frame w st (retro_run w inputs st)).
Proof.
  intros Hf Hs Hlt.
  pose proof (retro_run_internal_dupe (inputs O) st Hlt) as E.
  cbv zeta in E.
  pose proof (update_input_state_notifies (abi w) (inputs O) (cfg (ev st))
                (sp st) (pd st)) as Hn.
  destruct (notifications_silent _ Hn) as (Hc & _ & Ha & Hv).
  assert (Hfc : u64 (frames_count st + 1) = frames_count st + 1).
  { apply u64_small. unfold SOUND_SAMPLES_PER_FRAME in Hlt.
    assert (samples_count st / 35112 <= samples_count st)
      by (Z.to_euclidean_division_equations; lia).
    lia. }
  split.
  - eexists _, _. split; [exact E |]. fields. auto 10.
  - intros Hff. unfold retro_run. rewrite Hff. cbn [Z.ltb Z.compare passes].
    rewrite E, app_nil_r.
    eexists _, _. split; [reflexivity |]. fields. auto 10.
Qed.

Hypothesis size_t_wide : 2 ^ 32 <= SIZE_MOD w.

Lemma steady_refl (st : @state B R Core Host) : steady st st.
Proof. unfold steady. auto 10. Qed.

Lemma steady_trans (a b c : @state B R Core Host) :
  steady a b -> steady b c -> steady a c.
Proof. unfold steady. intuition congruence. Qed.

Lemma write_ready a samples n :
  audio_ready w a ->
  audio_ready w (Audio.audio_out_buffer_write (SIZE_MOD w) (uninit w) a samples n).
Proof.
  intros [Hm Hp]. unfold audio_ready. cbn.
  rewrite AudioFacts.resize_keeps_ceiling.
  split; [exact Hm | now apply AudioFacts.sz_range].
Qed.

Lemma write_all_ready ws : forall a,
  audio_ready w a ->
  audio_ready w (Audio.write_all (SIZE_MOD w) (uninit w) a ws).
Proof.
  induction ws as [| x ws IH]; intros a Ha; [exact Ha |].
  unfold Audio.write_all. cbn [fold_left]. apply IH. now apply write_ready.
Qed.

Lemma read_blipper_ready a stereo n :
  audio_ready w a ->
  audio_ready w (Audio.audio_out_buffer_read_blipper (SIZE_MOD w) (uninit w) a
                 stereo n).
Proof.
  intros [Hm Hp]. unfold audio_ready. cbn.
  rewrite AudioFacts.resize_keeps_ceiling.
  split; [exact Hm | now apply AudioFacts.sz_range].
Qed.

Lemma render_audio_keeps always sound samples e :
  let e' := render_audio w always sound samples e in
  gb e' = gb e /\ host e' = host e /\
  fast_forward_audio_enabled e' = fast_forward_audio_enabled e /\
  use_cc_resampler e' = use_cc_resampler e /\
  (audio_ready w (audio e) -> audio_ready w (audio e')).
Proof.
  cbv zeta. unfold render_audio.
  destruct (use_cc_resampler e) eqn:Ecc.
  - destruct (CC_renderaudio w _ _ _) as [r writes]. fields.
    do 4 (split; [auto |]). apply write_all_ready.
  - fields.
    destruct (always || _).
    + unfold read_blipper. fields.
      destruct (blipper_read w _ _) as [stereo r]. fields.
      do 4 (split; [auto |]). apply read_blipper_ready.
    + fields. do 4 (split; [auto |]). auto.
Qed.

(** A loop that ends completed exactly one frame, and touched the audio
    side only if asked to. *)
Lemma run_until_frame_inv fuel : forall render with_audio samples st st' s' evs,
  run_until_frame w fuel render with_audio samples st = Some (st', s', evs) ->
  steady st st' /\
  completed_frames evs = 1%nat /\ video_frames evs = [] /\
  audio_batches evs = O /\
  (audio_ready w (audio (ev st)) -> audio_ready w (audio (ev st'))) /\
  (with_audio = false -> audio (ev st') = audio (ev st)).
Proof.
  induction fuel as [| fuel IH];
    intros render with_audio samples st st' s' evs E; [discriminate |].
  cbn [run_until_frame] in E.
  set (r := runFor w (gb (ev st)) (Input.libretro_input_state (pd st))
              (if render then Some (video_buf st) else None) samples) in *.
  destruct (rr_ret r =? -1) eqn:Eret.
  - match type of E with
    | match run_until_frame w fuel ?a ?b ?c ?s with _ => _ end = _ =>
        destruct (run_until_frame w fuel a b c s) as [[[st1 s1] evs1] |] eqn:E1;
          [| discriminate];
        apply IH in E1
    end.
    inversion E; subst; clear E.
    destruct E1 as (Hst & Hcf & Hvf & Hab & Har & Hau).
    destruct with_audio.
    + pose proof (render_audio_keeps false (rr_sound r) (rr_samples r)
                    (set_gb (ev st) (rr_gb r))) as Hk.
      cbv zeta in Hk. fields. destruct Hk as (Hg & Hh & Hf & Hu & Hr).
      unfold steady in *. fields. rewrite Hh, Hf, Hu in Hst.
      cbn [completed_frames video_frames audio_batches]. rewrite Eret.
      split; [tauto |]. split; [lia |]. split; [assumption |].
      split; [assumption |]. split; [tauto | discriminate].
    + unfold steady in *. fields.
      cbn [completed_frames video_frames audio_batches]. rewrite Eret.
      split; [tauto |]. split; [lia |]. split; [assumption |].
      split; [assumption |]. split; [tauto |]. intros _. now apply Hau.
  - inversion E; subst; clear E. unfold steady. fields.
    cbn [completed_frames video_frames audio_batches]. rewrite Eret.
    split; [auto 10 |]. do 3 (split; [reflexivity |]). split; auto.
Qed.

(** With a core that makes progress, a loop ends. *)
Lemma run_until_frame_total (Hprog : core_progress w) fuel :
  forall render with_audio samples st,
  (remaining w (gb (ev st)) < fuel)%nat ->
  exists res, run_until_frame w fuel render with_audio samples st = Some res.
Proof.
  induction fuel as [| fuel IH]; intros render with_audio samples st Hf;
    [lia |].
  cbn [run_until_frame].
  set (r := runFor w (gb (ev st)) (Input.libretro_input_state (pd st))
              (if render then Some (video_buf st) else None) samples) in *.
  destruct (rr_ret r =? -1) eqn:Eret; [| eauto].
  apply Z.eqb_eq in Eret. apply Hprog in Eret. fold r in Eret.
  match goal with
  | |- exists _, match run_until_frame w fuel ?a ?b ?c ?s with _ => _ end = _ =>
      destruct (IH a b c s) as [[[st1 s1] evs1] E1]
  end.
  - destruct with_audio; fields; [| lia].
    pose proof (render_audio_keeps false (rr_sound r) (rr_samples r)
                  (set_gb (ev st) (rr_gb r))) as Hk.
    cbv zeta in Hk. fields. destruct Hk as (Hg & _). rewrite Hg. lia.
  - rewrite E1. eauto.
Qed.

Lemma run_frame_total (Hprog : core_progress w) render with_audio samples st :
  exists res, run_frame w render with_audio samples st = Some res.
Proof. unfold run_frame. apply run_until_frame_total; [assumption | lia]. Qed.


Lemma upload_loop_batches fuel : forall h buf ptr num m h' m' evs,
  Audio.upload_loop (SIZE_MOD w) Host (audio_batch_cb w) fuel h buf ptr num m
    = Some (h', m', evs) ->
  Forall is_batch evs.
Proof.
  induction fuel as [| fuel IH]; intros h buf ptr num m h' m' evs E.
  - cbn in E. destruct (0 <? num); [discriminate |].
    inversion E; subst. constructor.
  - cbn [Audio.upload_loop] in E. destruct (0 <? num).
    2:{ inversion E; subst. constructor. }
    destruct (audio_batch_cb w h _ _) as [ret h1].
    match type of E with
    | match Audio.upload_loop _ _ _ fuel ?a ?b ?c ?d ?e with _ => _ end = _ =>
        destruct (Audio.upload_loop (SIZE_MOD w) Host (audio_batch_cb w)
                    fuel a b c d e) as [[[h2 m2] evs2] |] eqn:E2;
          [| discriminate]
    end.
    inversion E; subst. constructor; [exact I |]. eapply IH; eassumption.
Qed.

Lemma audio_upload_batches ff slowmo ffa a h a' h' evs :
  Audio.audio_upload_samples (SIZE_MOD w) Host (audio_batch_cb w) ff slowmo
    ffa a h = Some (a', h', evs) ->
  Forall is_batch evs.
Proof.
  unfold Audio.audio_upload_samples. destruct (_ && negb ffa).
  - intros E. inversion E; subst. constructor.
  - destruct (Audio.upload_loop _ _ _ _ _ _ _ _ _) as [[[h2 m2] evs2] |] eqn:E2;
      [| discriminate].
    intros E. inversion E; subst. eapply upload_loop_batches; eassumption.
Qed.

Lemma batches_silent evs :
  Forall is_batch evs ->
  core_calls evs = O /\ completed_frames evs = O /\ video_frames evs = [].
Proof.
  induction 1 as [| e evs He _ IH]; [repeat split |].
  destruct e; cbn in He; try contradiction; exact IH.
Qed.

Lemma audio_upload_total ff slowmo ffa a h :
  audio_ready w a ->
  exists res,
    Audio.audio_upload_samples (SIZE_MOD w) Host (audio_batch_cb w) ff slowmo
      ffa a h = Some res.
Proof.
  intros [Hm Hp].
  destruct (((0 <? ff) || (0 <? slowmo)) && negb ffa) eqn:Hgate.
  - unfold Audio.audio_upload_samples. rewrite Hgate. eauto.
  - destruct (AudioFacts.audio_upload_samples_spec (SIZE_MOD w) size_t_wide Host
                (audio_batch_cb w) a h ff slowmo ffa Hp Hm Hgate)
      as (a' & h' & evs & E & _). eauto.
Qed.


(** A pass that is not a dupe ends when its emulation part does and the
    audio state lets the upload end. *)
Lemma pass_fresh_total cb st st2 samples evs_run :
  samples_count st / SOUND_SAMPLES_PER_FRAME <= frames_count st ->
  emulate w (after_input w cb st) = Some (st2, samples, evs_run) ->
  audio_ready w (audio (ev st2)) ->
  exists res, retro_run_internal w cb st = Some res.
Proof.
  intros Hge Eem Hready. unfold retro_run_internal.
  unfold after_input in Eem.
  destruct (Input.update_input_state _ _ _ _ _) as [[sp' pd'] evs_in].
  fields. apply Z.ltb_ge in Hge. rewrite Hge, Eem.
  set (st3 := match blend_frames (ev st2) with
              | Some blend =>
                  let '(video, bufs) :=
                    blend (video_buf st2) (blend_bufs (ev st2)) in
                  set_bufs (set_ev st2 (set_blend_bufs (ev st2) bufs)) video
                    (sound_buf st2)
              | None => st2
              end) in *.
  assert (H3 : audio (ev st3) = audio (ev st2)).
  { subst st3. destruct (blend_frames (ev st2)) as [blend |]; [| auto].
    destruct (blend _ _) as [video bufs]. fields. auto. }
  fields.
  pose proof (render_audio_keeps true (sound_buf st3) samples (ev st3)) as Hk.
  cbv zeta in Hk. destruct Hk as (_ & _ & _ & _ & Hr).
  rewrite H3 in Hr. specialize (Hr Hready).
  match goal with
  | |- context [Audio.audio_upload_samples ?m ?H ?c ?f ?s ?e ?a ?h] =>
      destruct (audio_upload_total f s e a h Hr) as [[[a' h'] evs_audio] Eup]
  end.
  rewrite Eup. eauto.
Qed.





Lemma after_input_counts cb st :
  frames_count (after_input w cb st) = frames_count st /\
  samples_count (after_input w cb st) = samples_count st.
Proof. unfold after_input. fields. auto. Qed.


(** Outside fast forward, with a core that makes progress, the
    emulation part of a pass ends, and it leaves the audio state ready
    for the upload. *)
Lemma emulate_normal_total (Hprog : core_progress w) st :
  Input.sf2000_fastforward_state (sp st) = 0 ->
  audio_ready w (audio (ev st)) ->
  exists st' s' evs,
    emulate w st = Some (st', s', evs) /\ audio_ready w (audio (ev st')).
Proof.
  intros Hff Hready. unfold emulate. rewrite Hff.
  change (0 <? 0) with false. cbv iota.
  destruct (negb (sf2000_splash_shown st) && _).
  { eexists _, _, _. split; [reflexivity |]. fields. exact Hready. }
  destruct (0 <? Input.sf2000_slowmotion_state (sp st)).
  - match goal with
    | |- context [if ?c then run_frame _ _ _ _ ?s else _] =>
        destruct c;
        [ destruct (run_frame_total Hprog true
                      (fast_forward_audio_enabled (ev st))
                      SOUND_SAMPLES_PER_RUN s) as [[[st' s'] evs] E]
        | ]
    end.
    + exists st', s', evs. split; [exact E |].
      unfold run_frame in E. apply run_until_frame_inv in E.
      destruct E as (_ & _ & _ & _ & Har & _). apply Har. fields.
      exact Hready.
    + eexists _, _, _. split; [reflexivity |]. fields. exact Hready.
  - destruct (run_frame_total Hprog true true SOUND_SAMPLES_PER_RUN st)
      as [[[st' s'] evs] E].
    exists st', s', evs. split; [exact E |].
    unfold run_frame in E. apply run_until_frame_inv in E.
    destruct E as (_ & _ & _ & _ & Har & _). now apply Har.
Qed.


End PassFacts.

Lemma dupe_pass_repeats_last_frame_witness :
  repeats_last_frame (scripted_world frame_per_call 0)
    (sample_state 35112 0 0 true 0)
    (retro_run_internal (scripted_world frame_per_call 0) Input.held_none
       (sample_state 35112 0 0 true 0)) /\
  (Input.sf2000_fastforward_state (sp (sample_state 35112 0 0 true 0)) = 0 ->
   repeats_last_frame (scripted_world frame_per_call 0)
     (sample_state 35112 0 0 true 0)
     (retro_run (scripted_world frame_per_call 0) no_buttons
        (sample_state 35112 0 0 true 0))).
Proof.
  apply (dupe_pass_repeats_last_frame (scripted_world frame_per_call 0)
           no_buttons (sample_state 35112 0 0 true 0)).
  - cbn. lia.
  - cbn. lia.
  - vm_compute. reflexivity.
Defined.

(** C1 as stated fails in fast forward.  In state 1 (multiplier 3) a
    dupe pass adds 1 to [frames_count], not 3; and a host tick entered
    with [frames_count] behind is three passes, of which only the first
    is a dupe: the other two call the core, six [runFor] calls in all,
    and [frames_count] ends at 7. *)
Lemma dupe_claim_counterexample :
  Input.speed_multiplier 1 = 3 /\
  summary (retro_run_internal (scripted_world frame_per_call 0)
             Input.held_none (sample_state 35112 0 1 true 0))
  = Some (35112, 1, O, O, [false]) /\
  summary (retro_run (scripted_world frame_per_call 0) no_buttons
             (sample_state 35112 0 1 true 0))
  = Some (35312, 7, 6%nat, 6%nat, [false; true; true]).
Proof. split; [reflexivity | split; vm_compute; reflexivity]. Qed.

Lemma frame_per_call_progress :
  core_progress (scripted_world frame_per_call 0).
Proof. intros g input frame samples H. cbn in H. discriminate. Qed.

Lemma sample_audio_ready :
  audio_ready (scripted_world frame_per_call 0) (audio sample_env).
Proof. unfold audio_ready. repeat split; vm_compute; congruence. Qed.

Lemma size_t_32 : 2 ^ 32 <= 2 ^ 32.
Proof. lia. Qed.



Lemma long_tick_runs :
  retro_run (scripted_world (frame_after 34) 40) no_buttons
    (sample_state 0 0 0 true 0)
  = Some (after_long_tick, long_tick_events).
Proof. vm_compute. reflexivity. Qed.

Lemma long_tick_samples : samples_count after_long_tick = 2 * 35112.
Proof. vm_compute. reflexivity. Qed.

Lemma slow_start_progress : core_progress slow_start_world.
Proof.
  intros g input frame samples H. cbn in H. cbn.
  unfold frame_after in H.
  destruct (Nat.ltb_spec g 2917) as [Hlt | Hge]; [lia |].
  cbn in H. discriminate.
Qed.

(** The 180 ticks of the splash leave [frames_count] at 180 and
    [samples_count] at 180 * 2064; the core has not been called. *)
Lemma splash_run_counts :
  summary (option_map (fun st => (st, []))
             (ticks slow_start_world 180 no_buttons startup_state))
  = Some (371520, 180, O, O, []) /\
  sf2000_splash_shown (state_after slow_start_world 180) = true.
Proof. split; vm_compute; reflexivity. Qed.




End PacerFacts.

(** ** The fake clock object: properties *)

Module RtcObjectFacts.
Import Mach MachFacts FakeRtc FakeRtcFacts RtcObject.

Ltac zdiv := Z.to_euclidean_division_equations; lia.

(** *** Elapsed time *)

Lemma u32_sub_u32_sub a m : 0 <= m < 2 ^ 32 -> u32 (a - u32 (a - m)) = m.
Proof.
  intros Hm. unfold u32. rewrite Zminus_mod_idemp_r.
  replace (a - (a - m)) with m by lia. now apply Z.mod_small.
Qed.

(** X1: [update_elapsed_time] moves whole minutes from the time elapsed
    since [last_real_time] into [total_minutes] and keeps the rest: the
    seconds the clock stands for at the instant of the call do not
    change, and fewer than 60 of them are left uncounted. *)
Theorem update_elapsed_time_keeps_seconds (r : fake_rtc) (o : os) :
  let now := u32 (clock o (clock_calls o)) in
  let r' := fst (update_elapsed_time r o) in
  rtc_wf (state_ r) ->
  total_minutes (state_ r) + u32 (now - last_real_time (state_ r)) / 60
    < 2 ^ 32 ->
  seconds_at (state_ r') now = seconds_at (state_ r) now /\
  u32 (now - last_real_time (state_ r')) < 60.
Proof.
  cbv zeta. unfold rtc_wf, update_elapsed_time, get_current_unix_time, time.
  intros Hwf Hfit.
  set (now := u32 (clock o (clock_calls o))) in *.
  set (e := u32 (now - last_real_time (state_ r))) in *.
  assert (He : 0 <= e < 2 ^ 32) by apply u32_range.
  destruct (Z.leb_spec 60 e) as [Hge | Hlt]; cbn [fst].
  - unfold seconds_at. cbn.
    rewrite u32_sub_u32_sub by zdiv.
    rewrite u32_small by zdiv.
    fold e. split; zdiv.
  - fold e. split; [reflexivity | lia].
Qed.

(** *** Saving and loading *)

Section Target.
Variable big_endian : bool.

Lemma byte_round_trip n :
  0 <= n < 256 -> Z.of_N (N_of_ascii (ascii_of_N (Z.to_N n))) = n.
Proof.
  intros Hn. rewrite N_ascii_embedding by lia. lia.
Qed.

Lemma length_bytes_of_u32 x : length (bytes_of_u32 big_endian x) = 4%nat.
Proof.
  unfold bytes_of_u32. destruct big_endian; reflexivity.
Qed.

Lemma u32_of_bytes_of_u32 x :
  0 <= x < 2 ^ 32 -> u32_of_bytes big_endian (bytes_of_u32 big_endian x) = x.
Proof.
  intros Hx. unfold u32_of_bytes, bytes_of_u32.
  assert (E : (if big_endian
               then rev (if big_endian
                         then rev (map (fun i => ascii_of_N
                                 (Z.to_N (Z.shiftr x (8 * i) mod 256)))
                                 [0; 1; 2; 3])
                         else map (fun i => ascii_of_N
                                 (Z.to_N (Z.shiftr x (8 * i) mod 256)))
                                 [0; 1; 2; 3])
               else (if big_endian
                     then rev (map (fun i => ascii_of_N
                             (Z.to_N (Z.shiftr x (8 * i) mod 256)))
                             [0; 1; 2; 3])
                     else map (fun i => ascii_of_N
                             (Z.to_N (Z.shiftr x (8 * i) mod 256)))
                             [0; 1; 2; 3]))
              = map (fun i => ascii_of_N (Z.to_N (Z.shiftr x (8 * i) mod 256)))
                  [0; 1; 2; 3]).
  { destruct big_endian; [apply rev_involutive | reflexivity]. }
  rewrite E. clear E. cbn [map fold_right].
  rewrite !byte_round_trip by (apply Z.mod_pos_bound; lia).
  rewrite !Z.shiftr_div_pow2 by lia.
  change (2 ^ (8 * 0)) with 1. change (2 ^ (8 * 1)) with 256.
  change (2 ^ (8 * 2)) with 65536. change (2 ^ (8 * 3)) with 16777216.
  zdiv.
Qed.

(** X2: what [save] writes, [load] reads back.  When the clock is
    enabled, the save directory is set and the file can be written, a
    clock object that loads from the same directory afterwards holds the
    [total_minutes] that were saved, whatever the byte order of the
    target; and [save] leaves [needs_save] cleared. *)
Theorem saved_minutes_load_back (r r2 : fake_rtc) (o : os) :
  rtc_wf (state_ r) ->
  enabled (state_ r) = true -> enabled (state_ r2) = true ->
  is_empty (save_dir_ r) = false -> save_dir_ r2 = save_dir_ r ->
  unwritable o (save_dir_ r ++ "/" ++ SAVE_FILENAME)%string = false ->
  let '(r', o') := save big_endian r o in
  total_minutes (state_ (load big_endian r2 o')) = total_minutes (state_ r) /\
  needs_save (state_ r') = false.
Proof.
  unfold rtc_wf. intros Hwf He He2 Hdir Hsame Hw.
  unfold save, load, save_to_file, load_from_file, write_file,
    get_current_unix_time, time.
  rewrite He, He2, Hsame, Hdir, Hw. cbn.
  rewrite lookup_insert_eq.
  rewrite length_take, length_bytes_of_u32. cbn.
  rewrite take_ge by (rewrite length_bytes_of_u32; lia).
  split; [now apply u32_of_bytes_of_u32 | reflexivity].
Qed.

(** *** Bumps *)

Lemma bump_time_enabled s b : enabled (bump_time s b) = enabled s.
Proof.
  unfold bump_time. destruct (enabled s) eqn:E; cbn [negb]; [| exact E].
  destruct (0 <? b); [exact E |].
  destruct (b <? 0); [| exact E].
  destruct (_ <? _); exact E.
Qed.

Lemma bump_time_wf s b : rtc_wf s -> rtc_wf (bump_time s b).
Proof.
  unfold rtc_wf, bump_time. intros Hwf.
  destruct (enabled s); cbn [negb]; [| exact Hwf].
  destruct (0 <? b); [apply u32_range |].
  destruct (b <? 0); [| exact Hwf].
  destruct (_ <? _); cbn; [lia | apply u32_range].
Qed.

Lemma apply_persistent_bump_total r :
  enabled (state_ r) = true -> rtc_wf (state_ r) ->
  let d := persistent_bump_minutes_ r - previous_persistent_bump_ r in
  INT_MIN <= d <= INT_MAX ->
  0 <= total_minutes (state_ r) + d < 2 ^ 32 ->
  let r' := apply_persistent_bump r in
  total_minutes (state_ r') = total_minutes (state_ r) + d /\
  previous_persistent_bump_ r' = persistent_bump_minutes_ r /\
  persistent_bump_minutes_ r' = persistent_bump_minutes_ r /\
  one_off_bump_minutes_ r' = one_off_bump_minutes_ r /\
  save_dir_ r' = save_dir_ r /\
  enabled (state_ r') = true /\ rtc_wf (state_ r').
Proof.
  cbv zeta. intros He Hwf Hd Hr. unfold apply_persistent_bump.
  rewrite He. cbn [negb]. rewrite i32_small by assumption.
  destruct (Z.eqb_spec (persistent_bump_minutes_ r
                        - previous_persistent_bump_ r) 0) as [E0 | Hne];
    cbn [negb].
  - rewrite E0. repeat split; try assumption; try lia; apply Hwf.
  - unfold bump, set_previous_persistent_bump, set_state.
    cbn [state_ save_dir_ persistent_bump_minutes_ one_off_bump_minutes_
         previous_persistent_bump_ last_save_time_].
    rewrite bump_time_enabled.
    repeat split; try assumption; try apply (bump_time_wf _ _ Hwf).
    apply bump_time_exact; assumption.
Qed.

(** X3: the persistent bump is absolute, not cumulative, as long as
    [total_minutes] is not cut off at zero.  Take an enabled clock
    object on which no persistent bump was applied before, and two bump
    values [p1] and [p2] such that [total_minutes + p1] and
    [total_minutes + p2] are neither negative nor beyond 32 bits (and
    [p2 - p1] is an [int]).  After the bump was applied with value
    [p1], changing it to [p2] and applying again leaves [total_minutes]
    at its first value plus [p2], where applying [p2] alone would have
    put it; and applying once more without a change does nothing. *)
Theorem persistent_bump_is_absolute (r : fake_rtc) (p1 p2 : Z) :
  enabled (state_ r) = true -> rtc_wf (state_ r) ->
  previous_persistent_bump_ r = 0 ->
  INT_MIN <= p1 <= INT_MAX -> INT_MIN <= p2 <= INT_MAX ->
  INT_MIN <= p2 - p1 <= INT_MAX ->
  0 <= total_minutes (state_ r) + p1 < 2 ^ 32 ->
  0 <= total_minutes (state_ r) + p2 < 2 ^ 32 ->
  let r1 := apply_persistent_bump (set_persistent_bump r p1) in
  let r2 := apply_persistent_bump (set_persistent_bump r1 p2) in
  total_minutes (state_ r2) = total_minutes (state_ r) + p2 /\
  total_minutes (state_ r2)
    = total_minutes
        (state_ (apply_persistent_bump (set_persistent_bump r p2))) /\
  apply_persistent_bump r2 = r2.
Proof.
  intros He Hwf Hprev Hp1 Hp2 Hd H1 H2. cbv zeta.
  destruct (apply_persistent_bump_total (set_persistent_bump r p1))
    as (Ht1 & Hpv1 & Hps1 & _ & _ & He1 & Hwf1);
    cbn; rewrite ?Hprev, ?Z.sub_0_r; try assumption.
  cbn in Ht1, Hpv1. rewrite Hprev, Z.sub_0_r in Ht1.
  set (r1 := apply_persistent_bump (set_persistent_bump r p1)) in *.
  destruct (apply_persistent_bump_total (set_persistent_bump r1 p2))
    as (Ht2 & Hpv2 & Hps2 & _ & _ & He2 & Hwf2);
    cbn; rewrite ?Hpv1, ?Ht1; try assumption; try lia.
  cbn in Ht2, Hpv2, Hps2. rewrite Hpv1, Ht1 in Ht2.
  set (r2 := apply_persistent_bump (set_persistent_bump r1 p2)) in *.
  destruct (apply_persistent_bump_total (set_persistent_bump r p2))
    as (Ht3 & _);
    cbn; rewrite ?Hprev, ?Z.sub_0_r; try assumption.
  cbn in Ht3. rewrite Hprev, Z.sub_0_r in Ht3.
  split; [lia |]. split; [lia |].
  unfold apply_persistent_bump at 1. rewrite He2. cbn [negb].
  rewrite Hpv2, Hps2, Z.sub_diag. reflexivity.
Qed.





(** X5: [update] writes the save file at most once per [SAVE_INTERVAL].
    While every reading of the system clock is less than 300 seconds
    after [last_save_time_], [update] leaves all files and
    [last_save_time_] as they are. *)
Theorem update_respects_save_interval (r : fake_rtc) (o : os) :
  (forall n, u32 (u32 (clock o n) - last_save_time_ r) < SAVE_INTERVAL) ->
  let '(r', o') := update big_endian r o in
  files o' = files o /\ last_save_time_ r' = last_save_time_ r.
Proof.
  intros Hearly. unfold update.
  destruct (enabled (state_ r)); cbn [negb]; [| auto].
  unfold update_elapsed_time, get_current_unix_time, time.
  destruct (60 <=? _); unfold should_save; cbn.
  - unfold get_current_unix_time, time. cbn.
    specialize (Hearly (S (clock_calls o))).
    destruct (Z.leb_spec SAVE_INTERVAL
                (u32 (u32 (clock o (S (clock_calls o))) - last_save_time_ r)));
      [lia | auto].
  - destruct (needs_save (state_ r)); cbn; [| auto].
    specialize (Hearly (S (clock_calls o))).
    destruct (Z.leb_spec SAVE_INTERVAL
                (u32 (u32 (clock o (S (clock_calls o))) - last_save_time_ r)));
      [lia | auto].
Qed.

(** X6: [set_base_time] stores its argument mirrored at the present, and
    [get_base_time] returns that, not the argument.  With the clock
    enabled and the system clock reading [now], [set_base_time base]
    sets the fake time to [now + (now - base)], whenever that instant is
    not before the epoch of 1 January 2000; [get_base_time] then returns
    this instant rounded down to a whole minute after the epoch (a value
    [g] with [g <= 2 * now - base < g + 60]), and [needs_save] is
    set. *)
Theorem base_time_round_trip (r : fake_rtc) (o : os) (base_time : Z) :
  enabled (state_ r) = true ->
  let now := u32 (clock o (clock_calls o)) in
  0 <= base_time < 2 ^ 64 ->
  EPOCH_TIMESTAMP <= 2 * now - base_time ->
  let '(r', o') := set_base_time r o base_time in
  let g := fst (get_base_time r' o') in
  g <= 2 * now - base_time < g + 60 /\
  (g - EPOCH_TIMESTAMP) mod 60 = 0 /\ needs_save (state_ r') = true.
Proof.
  intros He now Hb Hep. unfold set_base_time, get_current_unix_time, time.
  rewrite He. cbn [negb]. fold now.
  assert (Hnow : 0 <= now < 2 ^ 32) by apply u32_range.
  assert (Hft : u64 (u64 (now - base_time) + now) = 2 * now - base_time).
  { unfold u64. rewrite Zplus_mod_idemp_l.
    replace (now - base_time + now) with (2 * now - base_time) by lia.
    apply Z.mod_small. unfold EPOCH_TIMESTAMP in Hep. lia. }
  rewrite Hft.
  destruct (Z.leb_spec EPOCH_TIMESTAMP (2 * now - base_time)); [| lia].
  unfold get_base_time. cbn. rewrite He. cbn.
  unfold EPOCH_TIMESTAMP in *.
  rewrite (u32_small ((2 * now - base_time - 946684800) / 60)) by zdiv.
  rewrite (u64_small ((2 * now - base_time - 946684800) / 60 * 60)) by zdiv.
  rewrite u64_small by zdiv.
  repeat split; zdiv.
Qed.

End Target.

(** X7: a bump forward and the same bump back cancel only in that order.
    With the clock enabled, [bump_time a] followed by [bump_time (-a)]
    restores [total_minutes] (when the sum fits 32 bits), but
    [bump_time (-a)] followed by [bump_time a] leaves the larger of
    [total_minutes] and [a]: minutes cut off at zero on the way back do
    not return. *)
Theorem bump_there_and_back (s : fake_rtc_state_type) (a : Z) :
  enabled s = true -> rtc_wf s -> 0 < a <= INT_MAX ->
  (total_minutes s + a < 2 ^ 32 ->
   total_minutes (bump_time (bump_time s a) (- a)) = total_minutes s) /\
  total_minutes (bump_time (bump_time s (- a)) a) = Z.max (total_minutes s) a.
Proof.
  unfold INT_MAX. intros He Hwf Ha. pose proof Hwf as Hwf'.
  unfold rtc_wf in Hwf'. split.
  - intros Hfit.
    assert (H1 : total_minutes (bump_time s a) = total_minutes s + a)
      by (apply bump_time_exact; unfold INT_MIN, INT_MAX; try assumption; lia).
    rewrite bump_time_exact; rewrite ?bump_time_enabled, ?H1;
      unfold INT_MIN, INT_MAX; try assumption; try lia.
    now apply bump_time_wf.
  - destruct (Z.lt_ge_cases (total_minutes s) a) as [Hlt | Hge].
    + assert (H1 : total_minutes (bump_time s (- a)) = 0).
      { apply bump_time_floor; unfold INT_MIN; try assumption; lia. }
      rewrite bump_time_exact; rewrite ?bump_time_enabled, ?H1;
        unfold INT_MIN, INT_MAX; try assumption; try lia.
      now apply bump_time_wf.
    + assert (H1 : total_minutes (bump_time s (- a)) = total_minutes s - a).
      { rewrite bump_time_exact; unfold INT_MIN, INT_MAX; try assumption; lia. }
      rewrite bump_time_exact; rewrite ?bump_time_enabled, ?H1;
        unfold INT_MIN, INT_MAX; try assumption; try lia.
      now apply bump_time_wf.
Qed.

(** *** The options file *)

Lemma getline_spec s :
  let '(line, rest) := getline s in
  (LF ∉ line) /\
  (s = line ++ LF :: rest \/ (s = line /\ rest = [])) /\
  (s <> [] -> (length rest < length s)%nat).
Proof.
  induction s as [| c s IH]; cbn [getline].
  - split; [apply not_elem_of_nil |]. split; [right; auto | congruence].
  - destruct (Ascii.eqb_spec c LF) as [-> | Hne].
    + split; [apply not_elem_of_nil |]. split; [left; reflexivity |].
      intros _. cbn. lia.
    + destruct (getline s) as [line rest].
      destruct IH as (Hno & Hs & Hlen).
      split; [| split].
      * intros Hin. apply elem_of_cons in Hin. destruct Hin; congruence.
      * destruct Hs as [-> | [-> ->]]; [left | right]; auto.
      * intros _. cbn. destruct s as [| d s'].
        -- cbn in *. destruct Hs as [Hs | [_ ->]]; [| cbn; lia].
           destruct line; discriminate.
        -- specialize (Hlen ltac:(congruence)). cbn in *. lia.
Qed.

Lemma getline_app line rest :
  LF ∉ line -> getline (line ++ LF :: rest) = (line, rest).
Proof.
  induction line as [| c line IH]; intros Hno; cbn [app getline].
  - now rewrite Ascii.eqb_refl.
  - apply not_elem_of_cons in Hno. destruct Hno as [Hc Hno].
    destruct (Ascii.eqb_spec c LF); [congruence |].
    now rewrite IH.
Qed.

Lemma lines_of_enough fuel : forall s,
  (length s <= fuel)%nat -> lines_of fuel s = text_lines s.
Proof.
  unfold text_lines.
  induction fuel as [fuel IH] using lt_wf_ind. intros s Hf.
  destruct s as [| c s]; [destruct fuel; reflexivity |].
  destruct fuel as [| fuel]; [cbn in Hf; lia |].
  cbn [length] in Hf. cbn [lines_of length].
  pose proof (getline_spec (c :: s)) as Hg.
  destruct (getline (c :: s)) as [line rest].
  destruct Hg as (_ & _ & Hlen). specialize (Hlen ltac:(congruence)).
  cbn [length] in Hlen. f_equal.
  rewrite (IH fuel) by lia.
  rewrite (IH (length s)) by lia. reflexivity.
Qed.

Lemma text_lines_cons line rest :
  LF ∉ line -> text_lines (line ++ LF :: rest) = line :: text_lines rest.
Proof.
  intros Hno. unfold text_lines at 1.
  destruct (line ++ LF :: rest) as [| c s] eqn:E;
    [destruct line; discriminate |].
  cbn [length lines_of]. rewrite <- E, (getline_app _ _ Hno). f_equal.
  apply lines_of_enough.
  assert (Hl : length (line ++ LF :: rest) = length (c :: s)) by now rewrite E.
  rewrite length_app in Hl. cbn [length] in Hl. lia.
Qed.

(** Reading back what was written line by line gives the lines. *)
Lemma text_lines_unlines (ls : list (list ascii)) :
  Forall (fun l => LF ∉ l) ls ->
  text_lines (concat (map (fun l => l ++ [LF]) ls)) = ls.
Proof.
  induction 1 as [| l ls Hl _ IH]; [reflexivity |].
  cbn [map concat]. rewrite <- app_assoc. cbn [app].
  rewrite text_lines_cons by assumption. now rewrite IH.
Qed.

Lemma lines_of_no_lf fuel : forall s, Forall (fun l => LF ∉ l) (lines_of fuel s).
Proof.
  induction fuel as [| fuel IH]; intros s.
  - destruct s; constructor.
  - destruct s as [| c s]; [constructor |]. cbn [lines_of].
    pose proof (getline_spec (c :: s)) as Hg.
    destruct (getline (c :: s)) as [line rest].
    constructor; [apply Hg | apply IH].
Qed.

Lemma rewrite_lines_spec option_name new_value fuel :
  forall input file_content found,
  let hit := starts_with (option_name ++ list_ascii_of_string " = ") in
  rewrite_lines fuel input option_name new_value file_content found =
  (file_content
   ++ concat (map (fun l => (if hit l then option_line option_name new_value
                             else l) ++ [LF])
                (lines_of fuel input)),
   found || existsb hit (lines_of fuel input)).
Proof.
  cbv zeta. induction fuel as [| fuel IH]; intros input file_content found.
  - destruct input; cbn; now rewrite app_nil_r, orb_false_r.
  - destruct input as [| c s]; [cbn; now rewrite app_nil_r, orb_false_r |].
    cbn [rewrite_lines lines_of].
    destruct (getline (c :: s)) as [line rest].
    cbn [map concat existsb].
    destruct (starts_with (option_name ++ list_ascii_of_string " = ") line).
    + rewrite IH. unfold option_line. cbn [orb].
      rewrite orb_true_r. f_equal.
      rewrite <- !app_assoc. cbn [app]. reflexivity.
    + rewrite IH. cbn [orb]. f_equal. now rewrite <- !app_assoc.
Qed.

(** X8: [find_and_modify_opt_file] rewrites the option's lines and
    nothing else.  When some line of the options file starts with
    [option_name = ], the file is written back with each such line
    replaced by [option_name = "new_value"] and every other line, and
    the order of the lines, unchanged; no other file is touched.  When
    no line matches, the function reports failure and leaves every file
    as it is. *)
Theorem opt_file_rewrite_keeps_other_lines (r : fake_rtc) (o : os)
  (option_name new_value input : list ascii) :
  LF ∉ option_name -> LF ∉ new_value ->
  let path := get_opt_file_path r o in
  is_empty path = false -> files o !! path = Some input ->
  unwritable o path = false ->
  let hit := starts_with (option_name ++ list_ascii_of_string " = ") in
  if existsb hit (text_lines input) then
    exists o' content,
      find_and_modify_opt_file r o option_name new_value = (true, o') /\
      files o' !! path = Some content /\
      text_lines content =
        map (fun l => if hit l then option_line option_name new_value else l)
          (text_lines input) /\
      forall other, other <> path -> files o' !! other = files o !! other
  else find_and_modify_opt_file r o option_name new_value = (false, o).
Proof.
  intros Hname Hvalue path Hpath Hfile Hw hit.
  unfold find_and_modify_opt_file. fold path. rewrite Hpath, Hfile.
  pose proof (rewrite_lines_spec option_name new_value (length input) input
                [] false) as Hrw.
  cbv zeta in Hrw. fold hit in Hrw. rewrite Hrw. clear Hrw.
  fold (text_lines input). cbn [orb app].
  destruct (existsb hit (text_lines input)); cbn [negb]; [| reflexivity].
  unfold write_file. rewrite Hw.
  eexists _, _. split; [reflexivity |]. cbn [files set_files].
  split; [apply lookup_insert_eq |]. split.
  - rewrite <- (map_map (fun l => if hit l
                                  then option_line option_name new_value
                                  else l) (fun l => l ++ [LF])).
    apply text_lines_unlines.
    apply Forall_map.
    eapply Forall_impl; [apply (lines_of_no_lf (length input) input) |].
    intros l Hl. cbn. destruct (hit l); [| exact Hl].
    unfold option_line. rewrite !not_elem_of_app.
    repeat split; try assumption;
      intros Hin; repeat (apply elem_of_cons in Hin; destruct Hin as [Hin | Hin];
                          [discriminate |]);
      now apply elem_of_nil in Hin.
  - intros other Hne. now apply lookup_insert_ne.
Qed.

(** *** Concrete runs *)

Lemma update_elapsed_time_keeps_seconds_witness :
  seconds_at
    (state_ (fst (update_elapsed_time (sample_rtc 100 "saves")
                    (sample_os 125 ∅)))) 125
  = seconds_at (state_ (sample_rtc 100 "saves")) 125 /\
  u32 (125 - last_real_time
               (state_ (fst (update_elapsed_time (sample_rtc 100 "saves")
                               (sample_os 125 ∅))))) < 60.
Proof.
  apply (update_elapsed_time_keeps_seconds (sample_rtc 100 "saves")
           (sample_os 125 ∅)).
  - unfold rtc_wf. cbn. lia.
  - vm_compute. reflexivity.
Defined.

Lemma saved_minutes_load_back_witness :
  let '(r', o') := save false (sample_rtc 123456 "saves") (sample_os 1000 ∅) in
  total_minutes (state_ (load false (sample_rtc 0 "saves") o')) = 123456 /\
  needs_save (state_ r') = false.
Proof.
  apply (saved_minutes_load_back false (sample_rtc 123456 "saves")
           (sample_rtc 0 "saves") (sample_os 1000 ∅));
    try reflexivity.
  unfold rtc_wf. cbn. lia.
Defined.

Lemma persistent_bump_is_absolute_witness :
  let r1 := apply_persistent_bump
              (set_persistent_bump (sample_rtc 1000 "saves") 30) in
  let r2 := apply_persistent_bump (set_persistent_bump r1 (-20)) in
  total_minutes (state_ r2) = 1000 + -20 /\
  total_minutes (state_ r2)
    = total_minutes
        (state_ (apply_persistent_bump
                   (set_persistent_bump (sample_rtc 1000 "saves") (-20)))) /\
  apply_persistent_bump r2 = r2.
Proof.
  apply (persistent_bump_is_absolute (sample_rtc 1000 "saves") 30 (-20));
    try reflexivity; unfold rtc_wf, INT_MIN, INT_MAX; cbn; lia.
Defined.


Lemma update_respects_save_interval_witness :
  let '(r', o') :=
    update false (set_last_save_time (sample_rtc 5 "saves") 900)
      (frozen_os 1000 ∅) in
  files o' = files (frozen_os 1000 ∅) /\ last_save_time_ r' = 900.
Proof.
  apply (update_respects_save_interval false
           (set_last_save_time (sample_rtc 5 "saves") 900) (frozen_os 1000 ∅)).
  intros n. vm_compute. reflexivity.
Defined.

Lemma base_time_round_trip_witness :
  let '(r', o') :=
    set_base_time (sample_rtc 0 "saves") (frozen_os 1700000000 ∅)
      1699999017 in
  let g := fst (get_base_time r' o') in
  g <= 2 * 1700000000 - 1699999017 < g + 60 /\
  (g - EPOCH_TIMESTAMP) mod 60 = 0 /\ needs_save (state_ r') = true.
Proof.
  apply (base_time_round_trip (sample_rtc 0 "saves")
           (frozen_os 1700000000 ∅) 1699999017).
  - reflexivity.
  - lia.
  - vm_compute. discriminate.
Defined.

Lemma bump_there_and_back_witness :
  (total_minutes (rtc_sample 5 true) + 10 < 2 ^ 32 ->
   total_minutes (bump_time (bump_time (rtc_sample 5 true) 10) (- 10)) = 5) /\
  total_minutes (bump_time (bump_time (rtc_sample 5 true) (- 10)) 10) = 10.
Proof.
  apply (bump_there_and_back (rtc_sample 5 true) 10).
  - reflexivity.
  - unfold rtc_wf. cbn. lia.
  - unfold INT_MAX. lia.
Defined.

Lemma sample_name_no_lf :
  LF ∉ list_ascii_of_string "gambatte_fake_rtc_one_off_bump_minutes".
Proof.
  intros H. cbn in H.
  repeat (apply elem_of_cons in H; destruct H as [H | H]; [discriminate |]).
  now apply elem_of_nil in H.
Qed.

Lemma sample_value_no_lf : LF ∉ list_ascii_of_string "0".
Proof.
  intros H. cbn in H.
  repeat (apply elem_of_cons in H; destruct H as [H | H]; [discriminate |]).
  now apply elem_of_nil in H.
Qed.

Lemma opt_file_rewrite_keeps_other_lines_witness :
  exists o' content,
    find_and_modify_opt_file (sample_rtc 0 "saves")
      (sample_os 0 sample_files)
      (list_ascii_of_string "gambatte_fake_rtc_one_off_bump_minutes")
      (list_ascii_of_string "0") = (true, o') /\
    files o' !! "saves/gambatte.opt"%string = Some content /\
    text_lines content =
      [ option_line (list_ascii_of_string "gambatte_fake_rtc")
          (list_ascii_of_string "enabled");
        option_line
          (list_ascii_of_string "gambatte_fake_rtc_one_off_bump_minutes")
          (list_ascii_of_string "0");
        option_line (list_ascii_of_string "gambatte_up_down_allowed")
          (list_ascii_of_string "disabled") ] /\
    forall other, other <> "saves/gambatte.opt"%string ->
      files o' !! other = files (sample_os 0 sample_files) !! other.
Proof.
  exact (opt_file_rewrite_keeps_other_lines (sample_rtc 0 "saves")
           (sample_os 0 sample_files)
           (list_ascii_of_string "gambatte_fake_rtc_one_off_bump_minutes")
           (list_ascii_of_string "0") sample_opt_file
           sample_name_no_lf sample_value_no_lf eq_refl eq_refl eq_refl).
Defined.

End RtcObjectFacts.

(** ** Turbo timing, palette selection and the speed states: properties *)

Module InputMoreFacts.
Import Mach MachFacts Input InputFacts InputMore.

(** *** The speed states *)

Lemma sf2000_chords_slowmo sel a b sp :
  let sp' := fst (sf2000_chords sel a b sp) in
  let a_edge := (sel && a) && negb (sf2000_select_a_prev sp) in
  let b_edge := (sel && b) && negb (sf2000_select_b_prev sp) in
  sf2000_slowmotion_state sp' =
    (if b_edge
     then u32 ((if a_edge then 0 else sf2000_slowmotion_state sp) + 1) mod 3
     else if a_edge then 0 else sf2000_slowmotion_state sp).
Proof.
  cbv zeta. unfold sf2000_chords, select_a_chord, select_b_chord.
  destruct ((sel && a) && negb (sf2000_select_a_prev sp));
    cbn; destruct ((sel && b) && negb (sf2000_select_b_prev sp)); reflexivity.
Qed.

Lemma update_input_state_slowmo k cb cfg sp pd :
  let sp' := fst (fst (update_input_state k cb cfg sp pd)) in
  let a_edge := chord_a k cfg cb && negb (sf2000_select_a_prev sp) in
  let b_edge := chord_b k cfg cb && negb (sf2000_select_b_prev sp) in
  sf2000_slowmotion_state sp' =
    (if b_edge
     then u32 ((if a_edge then 0 else sf2000_slowmotion_state sp) + 1) mod 3
     else if a_edge then 0 else sf2000_slowmotion_state sp).
Proof.
  cbv zeta. rewrite update_input_state_speed. apply sf2000_chords_slowmo.
Qed.

Lemma update_input_state_speed_ok k cb cfg sp pd :
  speed_ok sp -> speed_ok (fst (fst (update_input_state k cb cfg sp pd))).
Proof.
  intros (Hff & Hsm & Hex). unfold speed_ok.
  pose proof (update_input_state_ff k cb cfg sp pd) as Hf.
  pose proof (update_input_state_slowmo k cb cfg sp pd) as Hs.
  cbv zeta in Hf, Hs. destruct Hf as (Hf & _). rewrite Hf, Hs.
  destruct (chord_b k cfg cb && negb (sf2000_select_b_prev sp));
    destruct (chord_a k cfg cb && negb (sf2000_select_a_prev sp));
    rewrite ?ff_step_mod3 by lia; rewrite ?u32_small by lia;
    repeat split; try lia;
    try (apply Z.mod_pos_bound; lia); try (left; reflexivity);
    try (right; reflexivity); try assumption.
Qed.

(** X9: fast forward and slow motion exclude each other.  From any state
    in which both speed states are in range and at most one is on (the
    startup state is one), every run of passes, whatever the buttons,
    ends in such a state. *)
Theorem speed_states_exclude_each_other (k : abi)
  (ticks : list (pad_config * (Z -> Z))) (sp : speed) (pd : pad) :
  speed_ok sp -> speed_ok (fst (run_inputs k ticks sp pd)).
Proof.
  revert sp pd. induction ticks as [| [cfg cb] rest IH]; intros sp pd Hok.
  - exact Hok.
  - cbn [run_inputs].
    pose proof (update_input_state_speed_ok k cb cfg sp pd Hok) as Hstep.
    destruct (update_input_state k cb cfg sp pd) as [[sp' pd'] evs].
    now apply IH.
Qed.

Lemma run_inputs_slowmo k ticks : forall sp pd,
  0 <= sf2000_slowmotion_state sp < 3 ->
  no_a_edge k (sf2000_select_a_prev sp) ticks = true ->
  sf2000_slowmotion_state (fst (run_inputs k ticks sp pd)) =
  (sf2000_slowmotion_state sp
   + Z.of_nat (b_edges k (sf2000_select_b_prev sp) ticks)) mod 3.
Proof.
  induction ticks as [| [cfg cb] rest IH]; intros sp pd Hsm Hna.
  - cbn. rewrite Z.add_0_r. symmetry. apply Z.mod_small. lia.
  - cbn [run_inputs b_edges no_a_edge] in *.
    apply andb_true_iff in Hna. destruct Hna as [Ha Hrest].
    apply negb_true_iff in Ha.
    pose proof (update_input_state_ff k cb cfg sp pd) as Hstep.
    pose proof (update_input_state_slowmo k cb cfg sp pd) as Hs.
    destruct (update_input_state k cb cfg sp pd) as [[sp' pd'] evs].
    cbn in Hstep, Hs. destruct Hstep as (_ & Hap & Hbp).
    rewrite Ha in Hs.
    assert (Hrange : 0 <= sf2000_slowmotion_state sp' < 3).
    { rewrite Hs. destruct (chord_b k cfg cb && negb _); [| lia].
      apply Z.mod_pos_bound. lia. }
    rewrite IH; [| assumption | rewrite Hap; assumption].
    rewrite Hbp, Hs.
    destruct (chord_b k cfg cb && negb (sf2000_select_b_prev sp)).
    + rewrite u32_small by lia.
      rewrite Nat2Z.inj_add. change (Z.of_nat 1) with 1.
      rewrite Zplus_mod_idemp_l. f_equal. lia.
    + rewrite Nat2Z.inj_add. change (Z.of_nat 0) with 0. f_equal.
Qed.

Lemma run_inputs_ff_off k ticks : forall sp pd,
  sf2000_fastforward_state sp = 0 ->
  no_a_edge k (sf2000_select_a_prev sp) ticks = true ->
  sf2000_fastforward_state (fst (run_inputs k ticks sp pd)) = 0.
Proof.
  induction ticks as [| [cfg cb] rest IH]; intros sp pd Hff Hna.
  - exact Hff.
  - cbn [run_inputs no_a_edge] in *.
    apply andb_true_iff in Hna. destruct Hna as [Ha Hrest].
    apply negb_true_iff in Ha.
    pose proof (update_input_state_ff k cb cfg sp pd) as Hstep.
    destruct (update_input_state k cb cfg sp pd) as [[sp' pd'] evs].
    cbn in Hstep. destruct Hstep as (Hf & Hap & _).
    rewrite Ha in Hf.
    apply IH; [| rewrite Hap; assumption].
    rewrite Hf. destruct (chord_b k cfg cb && negb _); [reflexivity | exact Hff].
Qed.

(** X10: the slow-motion state counts SELECT+B edges.  Starting from
    normal speed, over any run of passes in which the SELECT+A chord has
    no rising edge, the slow-motion state is the number of rising edges
    of the SELECT+B chord modulo 3, and fast forward stays off. *)
Theorem slowmotion_state_counts_chord_edges (k : abi)
  (ticks : list (pad_config * (Z -> Z))) (sp : speed) (pd : pad) :
  sf2000_slowmotion_state sp = 0 -> sf2000_fastforward_state sp = 0 ->
  no_a_edge k (sf2000_select_a_prev sp) ticks = true ->
  let sp' := fst (run_inputs k ticks sp pd) in
  sf2000_slowmotion_state sp' =
    Z.of_nat (b_edges k (sf2000_select_b_prev sp) ticks) mod 3 /\
  sf2000_fastforward_state sp' = 0.
Proof.
  intros H0 Hff Hna. cbv zeta. split.
  - rewrite run_inputs_slowmo by (rewrite ?H0; auto; lia). now rewrite H0.
  - now apply run_inputs_ff_off.
Qed.

(** *** The turbo buttons *)

Lemma run_inputs_app k a : forall b sp pd,
  run_inputs k (a ++ b) sp pd =
  run_inputs k b (fst (run_inputs k a sp pd)) (snd (run_inputs k a sp pd)).
Proof.
  induction a as [| [cfg cb] a IH]; intros b sp pd; [reflexivity |].
  cbn [app run_inputs].
  destruct (update_input_state k cb cfg sp pd) as [[sp' pd'] evs]. apply IH.
Qed.

Lemma update_input_state_turbo_a k cb cfg sp pd :
  turbo_a_counter (snd (fst (update_input_state k cb cfg sp pd))) =
  snd (turbo_button (pressed k cfg cb (JOYPAD_X k)) (turbo_a_counter pd)
         (turbo_period cfg) (turbo_pulse_width cfg) (IG_A k)
         (if negb (up_down_allowed cfg)
          then clear_opposites k (read_buttons k (pressed k cfg cb))
          else read_buttons k (pressed k cfg cb))).
Proof.
  unfold update_input_state. cbv zeta.
  destruct (sf2000_chords _ _ _ sp) as [sp' evs].
  destruct (turbo_button _ _ _ _ (IG_A k) _) as [r1 ta]. cbn [snd].
  destruct (turbo_button _ _ _ _ (IG_B k) r1) as [r2 tb].
  destruct (palette_switch _ _ _ _) as [pc evp]. reflexivity.
Qed.

Lemma has_lor res x m : has (Z.lor res x) m = has res m || has x m.
Proof.
  unfold has. rewrite Z.land_lor_distr_l.
  destruct (Z.eqb_spec (Z.land res (u32 m)) 0) as [E1 | N1];
    destruct (Z.eqb_spec (Z.land x (u32 m)) 0) as [E2 | N2]; cbn.
  - rewrite E1, E2. reflexivity.
  - rewrite E1, Z.lor_0_l. now apply negb_true_iff, Z.eqb_neq.
  - rewrite E2, Z.lor_0_r. now apply negb_true_iff, Z.eqb_neq.
  - apply negb_true_iff, Z.eqb_neq. intros H0. apply Z.lor_eq_0_iff in H0.
    tauto.
Qed.

Lemma has_0 m : has 0 m = false.
Proof. unfold has. now rewrite Z.land_0_l. Qed.

Lemma has_other (p : bool) m a :
  0 <= m < 2 ^ 31 -> 0 <= a < 2 ^ 31 -> Z.land m a = 0 ->
  has (if p then u32 m else 0) a = false.
Proof.
  intros Hm Ha Hdis. destruct p; [| apply has_0].
  unfold has. rewrite !u32_small by lia. now rewrite Hdis.
Qed.

Lemma read_buttons_without_a k is_pressed :
  a_mask_apart k -> is_pressed (u32 (JOYPAD_A k)) = false ->
  has (read_buttons k is_pressed) (IG_A k) = false.
Proof.
  intros [Ha Hothers] Hnot. unfold read_buttons, btn_map.
  cbn [fold_left fst snd]. rewrite Hnot.
  repeat match goal with H : Forall _ (_ :: _) |- _ => inversion_clear H end.
  repeat match goal with H : _ /\ Z.land _ _ = 0 |- _ => destruct H end.
  rewrite !has_lor, has_0.
  rewrite !has_other by (assumption || lia). reflexivity.
Qed.

Lemma a_mask_keeps_clear k res :
  has res (IG_A k) = false -> has (clear_opposites k res) (IG_A k) = false.
Proof.
  intros H. unfold clear_opposites. now do 2 apply clear_pair_keeps_zero.
Qed.

(** One pass with turbo A held and A itself released. *)
Lemma turbo_a_step k cfg cb sp pd :
  a_mask_apart k -> 0 <= JOYPAD_A k < 2 ^ 32 ->
  pressed k cfg cb (JOYPAD_X k) = true ->
  pressed k cfg cb (JOYPAD_A k) = false ->
  let pd' := snd (fst (update_input_state k cb cfg sp pd)) in
  has (libretro_input_state pd') (IG_A k)
    = (turbo_a_counter pd <? turbo_pulse_width cfg) /\
  turbo_a_counter pd' =
    (if turbo_period cfg <=? u32 (turbo_a_counter pd + 1) then 0
     else u32 (turbo_a_counter pd + 1)).
Proof.
  intros Hk Hid Hx Hna. cbv zeta. split.
  - rewrite update_input_state_res. cbv zeta. rewrite Hx.
    pose proof Hk as [Ha Hothers].
    assert (HB : 0 <= IG_B k < 2 ^ 31 /\ Z.land (IG_B k) (IG_A k) = 0)
      by (inversion_clear Hothers; assumption).
    rewrite turbo_button_has by (try lia; apply HB).
    unfold turbo_button at 1. cbn [fst].
    rewrite has_lor.
    assert (Hclear : has (if negb (up_down_allowed cfg)
                          then clear_opposites k
                                 (read_buttons k (pressed k cfg cb))
                          else read_buttons k (pressed k cfg cb)) (IG_A k)
                     = false).
    { assert (Hr : has (read_buttons k (pressed k cfg cb)) (IG_A k) = false).
      { apply read_buttons_without_a; [assumption |].
        rewrite u32_small by assumption. exact Hna. }
      destruct (negb (up_down_allowed cfg)); [| exact Hr].
      now apply a_mask_keeps_clear. }
    rewrite Hclear. cbn [orb].
    destruct (turbo_a_counter pd <? turbo_pulse_width cfg); [| apply has_0].
    unfold has. rewrite !u32_small by lia. rewrite Z.land_diag.
    apply negb_true_iff, Z.eqb_neq. lia.
  - rewrite update_input_state_turbo_a, Hx. reflexivity.
Qed.

Lemma turbo_counter_step c P :
  0 < P < 2 ^ 32 -> 0 <= c < P ->
  (if P <=? u32 (c + 1) then 0 else u32 (c + 1)) = (c + 1) mod P.
Proof.
  intros HP Hc. rewrite u32_small by lia.
  destruct (Z.leb_spec P (c + 1)).
  - assert (c + 1 = P) by lia. subst P. symmetry. apply Z.mod_same. lia.
  - symmetry. apply Z.mod_small. lia.
Qed.

Lemma turbo_a_counter_runs k P ticks : forall sp pd,
  a_mask_apart k -> 0 <= JOYPAD_A k < 2 ^ 32 ->
  0 < P < 2 ^ 32 -> 0 <= turbo_a_counter pd < P ->
  Forall (turbo_a_held k P) ticks ->
  turbo_a_counter (snd (run_inputs k ticks sp pd))
  = (turbo_a_counter pd + Z.of_nat (length ticks)) mod P.
Proof.
  induction ticks as [| [cfg cb] rest IH]; intros sp pd Hk Hid HP Hc Hall.
  - cbn. rewrite Z.add_0_r. symmetry. apply Z.mod_small. lia.
  - inversion_clear Hall as [| ? ? (Hper & Hx & Hna) Hrest].
    cbn [fst snd] in Hper, Hx, Hna. cbn [run_inputs length].
    destruct (turbo_a_step k cfg cb sp pd Hk Hid Hx Hna) as [_ Hcnt].
    cbv zeta in Hcnt.
    destruct (update_input_state k cb cfg sp pd) as [[sp' pd'] evs].
    cbn [fst snd] in Hcnt. rewrite Hper, turbo_counter_step in Hcnt
      by assumption.
    rewrite IH; try assumption.
    + rewrite Hcnt, Zplus_mod_idemp_l. f_equal. lia.
    + rewrite Hcnt. apply Z.mod_pos_bound. lia.
Qed.

(** X11: the turbo button pulses with its period.  While RetroPad X is
    held (and A itself is not) with turbo period [P], button A reaches
    the core on exactly the passes whose position in the cycle of [P]
    passes is below the pulse width: on the pass after [n] such passes
    it is pressed if and only if [(c + n) mod P < W], [c] being the turbo
    counter at the start. *)
Theorem turbo_a_pulses_with_period (k : abi) (P : Z)
  (ticks : list (pad_config * (Z -> Z))) (cfg : pad_config) (cb : Z -> Z)
  (sp : speed) (pd : pad) :
  a_mask_apart k -> 0 <= JOYPAD_A k < 2 ^ 32 ->
  0 < P < 2 ^ 32 -> 0 <= turbo_a_counter pd < P ->
  Forall (turbo_a_held k P) (ticks ++ [(cfg, cb)]) ->
  let pd' := snd (run_inputs k (ticks ++ [(cfg, cb)]) sp pd) in
  has (libretro_input_state pd') (IG_A k)
    = ((turbo_a_counter pd + Z.of_nat (length ticks)) mod P
       <? turbo_pulse_width cfg) /\
  turbo_a_counter pd'
    = (turbo_a_counter pd + Z.of_nat (length ticks) + 1) mod P.
Proof.
  intros Hk Hid HP Hc Hall. cbv zeta.
  apply Forall_app in Hall. destruct Hall as [Hfront Hlast].
  inversion_clear Hlast as [| ? ? (Hper & Hx & Hna) _].
  cbn [fst snd] in Hper, Hx, Hna.
  rewrite run_inputs_app. cbn [run_inputs].
  pose proof (turbo_a_counter_runs k P ticks sp pd Hk Hid HP Hc Hfront) as Hcnt.
  destruct (run_inputs k ticks sp pd) as [sp1 pd1]. cbn [fst snd] in *.
  destruct (turbo_a_step k cfg cb sp1 pd1 Hk Hid Hx Hna) as [Hhas Hnext].
  cbv zeta in Hhas, Hnext.
  destruct (update_input_state k cb cfg sp1 pd1) as [[sp' pd'] evs].
  cbn [fst snd] in *. rewrite Hhas, Hnext, Hper, Hcnt. split; [reflexivity |].
  rewrite turbo_counter_step; [| assumption | apply Z.mod_pos_bound; lia].
  now rewrite Zplus_mod_idemp_l.
Qed.

(** X12: the turbo timing read from the options is always usable.
    Whatever number the option holds (negative numbers included, which
    the conversion to [unsigned] makes huge), the period ends between 4
    and 120 passes and the pulse width between 2 and 15, never more than
    half the period, so a held turbo button is released for at least as
    many passes of each cycle as it is pressed; both turbo counters
    restart.  Without the option the defaults 4 and 2 apply. *)
Theorem turbo_timing_stays_in_range (value : option Z) (cfg : pad_config)
  (pd : pad) :
  let '(cfg', pd') := check_variables_turbo value cfg pd in
  TURBO_PERIOD_MIN <= turbo_period cfg' <= TURBO_PERIOD_MAX /\
  TURBO_PULSE_WIDTH_MIN <= turbo_pulse_width cfg' <= TURBO_PULSE_WIDTH_MAX /\
  2 * turbo_pulse_width cfg' <= turbo_period cfg' /\
  (value = None ->
   turbo_period cfg' = 4 /\ turbo_pulse_width cfg' = 2 /\ pd' = pd) /\
  (value <> None -> turbo_a_counter pd' = 0 /\ turbo_b_counter pd' = 0).
Proof.
  unfold check_variables_turbo, TURBO_PERIOD_MIN, TURBO_PERIOD_MAX,
    TURBO_PULSE_WIDTH_MIN, TURBO_PULSE_WIDTH_MAX.
  destruct value as [v |]; cbn [turbo_period turbo_pulse_width].
  - pose proof (u32_range v) as Hv.
    set (p1 := if u32 v <? 4 then 4 else u32 v).
    assert (H1 : 4 <= p1 /\ (p1 = 4 \/ p1 = u32 v))
      by (subst p1; destruct (Z.ltb_spec (u32 v) 4); lia).
    set (p2 := if 120 <? p1 then 120 else p1).
    assert (H2 : 4 <= p2 <= 120)
      by (subst p2; destruct (Z.ltb_spec 120 p1); lia).
    rewrite Z.shiftr_div_pow2 by lia. change (2 ^ 1) with 2.
    set (w1 := if p2 / 2 <? 2 then 2 else p2 / 2).
    assert (H3 : w1 = p2 / 2)
      by (subst w1; destruct (Z.ltb_spec (p2 / 2) 2);
          Z.to_euclidean_division_equations; lia).
    set (w2 := if 15 <? w1 then 15 else w1).
    assert (H4 : 2 <= w2 <= 15 /\ w2 <= w1)
      by (subst w2; destruct (Z.ltb_spec 15 w1);
          Z.to_euclidean_division_equations; lia).
    repeat split; try congruence; try lia;
      Z.to_euclidean_division_equations; lia.
  - repeat split; try congruence; lia.
Qed.

(** *** Palette switching *)

(** X13: the palette option read by [palette_switch_set_index] always
    exists.  For every index (indices past the end are clamped to the
    last palette) the position read in the chosen group's table lies
    inside the table, and group and position together name exactly the
    clamped index. *)
Theorem palette_option_within_group (palette_index : Z) :
  0 <= palette_index ->
  let '(g, opt_index) := palette_option palette_index in
  0 <= opt_index < group_size g /\
  group_start g + opt_index = Z.min palette_index (NUM_PALETTES_TOTAL - 1).
Proof.
  unfold palette_option, NUM_PALETTES_TOTAL, NUM_PALETTES_DEFAULT,
    NUM_PALETTES_TWB64_1, NUM_PALETTES_TWB64_2, NUM_PALETTES_TWB64_3,
    NUM_PALETTES_PIXELSHIFT_1.
  intros H0.
  destruct (Z.leb_spec (51 + 100 + 100 + 100 + 45) palette_index); cbv iota;
    repeat match goal with
           | |- context [?a <? ?b] => destruct (Z.ltb_spec a b); cbv iota
           end;
    cbn [group_size group_start];
    unfold NUM_PALETTES_DEFAULT, NUM_PALETTES_TWB64_1, NUM_PALETTES_TWB64_2,
      NUM_PALETTES_TWB64_3, NUM_PALETTES_PIXELSHIFT_1; lia.
Qed.

(** X14: stepping to the next palette and back returns to the palette one
    started from, at both ends of the list too.  From palette [i], RetroPad
    R selects a palette [j] inside the list; with [j] selected, RetroPad
    L selects [i] again.  (After the last palette comes the first.) *)
Theorem palette_next_then_previous (cfg : pad_config) :
  let i := internal_palette_index cfg in
  0 <= i < NUM_PALETTES_TOTAL ->
  exists j,
    snd (palette_switch false true cfg 0) = [EvPaletteSwitch j] /\
    0 <= j < NUM_PALETTES_TOTAL /\
    j = (i + 1) mod NUM_PALETTES_TOTAL /\
    snd (palette_switch true false (with_palette cfg j) 0)
      = [EvPaletteSwitch i].
Proof.
  cbv zeta. unfold palette_switch, palette_switch_set_index, NUM_PALETTES_TOTAL.
  cbn [orb Z.eqb snd internal_palette_index with_palette].
  intros Hi.
  destruct (Z.ltb_spec (internal_palette_index cfg) (51 + 100 + 100 + 100 + 45 - 1)).
  - exists (internal_palette_index cfg + 1).
    destruct (Z.leb_spec (51 + 100 + 100 + 100 + 45)
                (internal_palette_index cfg + 1)); [lia |].
    split; [reflexivity |]. split; [lia |].
    split; [symmetry; apply Z.mod_small; lia |].
    destruct (Z.ltb_spec 0 (internal_palette_index cfg + 1)); [| lia].
    replace (internal_palette_index cfg + 1 - 1)
      with (internal_palette_index cfg) by lia.
    destruct (Z.leb_spec (51 + 100 + 100 + 100 + 45)
                (internal_palette_index cfg)); [lia | reflexivity].
  - exists 0. cbn.
    assert (Hlast : internal_palette_index cfg = 395) by lia.
    rewrite Hlast. repeat split; lia.
Qed.

(** *** Concrete runs *)

Lemma speed_states_exclude_each_other_witness :
  speed_ok (fst (run_inputs libretro_abi
                   [tick_of held_select_a; tick_of held_select_a_b;
                    tick_of held_none; tick_of held_select_b]
                   speed_init pad_init)).
Proof.
  apply (speed_states_exclude_each_other libretro_abi).
  unfold speed_ok. cbn. lia.
Defined.

Lemma slowmotion_state_counts_chord_edges_witness :
  let sp' :=
    fst (run_inputs libretro_abi
           [tick_of held_select_b; tick_of held_select_b; tick_of held_none;
            tick_of held_select_b]
           speed_init pad_init) in
  sf2000_slowmotion_state sp' = 2 /\ sf2000_fastforward_state sp' = 0.
Proof.
  exact (slowmotion_state_counts_chord_edges libretro_abi
           [tick_of held_select_b; tick_of held_select_b; tick_of held_none;
            tick_of held_select_b]
           speed_init pad_init eq_refl eq_refl eq_refl).
Defined.

Lemma libretro_a_mask_apart : a_mask_apart libretro_abi.
Proof.
  split; [cbn; lia |]. repeat constructor; cbn; lia.
Qed.

Lemma held_x_ticks (n : nat) :
  Forall (turbo_a_held libretro_abi 4) (replicate n (tick_of held_x)).
Proof. apply Forall_replicate. repeat split. Qed.

Lemma turbo_a_pulses_with_period_witness :
  let pd' := snd (run_inputs libretro_abi
                    (replicate 5 (tick_of held_x) ++ [tick_of held_x])
                    speed_init pad_init) in
  has (libretro_input_state pd') 0x01 = true /\ turbo_a_counter pd' = 2.
Proof.
  apply (turbo_a_pulses_with_period libretro_abi 4
           (replicate 5 (tick_of held_x)) (pad_config_default false) held_x
           speed_init pad_init libretro_a_mask_apart).
  - cbn. lia.
  - lia.
  - cbn. lia.
  - apply (held_x_ticks 6).
Defined.

Lemma palette_option_within_group_witness :
  let '(g, opt_index) := palette_option 1000 in
  0 <= opt_index < group_size g /\
  group_start g + opt_index = Z.min 1000 (NUM_PALETTES_TOTAL - 1).
Proof. apply (palette_option_within_group 1000). lia. Defined.

Lemma palette_next_then_previous_witness :
  exists j,
    snd (palette_switch false true
           (with_palette (pad_config_default false) 395) 0)
      = [EvPaletteSwitch j] /\
    0 <= j < NUM_PALETTES_TOTAL /\
    j = (395 + 1) mod NUM_PALETTES_TOTAL /\
    snd (palette_switch true false
           (with_palette (with_palette (pad_config_default false) 395) j) 0)
      = [EvPaletteSwitch 395].
Proof.
  apply (palette_next_then_previous
           (with_palette (pad_config_default false) 395)).
  cbn. unfold NUM_PALETTES_TOTAL. lia.
Defined.

End InputMoreFacts.

(** ** Frame pacing: further properties *)

Module PacerMoreFacts.
Import Mach MachFacts Pacer PacerFacts PacerMore.

Lemma samples_reported_app a b :
  samples_reported (a ++ b) = samples_reported a + samples_reported b.
Proof.
  induction a as [| e a IH]; [reflexivity |].
  destruct e; cbn; rewrite ?IH; lia.
Qed.

Lemma notifications_report_nothing evs :
  Forall notification evs -> samples_reported evs = 0.
Proof.
  induction 1 as [| e evs He _ IH]; [reflexivity |].
  destruct e; cbn in He; try contradiction; exact IH.
Qed.

Lemma batches_report_nothing evs :
  Forall is_batch evs -> samples_reported evs = 0.
Proof.
  induction 1 as [| e evs He _ IH]; [reflexivity |].
  destruct e; cbn in He; try contradiction; exact IH.
Qed.

Lemma runs_silent evs :
  Forall is_run evs -> video_frames evs = [] /\ audio_batches evs = O.
Proof.
  induction 1 as [| e evs He _ IH]; [split; reflexivity |].
  destruct e; cbn in He; try contradiction; exact IH.
Qed.

Section MorePassFacts.
Context {B R Core Host : Type}.
Variable w : @world B R Core Host.

Ltac fields :=
  cbn [samples_count frames_count sp sf2000_splash_shown sf2000_splash_timer
       pd video_buf sound_buf ev cfg fast_forward_audio_enabled
       use_cc_resampler blend_frames blend_bufs audio resampler gb host
       set_ev set_counts set_input set_splash set_bufs set_gb set_sound
       set_sink set_blend_bufs fst snd] in *.

Lemma render_audio_flags always sound samples (e : @env B R Core Host) :
  let e' := render_audio w always sound samples e in
  host e' = host e /\
  fast_forward_audio_enabled e' = fast_forward_audio_enabled e /\
  use_cc_resampler e' = use_cc_resampler e.
Proof.
  cbv zeta. unfold render_audio.
  destruct (use_cc_resampler e) eqn:Ecc.
  - destruct (CC_renderaudio w _ _ _) as [r writes]. fields. auto.
  - fields. destruct (always || _).
    + unfold read_blipper. fields.
      destruct (blipper_read w _ _) as [stereo r]. fields. auto.
    + fields. auto.
Qed.

(** An emulation loop that ends made only [runFor] calls, left the
    counters of the pacer and the speed states alone, and added to
    [samples_count] what the calls before the last reported. *)
Lemma run_until_frame_runs fuel :
  forall render with_audio samples (st st' : @state B R Core Host) s' evs,
  run_until_frame w fuel render with_audio samples st = Some (st', s', evs) ->
  Forall is_run evs /\ steady st st' /\
  u64 (samples_count st' + s')
    = u64 (samples_count st + samples_reported evs) /\
  completed_frames evs = 1%nat.
Proof.
  induction fuel as [| fuel IH];
    intros render with_audio samples st st' s' evs E; [discriminate |].
  cbn [run_until_frame] in E.
  set (r := runFor w (gb (ev st)) (Input.libretro_input_state (pd st))
              (if render then Some (video_buf st) else None) samples) in *.
  destruct (rr_ret r =? -1) eqn:Eret.
  - match type of E with
    | match run_until_frame w fuel ?a ?b ?c ?s with _ => _ end = _ =>
        destruct (run_until_frame w fuel a b c s) as [[[st1 s1] evs1] |] eqn:E1;
          [| discriminate];
        apply IH in E1
    end.
    inversion E; subst; clear E.
    destruct E1 as (Hruns & Hst & Hsum & Hcf).
    split; [constructor; [exact I | exact Hruns] |].
    cbn [samples_reported completed_frames]. rewrite Eret.
    destruct with_audio.
    + pose proof (render_audio_flags false (rr_sound r) (rr_samples r)
                    (set_gb (ev st) (rr_gb r))) as Hk.
      cbv zeta in Hk. fields. destruct Hk as (Hh & Hf & Hu).
      unfold steady in *. fields. rewrite Hh, Hf, Hu in Hst.
      split; [tauto |]. split; [| exact Hcf].
      rewrite Hsum. unfold u64. rewrite Zplus_mod_idemp_l. f_equal. lia.
    + unfold steady in *. fields. split; [tauto |]. split; [| exact Hcf].
      rewrite Hsum. unfold u64. rewrite Zplus_mod_idemp_l. f_equal. lia.
  - inversion E; subst; clear E. unfold steady. fields.
    split; [repeat constructor |]. split; [auto 10 |].
    cbn [samples_reported completed_frames]. rewrite Eret.
    split; [f_equal; lia | reflexivity].
Qed.

Lemma fast_forward_frames_runs n :
  forall iter iterations samples (st st' : @state B R Core Host) s' evs,
  fast_forward_frames w n iter iterations samples st = Some (st', s', evs) ->
  Forall is_run evs /\ steady st st'.
Proof.
  induction n as [| n IH]; intros iter iterations samples st st' s' evs E.
  - cbn in E. inversion E; subst. split; [constructor | apply steady_refl].
  - cbn [fast_forward_frames] in E.
    match type of E with
    | match run_frame w ?a ?b ?c ?s with _ => _ end = _ =>
        destruct (run_frame w a b c s) as [[[st1 s1] evs1] |] eqn:E1;
          [| discriminate]
    end.
    destruct (fast_forward_frames w n _ _ s1 st1) as [[[st2 s2] evs2] |] eqn:E2;
      [| discriminate].
    inversion E; subst; clear E.
    unfold run_frame in E1. apply run_until_frame_runs in E1.
    apply IH in E2. destruct E1 as (Hr1 & Hs1 & _). destruct E2 as (Hr2 & Hs2).
    split; [now apply Forall_app | exact (steady_trans _ _ _ Hs1 Hs2)].
Qed.

(** What the emulation part of a pass never touches. *)
Lemma emulate_runs (st st' : @state B R Core Host) s' evs :
  emulate w st = Some (st', s', evs) ->
  Forall is_run evs /\
  frames_count st' = frames_count st /\
  Input.sf2000_fastforward_state (sp st')
    = Input.sf2000_fastforward_state (sp st) /\
  Input.sf2000_slowmotion_state (sp st')
    = Input.sf2000_slowmotion_state (sp st) /\
  fast_forward_audio_enabled (ev st') = fast_forward_audio_enabled (ev st) /\
  host (ev st') = host (ev st).
Proof.
  intros E. unfold emulate in E.
  destruct (negb (sf2000_splash_shown st) && _).
  { inversion E; subst. fields. split; [constructor | auto 10]. }
  destruct (0 <? Input.sf2000_fastforward_state (sp st)).
  { apply fast_forward_frames_runs in E.
    destruct E as (Hr & Hf & Hs & _ & _ & _ & Hh & Ha & _).
    rewrite Hs. auto 10. }
  destruct (0 <? Input.sf2000_slowmotion_state (sp st)).
  - match type of E with
    | (if ?c then _ else _) = _ => destruct c
    end.
    + unfold run_frame in E. apply run_until_frame_runs in E.
      destruct E as (Hr & (Hf & Hs & _ & _ & _ & Hh & Ha & _) & _). fields.
      rewrite Hs. cbn. auto 10.
    + inversion E; subst. fields. cbn. split; [constructor | auto 10].
  - unfold run_frame in E. apply run_until_frame_runs in E.
    destruct E as (Hr & (Hf & Hs & _ & _ & _ & Hh & Ha & _) & _).
    rewrite Hs. auto 10.
Qed.

(** A pass that is not a dupe and ends, with the upload it made. *)
Lemma pass_fresh_detail cb (st st' : @state B R Core Host) evs :
  samples_count st / SOUND_SAMPLES_PER_FRAME <= frames_count st ->
  retro_run_internal w cb st = Some (st', evs) ->
  exists st2 samples evs_run video a0 h0 a h evs_audio,
    emulate w (after_input w cb st) = Some (st2, samples, evs_run) /\
    evs = snd (Input.update_input_state (abi w) cb (cfg (ev st)) (sp st)
                 (pd st))
          ++ evs_run
          ++ [EvVideo (Some video) VIDEO_WIDTH VIDEO_HEIGHT
                (VIDEO_PITCH * pixel_bytes w)]
          ++ evs_audio /\
    Audio.audio_upload_samples (SIZE_MOD w) Host (audio_batch_cb w)
      (Input.sf2000_fastforward_state (sp st2))
      (Input.sf2000_slowmotion_state (sp st2))
      (fast_forward_audio_enabled (ev st2)) a0 h0 = Some (a, h, evs_audio) /\
    h0 = host (ev st2) /\
    frames_count st' = u64 (frames_count st2 + frames_step (sp st2)) /\
    sp st' = sp st2 /\
    samples_count st' = u64 (samples_count st2 + samples) /\
    sf2000_splash_shown st' = sf2000_splash_shown st2 /\
    sf2000_splash_timer st' = sf2000_splash_timer st2.
Proof.
  intros Hge E. unfold retro_run_internal in E. unfold after_input.
  destruct (Input.update_input_state _ _ _ _ _) as [[sp' pd'] evs_in].
  fields. apply Z.ltb_ge in Hge. rewrite Hge in E.
  destruct (emulate w _) as [[[st2 samples] evs_run] |]; [| discriminate].
  exists st2, samples, evs_run.
  set (st3 := match blend_frames (ev st2) with
              | Some blend =>
                  let '(video, bufs) :=
                    blend (video_buf st2) (blend_bufs (ev st2)) in
                  set_bufs (set_ev st2 (set_blend_bufs (ev st2) bufs)) video
                    (sound_buf st2)
              | None => st2
              end) in *.
  assert (H3 : frames_count st3 = frames_count st2 /\ sp st3 = sp st2 /\
               samples_count st3 = samples_count st2 /\
               sf2000_splash_shown st3 = sf2000_splash_shown st2 /\
               sf2000_splash_timer st3 = sf2000_splash_timer st2 /\
               fast_forward_audio_enabled (ev st3)
                 = fast_forward_audio_enabled (ev st2) /\
               host (ev st3) = host (ev st2)).
  { subst st3. destruct (blend_frames (ev st2)) as [blend |]; [| auto 10].
    destruct (blend _ _) as [video bufs]. fields. auto 10. }
  destruct H3 as (Hf3 & Hs3 & Hc3 & Hsh3 & Hti3 & Hfa3 & Hh3).
  pose proof (render_audio_flags true (sound_buf st3) samples (ev st3)) as Hk.
  cbv zeta in Hk. destruct Hk as (Hh & Hfa & _).
  fields.
  destruct (Audio.audio_upload_samples _ _ _ _ _ _ _ _)
    as [[[a h] evs_audio] |] eqn:Eup; [| discriminate].
  rewrite Hs3, Hfa, Hfa3, Hh, Hh3 in Eup.
  exists (video_buf st3),
    (audio (render_audio w true (sound_buf st3) samples (ev st3))),
    (host (ev st2)), a, h, evs_audio.
  split; [reflexivity |].
  unfold frames_step. rewrite <- Hs3, <- Hf3, <- Hc3, <- Hsh3, <- Hti3.
  destruct (0 <? Input.sf2000_fastforward_state (sp st3)) eqn:Eff;
    inversion E; subst; fields; rewrite ?Eff;
    (split; [reflexivity |]); (split; [rewrite Hs3; exact Eup |]); auto 10.
Qed.

Lemma pass_video_frames cb (st st' : @state B R Core Host) evs :
  retro_run_internal w cb st = Some (st', evs) ->
  length (video_frames evs) = 1%nat.
Proof.
  intros E.
  pose proof (update_input_state_notifies (abi w) cb (cfg (ev st)) (sp st)
                (pd st)) as Hn.
  destruct (notifications_silent _ Hn) as (_ & _ & _ & Hnv).
  destruct (Z.lt_ge_cases (frames_count st)
              (samples_count st / SOUND_SAMPLES_PER_FRAME)) as [Hlt | Hge].
  - pose proof (retro_run_internal_dupe w cb st Hlt) as Ed. cbv zeta in Ed.
    rewrite Ed in E. inversion E; subst.
    rewrite video_frames_app, Hnv. reflexivity.
  - destruct (pass_fresh_detail cb st st' evs Hge E)
      as (st2 & s2 & evs_run & video & a0 & h0 & a & h & evs_audio & Eem
          & -> & Eup & _).
    apply emulate_runs in Eem. destruct Eem as (Hr & _).
    destruct (runs_silent _ Hr) as [Hrv _].
    apply audio_upload_batches in Eup.
    destruct (batches_silent _ Eup) as (_ & _ & Hbv).
    rewrite !video_frames_app, Hnv, Hrv, Hbv. reflexivity.
Qed.

Lemma passes_video_frames n : forall i inputs (st st' : @state B R Core Host) evs,
  passes w n i inputs st = Some (st', evs) ->
  length (video_frames evs) = n.
Proof.
  induction n as [| n IH]; intros i inputs st st' evs E.
  - cbn in E. inversion E; subst. reflexivity.
  - cbn [passes] in E.
    destruct (retro_run_internal w (inputs i) st) as [[st1 evs1] |] eqn:E1;
      [| discriminate].
    destruct (passes w n (S i) inputs st1) as [[st2 evs2] |] eqn:E2;
      [| discriminate].
    inversion E; subst; clear E.
    rewrite video_frames_app, length_app.
    rewrite (pass_video_frames _ _ _ _ E1), (IH _ _ _ _ _ E2). reflexivity.
Qed.

(** X16: every pass hands the frontend exactly one frame.  A pass that
    ends called [video_cb] once, with the picture or with the NULL
    reference; so a host tick at normal speed delivers one frame, and a
    tick entered in fast forward delivers one per pass, 3 or 5. *)
Theorem one_video_frame_per_pass (inputs : nat -> Z -> Z)
  (st st' : @state B R Core Host) (evs : list event) :
  (retro_run_internal w (inputs O) st = Some (st', evs) ->
   length (video_frames evs) = 1%nat) /\
  (retro_run w inputs st = Some (st', evs) ->
   length (video_frames evs) = Z.to_nat (frames_step (sp st))).
Proof.
  split; [apply pass_video_frames |].
  unfold retro_run, frames_step.
  destruct (0 <? Input.sf2000_fastforward_state (sp st)); intros E;
    now apply passes_video_frames in E.
Qed.

(** X17: fast forward and slow motion are silent unless audio is enabled
    for them.  A pass on which, after joypad handling, fast forward or
    slow motion is on while [fast_forward_audio_enabled] is off never
    calls the frontend's audio sink. *)
Theorem muted_pass_sends_no_audio (cb : Z -> Z)
  (st st' : @state B R Core Host) (evs : list event) :
  retro_run_internal w cb st = Some (st', evs) ->
  fast_forward_audio_enabled (ev st) = false ->
  0 < Input.sf2000_fastforward_state (sp (after_input w cb st))
  \/ 0 < Input.sf2000_slowmotion_state (sp (after_input w cb st)) ->
  audio_batches evs = O.
Proof.
  intros E Hoff Hspeed.
  pose proof (update_input_state_notifies (abi w) cb (cfg (ev st)) (sp st)
                (pd st)) as Hn.
  destruct (notifications_silent _ Hn) as (_ & _ & Hna & _).
  destruct (Z.lt_ge_cases (frames_count st)
              (samples_count st / SOUND_SAMPLES_PER_FRAME)) as [Hlt | Hge].
  - pose proof (retro_run_internal_dupe w cb st Hlt) as Ed. cbv zeta in Ed.
    rewrite Ed in E. inversion E; subst.
    rewrite audio_batches_app, Hna. reflexivity.
  - destruct (pass_fresh_detail cb st st' evs Hge E)
      as (st2 & s2 & evs_run & video & a0 & h0 & a & h & evs_audio & Eem
          & -> & Eup & _).
    apply emulate_runs in Eem.
    destruct Eem as (Hr & _ & Hff & Hsm & Hfa & _).
    destruct (runs_silent _ Hr) as [_ Hra].
    assert (Hfa0 : fast_forward_audio_enabled (ev (after_input w cb st))
                   = false) by (unfold after_input; fields; exact Hoff).
    rewrite Hff, Hsm, Hfa, Hfa0 in Eup.
    unfold Audio.audio_upload_samples in Eup.
    assert (Hgate : (0 <? Input.sf2000_fastforward_state
                            (sp (after_input w cb st)))
                    || (0 <? Input.sf2000_slowmotion_state
                               (sp (after_input w cb st))) = true).
    { apply orb_true_iff.
      destruct Hspeed; [left | right]; now apply Z.ltb_lt. }
    rewrite Hgate in Eup. cbn in Eup. inversion Eup; subst.
    rewrite !audio_batches_app, Hna, Hra. reflexivity.
Qed.

Hypothesis size_t_wide : 2 ^ 32 <= SIZE_MOD w.

(** X18: at normal speed the pacer counts every sample the core reports.
    Take a core that completes a frame after finitely many [runFor]
    calls and an audio buffer from which an upload ends.  A pass that
    is not a dupe, after the splash, with fast forward and slow motion
    off, ends; on it the core completes exactly one frame and
    [samples_count] grows by the sum of the sample counts its [runFor]
    calls reported. *)
Theorem normal_pass_counts_reported_samples (cb : Z -> Z)
  (st : @state B R Core Host) :
  core_progress w -> audio_ready w (audio (ev st)) ->
  samples_count st / SOUND_SAMPLES_PER_FRAME <= frames_count st ->
  sf2000_splash_shown st = true
  \/ SF2000_SPLASH_DURATION <= sf2000_splash_timer st ->
  Input.sf2000_fastforward_state (sp (after_input w cb st)) = 0 ->
  Input.sf2000_slowmotion_state (sp (after_input w cb st)) = 0 ->
  exists st' evs,
    retro_run_internal w cb st = Some (st', evs) /\
    samples_count st' = u64 (samples_count st + samples_reported evs) /\
    completed_frames evs = 1%nat.
Proof.
  intros Hprog Hready Hge Hsplash Hff Hsm.
  assert (Hr0 : audio_ready w (audio (ev (after_input w cb st))))
    by (unfold after_input; fields; exact Hready).
  destruct (emulate_normal_total w size_t_wide Hprog (after_input w cb st)
              Hff Hr0) as (st2' & s2' & evs_run' & Eem0 & Hr2).
  destruct (pass_fresh_total w size_t_wide cb st st2' s2' evs_run' Hge Eem0
              Hr2) as [[st' evs] E].
  exists st', evs. split; [exact E |]. clear Eem0 Hr2.
  pose proof (update_input_state_notifies (abi w) cb (cfg (ev st)) (sp st)
                (pd st)) as Hn.
  destruct (notifications_silent _ Hn) as (_ & Hnc & _ & _).
  pose proof (notifications_report_nothing _ Hn) as Hnr.
  destruct (pass_fresh_detail cb st st' evs Hge E)
    as (st2 & s2 & evs_run & video & a0 & h0 & a & h & evs_audio & Eem
        & -> & Eup & _ & _ & _ & Hsc & _).
  apply audio_upload_batches in Eup.
  destruct (batches_silent _ Eup) as (_ & Hbc & _).
  pose proof (batches_report_nothing _ Eup) as Hbr.
  unfold emulate in Eem.
  assert (Hs : negb (sf2000_splash_shown (after_input w cb st))
               && (sf2000_splash_timer (after_input w cb st)
                   <? SF2000_SPLASH_DURATION) = false).
  { unfold after_input. fields.
    destruct Hsplash as [-> | Ht]; [reflexivity |].
    apply Z.ltb_ge in Ht. rewrite Ht. apply andb_false_r. }
  rewrite Hs, Hff, Hsm in Eem. change (0 <? 0) with false in Eem.
  cbv iota in Eem. unfold run_frame in Eem.
  pose proof (run_until_frame_runs _ _ _ _ _ _ _ _ Eem)
    as (Hr & _ & Hsum & Hcf).
  split.
  - rewrite Hsc, !samples_reported_app, Hnr, Hbr. cbn [samples_reported].
    rewrite Hsum. unfold after_input. fields. f_equal. lia.
  - rewrite !completed_frames_app, Hnc, Hbc, Hcf. reflexivity.
Qed.

(** X19: while the splash screen is up the core does not run.  A pass
    that is not a dupe, entered with the splash not yet shown for its
    180 passes, ends without a single [runFor] call, whatever the
    buttons and the speed state: it hands the frontend one picture,
    advances the splash timer by one and marks the splash as shown when
    the timer reaches 180; and it still adds the nominal 2064 samples of
    a run to [samples_count]. *)
Theorem splash_pass_holds_core (cb : Z -> Z) (st : @state B R Core Host) :
  audio_ready w (audio (ev st)) ->
  samples_count st / SOUND_SAMPLES_PER_FRAME <= frames_count st ->
  sf2000_splash_shown st = false ->
  0 <= sf2000_splash_timer st < SF2000_SPLASH_DURATION ->
  exists st' evs,
    retro_run_internal w cb st = Some (st', evs) /\
    core_calls evs = O /\ video_frames evs = [true] /\
    sf2000_splash_timer st' = sf2000_splash_timer st + 1 /\
    sf2000_splash_shown st'
      = (SF2000_SPLASH_DURATION <=? sf2000_splash_timer st + 1) /\
    samples_count st' = u64 (samples_count st + SOUND_SAMPLES_PER_RUN).
Proof.
  intros Hready Hge Hshown Htimer.
  assert (Eem : emulate w (after_input w cb st) =
                Some (set_splash
                        (set_bufs (after_input w cb st)
                           (sf2000_draw_splash_screen w
                              (video_buf (after_input w cb st)))
                           (sound_buf (after_input w cb st)))
                        (SF2000_SPLASH_DURATION <=? sf2000_splash_timer st + 1)
                        (sf2000_splash_timer st + 1),
                      SOUND_SAMPLES_PER_RUN, [])).
  { unfold emulate, after_input. fields. rewrite Hshown.
    assert (Hlt : (sf2000_splash_timer st <? SF2000_SPLASH_DURATION) = true)
      by (apply Z.ltb_lt; lia).
    rewrite Hlt. cbn [negb andb].
    unfold SF2000_SPLASH_DURATION in *.
    rewrite u32_small by lia.
    destruct (180 <=? sf2000_splash_timer st + 1); reflexivity. }
  destruct (pass_fresh_total w size_t_wide cb st _ _ _ Hge Eem)
    as [[st' evs] E].
  { unfold after_input. fields. exact Hready. }
  exists st', evs. split; [exact E |].
  destruct (pass_fresh_detail cb st st' evs Hge E)
    as (st2 & s2 & evs_run & video & a0 & h0 & a & h & evs_audio & Eem'
        & -> & Eup & _ & _ & _ & Hsc & Hsh & Hti).
  rewrite Eem in Eem'. inversion Eem'; subst st2 s2 evs_run. clear Eem'.
  pose proof (update_input_state_notifies (abi w) cb (cfg (ev st)) (sp st)
                (pd st)) as Hn.
  destruct (notifications_silent _ Hn) as (Hnc & _ & _ & Hnv).
  apply audio_upload_batches in Eup.
  destruct (batches_silent _ Eup) as (Hbc & _ & Hbv).
  rewrite !core_calls_app, !video_frames_app, Hnc, Hnv, Hbc, Hbv.
  rewrite Hsc, Hsh, Hti. unfold after_input. fields.
  repeat split; reflexivity.
Qed.

(** X20: slow motion runs the core on every second or every fifth pass.
    On a pass that is not a dupe, after the splash, with slow-motion
    state 1 or 2 in effect after joypad handling, the core completes one
    frame if the slow-motion counter is a multiple of 2 (state 1) or of
    5 (state 2) and is not called at all otherwise; either way the
    frontend is handed a picture, [frames_count] goes up by one and the
    counter by one, and a pass that skipped emulation still adds the
    nominal 2064 samples to [samples_count]. *)
Theorem slow_motion_pass_skips_frames (cb : Z -> Z)
  (st : @state B R Core Host) :
  core_progress w -> audio_ready w (audio (ev st)) ->
  samples_count st / SOUND_SAMPLES_PER_FRAME <= frames_count st ->
  sf2000_splash_shown st = true
  \/ SF2000_SPLASH_DURATION <= sf2000_splash_timer st ->
  let s := sp (after_input w cb st) in
  Input.sf2000_fastforward_state s = 0 ->
  Input.sf2000_slowmotion_state s = 1 \/ Input.sf2000_slowmotion_state s = 2 ->
  let c := Input.sf2000_slowmotion_frame_counter s in
  let runs := c mod slowmotion_period (Input.sf2000_slowmotion_state s) =? 0 in
  exists st' evs,
    retro_run_internal w cb st = Some (st', evs) /\
    completed_frames evs = (if runs then 1 else 0)%nat /\
    (runs = false ->
     core_calls evs = O /\
     samples_count st' = u64 (samples_count st + SOUND_SAMPLES_PER_RUN)) /\
    video_frames evs = [true] /\
    frames_count st' = u64 (frames_count st + 1) /\
    Input.sf2000_slowmotion_frame_counter (sp st') = u32 (c + 1).
Proof.
  intros Hprog Hready Hge Hsplash s Hff Hsm c runs.
  set (st0 := after_input w cb st) in *. subst s.
  assert (Hs : negb (sf2000_splash_shown st0)
               && (sf2000_splash_timer st0 <? SF2000_SPLASH_DURATION) = false).
  { subst st0. unfold after_input. fields.
    destruct Hsplash as [-> | Ht]; [reflexivity |].
    apply Z.ltb_ge in Ht. rewrite Ht. apply andb_false_r. }
  assert (Hshould :
            (if Input.sf2000_slowmotion_state (sp st0) =? 1
             then Input.sf2000_slowmotion_frame_counter (sp st0) mod 2 =? 0
             else if Input.sf2000_slowmotion_state (sp st0) =? 2
                  then Input.sf2000_slowmotion_frame_counter (sp st0) mod 5
                       =? 0
                  else false) = runs).
  { subst runs c. unfold slowmotion_period.
    destruct Hsm as [-> | ->]; reflexivity. }
  assert (Hffb : (0 <? Input.sf2000_fastforward_state (sp st0)) = false)
    by (rewrite Hff; reflexivity).
  assert (Hpos : (0 <? Input.sf2000_slowmotion_state (sp st0)) = true)
    by (apply Z.ltb_lt; lia).
  assert (Hr0 : audio_ready w (audio (ev st0)))
    by (subst st0; unfold after_input; fields; exact Hready).
  assert (Hcounts : frames_count st0 = frames_count st /\
                    samples_count st0 = samples_count st)
    by (subst st0; apply after_input_counts).
  destruct Hcounts as [Hfc0 Hsc0].
  pose proof (update_input_state_notifies (abi w) cb (cfg (ev st)) (sp st)
                (pd st)) as Hn.
  destruct (notifications_silent _ Hn) as (Hnc & Hncf & _ & Hnv).
  destruct runs eqn:Eruns.
  - set (st1 := set_input st0
             {| Input.sf2000_fastforward_state :=
                  Input.sf2000_fastforward_state (sp st0);
                Input.sf2000_select_a_prev :=
                  Input.sf2000_select_a_prev (sp st0);
                Input.sf2000_slowmotion_state :=
                  Input.sf2000_slowmotion_state (sp st0);
                Input.sf2000_select_b_prev :=
                  Input.sf2000_select_b_prev (sp st0);
                Input.sf2000_frame_counter :=
                  Input.sf2000_frame_counter (sp st0);
                Input.sf2000_slowmotion_frame_counter :=
                  u32 (Input.sf2000_slowmotion_frame_counter (sp st0) + 1) |}
             (pd st0)).
    destruct (run_frame_total w size_t_wide Hprog true
                (fast_forward_audio_enabled (ev st0)) SOUND_SAMPLES_PER_RUN st1)
      as [[[st2 s2] evs_run] Erun].
    assert (Eem : emulate w st0 = Some (st2, s2, evs_run)).
    { unfold emulate. rewrite Hs, Hffb. cbv iota zeta. rewrite Hpos, Hshould. exact Erun. }
    unfold run_frame in Erun.
    pose proof (run_until_frame_inv w size_t_wide _ _ _ _ _ _ _ _ Erun)
      as (Hst & Hcf & Hvf & _ & Hready2 & _).
    destruct (pass_fresh_total w size_t_wide cb st st2 s2 evs_run Hge Eem)
      as [[st' evs] E]; [apply Hready2; subst st1; fields; exact Hr0 |].
    exists st', evs. split; [exact E |].
    destruct (pass_fresh_detail cb st st' evs Hge E)
      as (st2' & s2' & evs_run' & video & a0 & h0 & a & h & evs_audio & Eem'
          & -> & Eup & _ & Hfc & Hsp & _).
    fold st0 in Eem'. rewrite Eem in Eem'.
    inversion Eem'; subst st2' s2' evs_run'. clear Eem'.
    apply audio_upload_batches in Eup.
    destruct (batches_silent _ Eup) as (_ & Hbcf & Hbv).
    destruct Hst as (Hf2 & Hs2 & _).
    rewrite !completed_frames_app, !video_frames_app, Hncf, Hnv, Hbcf, Hbv,
      Hcf, Hvf.
    split; [reflexivity |]. split; [discriminate |].
    split; [reflexivity |].
    rewrite Hfc, Hsp, Hf2, Hs2. subst st1. fields.
    unfold frames_step. cbn [Input.sf2000_fastforward_state].
    rewrite Hff, Hfc0. cbn. split; reflexivity.
  - set (st1 := set_input st0
             {| Input.sf2000_fastforward_state :=
                  Input.sf2000_fastforward_state (sp st0);
                Input.sf2000_select_a_prev :=
                  Input.sf2000_select_a_prev (sp st0);
                Input.sf2000_slowmotion_state :=
                  Input.sf2000_slowmotion_state (sp st0);
                Input.sf2000_select_b_prev :=
                  Input.sf2000_select_b_prev (sp st0);
                Input.sf2000_frame_counter :=
                  Input.sf2000_frame_counter (sp st0);
                Input.sf2000_slowmotion_frame_counter :=
                  u32 (Input.sf2000_slowmotion_frame_counter (sp st0) + 1) |}
             (pd st0)).
    assert (Eem : emulate w st0 = Some (st1, SOUND_SAMPLES_PER_RUN, [])).
    { unfold emulate. rewrite Hs, Hffb. cbv iota zeta. rewrite Hpos, Hshould. reflexivity. }
    destruct (pass_fresh_total w size_t_wide cb st st1 _ _ Hge Eem)
      as [[st' evs] E]; [subst st1; fields; exact Hr0 |].
    exists st', evs. split; [exact E |].
    destruct (pass_fresh_detail cb st st' evs Hge E)
      as (st2' & s2' & evs_run' & video & a0 & h0 & a & h & evs_audio & Eem'
          & -> & Eup & _ & Hfc & Hsp & Hsc & _).
    fold st0 in Eem'. rewrite Eem in Eem'.
    inversion Eem'; subst st2' s2' evs_run'. clear Eem'.
    apply audio_upload_batches in Eup.
    destruct (batches_silent _ Eup) as (Hbc & Hbcf & Hbv).
    rewrite !completed_frames_app, !video_frames_app, !core_calls_app,
      Hnc, Hncf, Hnv, Hbc, Hbcf, Hbv.
    split; [reflexivity |].
    split; [intros _; split; [reflexivity |] |].
    { rewrite Hsc. subst st1. fields. now rewrite Hsc0. }
    split; [reflexivity |].
    rewrite Hfc, Hsp. subst st1. fields.
    unfold frames_step. cbn [Input.sf2000_fastforward_state].
    rewrite Hff, Hfc0. cbn. split; reflexivity.
Qed.

End MorePassFacts.

(** *** Concrete runs *)

Lemma one_video_frame_per_pass_witness :
  length (video_frames long_tick_events) = 1%nat.
Proof.
  exact (proj2 (one_video_frame_per_pass (scripted_world (frame_after 34) 40)
                  no_buttons (sample_state 0 0 0 true 0) after_long_tick
                  long_tick_events) long_tick_runs).
Defined.

Lemma fast_pass_runs :
  retro_run_internal (scripted_world frame_per_call 0) Input.held_none
    (sample_state 0 0 1 true 0)
  = Some (result_state (sample_state 0 0 1 true 0) fast_pass,
          result_events fast_pass).
Proof. vm_compute. reflexivity. Qed.

Lemma muted_pass_sends_no_audio_witness :
  audio_batches (result_events fast_pass) = O.
Proof.
  apply (muted_pass_sends_no_audio (scripted_world frame_per_call 0)
           Input.held_none (sample_state 0 0 1 true 0) _ _ fast_pass_runs).
  - reflexivity.
  - left. vm_compute. reflexivity.
Defined.

Lemma normal_pass_counts_reported_samples_witness :
  let st := state_after slow_start_world 180 in
  exists st' evs,
    retro_run_internal slow_start_world Input.held_none st = Some (st', evs) /\
    samples_count st' = u64 (samples_count st + samples_reported evs) /\
    completed_frames evs = 1%nat.
Proof.
  apply (normal_pass_counts_reported_samples slow_start_world size_t_32
           Input.held_none (state_after slow_start_world 180)).
  - exact slow_start_progress.
  - unfold audio_ready. repeat split; vm_compute; congruence.
  - vm_compute. congruence.
  - left. vm_compute. reflexivity.
  - vm_compute. reflexivity.
  - vm_compute. reflexivity.
Defined.

Lemma splash_pass_holds_core_witness :
  exists st' evs,
    retro_run_internal (scripted_world frame_per_call 0) Input.held_select_a
      (sample_state 0 0 0 false 179) = Some (st', evs) /\
    core_calls evs = O /\ video_frames evs = [true] /\
    sf2000_splash_timer st' = 179 + 1 /\
    sf2000_splash_shown st' = (SF2000_SPLASH_DURATION <=? 179 + 1) /\
    samples_count st' = u64 (0 + SOUND_SAMPLES_PER_RUN).
Proof.
  apply (splash_pass_holds_core (scripted_world frame_per_call 0) size_t_32
           Input.held_select_a (sample_state 0 0 0 false 179)
           sample_audio_ready).
  - vm_compute. discriminate.
  - reflexivity.
  - unfold SF2000_SPLASH_DURATION. cbn. lia.
Defined.

Lemma slow_audio_ready :
  audio_ready (scripted_world frame_per_call 0) (audio (ev (slow_state 1 3))).
Proof. exact sample_audio_ready. Qed.

Lemma slow_motion_pass_skips_frames_witness :
  exists st' evs,
    retro_run_internal (scripted_world frame_per_call 0) Input.held_none
      (slow_state 1 3) = Some (st', evs) /\
    completed_frames evs = O /\
    (false = false ->
     core_calls evs = O /\
     samples_count st' = u64 (0 + SOUND_SAMPLES_PER_RUN)) /\
    video_frames evs = [true] /\
    frames_count st' = u64 (0 + 1) /\
    Input.sf2000_slowmotion_frame_counter (sp st') = u32 (3 + 1).
Proof.
  apply (slow_motion_pass_skips_frames (scripted_world frame_per_call 0)
           size_t_32 Input.held_none (slow_state 1 3) frame_per_call_progress
           slow_audio_ready).
  - vm_compute. discriminate.
  - left. reflexivity.
  - reflexivity.
  - left. reflexivity.
Defined.

End PacerMoreFacts.

(** ** Interframe blending: further properties *)

Module BlendMoreFacts.
Import Mach MachFacts Blend BlendFacts BlendMore.

Local Ltac zdiv := Z.to_euclidean_division_equations; lia.

(** *** Bits of packed pixels *)

Lemma testbit_div (x k : Z) : 0 <= k -> Z.testbit x k = Z.odd (x / 2 ^ k).
Proof.
  intros Hk. now rewrite Z.testbit_odd, Z.shiftr_div_pow2.
Qed.

Lemma land_pow2 (x k : Z) :
  0 <= k -> Z.land x (2 ^ k) = if Z.testbit x k then 2 ^ k else 0.
Proof.
  intros Hk. apply Z.bits_inj'. intros n Hn.
  rewrite Z.land_spec, Z.pow2_bits_eqb by assumption.
  destruct (Z.eqb_spec k n) as [-> | Hne].
  - rewrite andb_true_r. destruct (Z.testbit x n) eqn:E.
    + rewrite Z.pow2_bits_eqb by assumption. now rewrite Z.eqb_refl.
    + now rewrite Z.bits_0.
  - rewrite andb_false_r. destruct (Z.testbit x k).
    + rewrite Z.pow2_bits_eqb by assumption.
      symmetry. now apply Z.eqb_neq.
    + now rewrite Z.bits_0.
Qed.

(** The bit a mask bit picks from the exclusive or of two pixels is the
    parity of the sum of what lies above it in each. *)
Lemma land_lxor_pow2 (c p k : Z) :
  0 <= k ->
  Z.land (Z.lxor c p) (2 ^ k) = 2 ^ k * ((c / 2 ^ k + p / 2 ^ k) mod 2).
Proof.
  intros Hk. rewrite land_pow2, Z.lxor_spec, !testbit_div by assumption.
  rewrite <- Z.odd_add, Zmod_odd.
  destruct (Z.odd _); lia.
Qed.

Lemma lor_shiftl_add (a b k : Z) :
  0 <= k -> 0 <= b < 2 ^ k -> Z.lor (Z.shiftl a k) b = a * 2 ^ k + b.
Proof.
  intros Hk Hb. rewrite Z.shiftl_mul_pow2 by assumption.
  assert (Hland : Z.land (a * 2 ^ k) b = 0).
  { apply Z.bits_inj'. intros n Hn. rewrite Z.land_spec, Z.bits_0.
    destruct (Z.lt_ge_cases n k) as [Hlt | Hge].
    - now rewrite Z.mul_pow2_bits_low.
    - assert (Hbn : Z.testbit b n = false).
      { rewrite testbit_div by assumption.
        assert (Hpow : 2 ^ k <= 2 ^ n) by (apply Z.pow_le_mono_r; lia).
        rewrite Z.div_small by lia. reflexivity. }
      rewrite Hbn. apply andb_false_r. }
  rewrite <- Z.lxor_lor by assumption.
  symmetry. now apply Z.add_nocarry_lxor.
Qed.

Lemma land_31 (x : Z) : Z.land x 0x1F = x mod 32.
Proof. change 0x1F with (Z.ones 5). now rewrite Z.land_ones. Qed.

Lemma parity_cases (a : Z) : a mod 2 = 0 \/ a mod 2 = 1.
Proof. zdiv. Qed.

(** *** The mix filter on channels *)

Lemma mix_pixel_rgb565 (r1 g1 b1 r2 g2 b2 : Z) :
  channels_ok RGB565 r1 g1 b1 -> channels_ok RGB565 r2 g2 b2 ->
  mix_pixel RGB565 (pack RGB565 r1 g1 b1) (pack RGB565 r2 g2 b2) =
  pack RGB565 (mean_up r1 r2) (mean_up g1 g2) (mean_up b1 b2).
Proof.
  unfold channels_ok, mix_pixel, mix_mask, pack, mean_up. intros H1 H2.
  set (c := r1 * 2048 + g1 * 32 + b1). set (p := r2 * 2048 + g2 * 32 + b2).
  assert (Hx : Z.land (Z.lxor c p) 0x821 =
               2048 * ((r1 + r2) mod 2) + 32 * ((g1 + g2) mod 2)
               + (b1 + b2) mod 2).
  { change 0x821 with (Z.lor (2 ^ 0) (Z.lor (2 ^ 5) (2 ^ 11))).
    rewrite !Z.land_lor_distr_r, !land_lxor_pow2 by lia.
    replace ((c / 2 ^ 0 + p / 2 ^ 0) mod 2) with ((b1 + b2) mod 2)
      by (subst c p; zdiv).
    replace ((c / 2 ^ 5 + p / 2 ^ 5) mod 2) with ((g1 + g2) mod 2)
      by (subst c p; zdiv).
    replace ((c / 2 ^ 11 + p / 2 ^ 11) mod 2) with ((r1 + r2) mod 2)
      by (subst c p; zdiv).
    destruct (parity_cases (r1 + r2)) as [-> | ->],
      (parity_cases (g1 + g2)) as [-> | ->],
      (parity_cases (b1 + b2)) as [-> | ->]; reflexivity. }
  rewrite Hx, Z.shiftr_div_pow2 by lia. unfold u16. subst c p. zdiv.
Qed.

Lemma mix_pixel_xrgb8888 (r1 g1 b1 r2 g2 b2 : Z) :
  channels_ok XRGB8888 r1 g1 b1 -> channels_ok XRGB8888 r2 g2 b2 ->
  mix_pixel XRGB8888 (pack XRGB8888 r1 g1 b1) (pack XRGB8888 r2 g2 b2) =
  pack XRGB8888 (mean_up r1 r2) (mean_up g1 g2) (mean_up b1 b2).
Proof.
  unfold channels_ok, mix_pixel, mix_mask, pack, mean_up. intros H1 H2.
  set (c := r1 * 65536 + g1 * 256 + b1).
  set (p := r2 * 65536 + g2 * 256 + b2).
  assert (Hx : Z.land (Z.lxor c p) 0x10101 =
               65536 * ((r1 + r2) mod 2) + 256 * ((g1 + g2) mod 2)
               + (b1 + b2) mod 2).
  { change 0x10101 with (Z.lor (2 ^ 0) (Z.lor (2 ^ 8) (2 ^ 16))).
    rewrite !Z.land_lor_distr_r, !land_lxor_pow2 by lia.
    replace ((c / 2 ^ 0 + p / 2 ^ 0) mod 2) with ((b1 + b2) mod 2)
      by (subst c p; zdiv).
    replace ((c / 2 ^ 8 + p / 2 ^ 8) mod 2) with ((g1 + g2) mod 2)
      by (subst c p; zdiv).
    replace ((c / 2 ^ 16 + p / 2 ^ 16) mod 2) with ((r1 + r2) mod 2)
      by (subst c p; zdiv).
    destruct (parity_cases (r1 + r2)) as [-> | ->],
      (parity_cases (g1 + g2)) as [-> | ->],
      (parity_cases (b1 + b2)) as [-> | ->]; reflexivity. }
  rewrite Hx. rewrite (u32_small (c + p)) by (subst c p; lia).
  rewrite u32_small by (subst c p; zdiv).
  rewrite Z.shiftr_div_pow2 by lia. subst c p. zdiv.
Qed.

Lemma mix_pixel_abgr1555 (r1 g1 b1 r2 g2 b2 : Z) :
  channels_ok ABGR1555 r1 g1 b1 -> channels_ok ABGR1555 r2 g2 b2 ->
  mix_pixel ABGR1555 (pack ABGR1555 r1 g1 b1) (pack ABGR1555 r2 g2 b2) =
  pack ABGR1555 (mean_up r1 r2) (mean_up g1 g2) (mean_up b1 b2)
  + stray ABGR1555 g1 g2.
Proof.
  unfold channels_ok, mix_pixel, mix_mask, pack, mean_up, stray.
  intros H1 H2.
  set (c := b1 * 1024 + g1 * 32 + r1). set (p := b2 * 1024 + g2 * 32 + r2).
  assert (Hx : Z.land (Z.lxor c p) 0x521 =
               1024 * ((b1 + b2) mod 2) + 256 * ((g1 / 8 + g2 / 8) mod 2)
               + 32 * ((g1 + g2) mod 2) + (r1 + r2) mod 2).
  { change 0x521 with
      (Z.lor (2 ^ 0) (Z.lor (2 ^ 5) (Z.lor (2 ^ 8) (2 ^ 10)))).
    rewrite !Z.land_lor_distr_r, !land_lxor_pow2 by lia.
    replace ((c / 2 ^ 0 + p / 2 ^ 0) mod 2) with ((r1 + r2) mod 2)
      by (subst c p; zdiv).
    replace ((c / 2 ^ 5 + p / 2 ^ 5) mod 2) with ((g1 + g2) mod 2)
      by (subst c p; zdiv).
    replace ((c / 2 ^ 8 + p / 2 ^ 8) mod 2) with ((g1 / 8 + g2 / 8) mod 2)
      by (subst c p; zdiv).
    replace ((c / 2 ^ 10 + p / 2 ^ 10) mod 2) with ((b1 + b2) mod 2)
      by (subst c p; zdiv).
    destruct (parity_cases (r1 + r2)) as [-> | ->],
      (parity_cases (g1 + g2)) as [-> | ->],
      (parity_cases (g1 / 8 + g2 / 8)) as [-> | ->],
      (parity_cases (b1 + b2)) as [-> | ->]; reflexivity. }
  rewrite Hx, Z.shiftr_div_pow2 by lia.
  rewrite !(testbit_div _ 3) by lia. rewrite <- Z.odd_add.
  change (2 ^ 3) with 8.
  pose proof (Zmod_odd (g1 / 8 + g2 / 8)) as Hodd.
  unfold u16. subst c p.
  destruct (Z.odd (g1 / 8 + g2 / 8)); zdiv.
Qed.

(** *** The fast ghosting filters on channels *)

Lemma unpack_pack (f : pixel_format) (r g b : Z) :
  channels_ok f r g b -> unpack f (pack f r g b) = seen f r g b.
Proof.
  unfold channels_ok, unpack, pack, seen. intros H.
  destruct f; rewrite !land_31, ?Z.shiftr_div_pow2 by lia;
    (apply f_equal2; [apply f_equal2 |]); zdiv.
Qed.

Lemma seen_range (f : pixel_format) (r g b : Z) :
  channels_ok f r g b ->
  let '(r', g', b') := seen f r g b in
  0 <= r' < 32 /\ 0 <= g' < 32 /\ 0 <= b' < 32.
Proof.
  unfold channels_ok, seen. intros H.
  destruct f; cbv beta iota zeta; repeat split; zdiv.
Qed.

Lemma repack_stored (f : pixel_format) (r g b : Z) :
  0 <= r < 32 -> 0 <= g < 32 -> 0 <= b < 32 ->
  repack f r g b = stored f r g b.
Proof.
  intros Hr Hg Hb. unfold repack, stored, pack. destruct f.
  - rewrite (Z.shiftl_mul_pow2 g 6) by lia.
    rewrite (lor_shiftl_add r (g * 2 ^ 6) 11) by lia.
    replace (r * 2 ^ 11 + g * 2 ^ 6) with (Z.shiftl (r * 32 + g) 6)
      by (rewrite Z.shiftl_mul_pow2; lia).
    rewrite lor_shiftl_add by lia. unfold u16. zdiv.
  - rewrite (Z.lor_comm r), (Z.lor_comm _ (Z.shiftl b 10)).
    rewrite (lor_shiftl_add g r 5) by lia.
    rewrite lor_shiftl_add by lia. unfold u16. zdiv.
  - rewrite (Z.shiftl_mul_pow2 g 8) by lia.
    rewrite (lor_shiftl_add r (g * 2 ^ 8) 16) by lia.
    replace (r * 2 ^ 16 + g * 2 ^ 8) with (Z.shiftl (r * 256 + g) 8)
      by (rewrite Z.shiftl_mul_pow2; lia).
    rewrite lor_shiftl_add by lia. unfold u32. zdiv.
Qed.

Lemma ghost_channel_weighted (c p1 p2 p3 p4 : Z) :
  0 <= c < 32 -> 0 <= p1 < 32 -> 0 <= p2 < 32 -> 0 <= p3 < 32 ->
  0 <= p4 < 32 ->
  ghost_channel c p1 p2 p3 p4 = weighted c p1 p2 p3 p4 /\
  0 <= weighted c p1 p2 p3 p4 < 32.
Proof.
  intros Hc H1 H2 H3 H4. unfold ghost_channel, weighted.
  change (response 0) with 85. change (response 1) with 28.
  change (response 2) with 9. change (response 3) with 3.
  rewrite Z.shiftl_mul_pow2, Z.shiftr_div_pow2 by lia.
  change (2 ^ 8) with 256.
  replace (c * 256 + (p1 - c) * 85 + (p2 - c) * 28 + (p3 - c) * 9
           + (p4 - c) * 3 + 128)
    with (131 * c + 85 * p1 + 28 * p2 + 9 * p3 + 3 * p4 + 128) by lia.
  set (m := (131 * c + 85 * p1 + 28 * p2 + 9 * p3 + 3 * p4 + 128) / 256).
  assert (Hm : 0 <= m < 32) by (subst m; zdiv).
  split; [| exact Hm].
  destruct (Z.ltb_spec 0x1F m); [lia |].
  destruct (Z.ltb_spec m 0); [lia | reflexivity].
Qed.

Lemma weighted_between (lo hi c p1 p2 p3 p4 : Z) :
  lo <= c <= hi -> lo <= p1 <= hi -> lo <= p2 <= hi -> lo <= p3 <= hi ->
  lo <= p4 <= hi -> lo <= weighted c p1 p2 p3 p4 <= hi.
Proof. intros. unfold weighted. zdiv. Qed.

(** *** The loops over the frame *)

Lemma blend_row_spec op n : forall x base curr prev,
  let r := blend_row op n x base curr prev in
  length (fst r) = length curr /\ length (snd r) = length prev /\
  forall i,
    get (fst r) i =
      (if decide (base + x <= i < base + x + n /\ i < length curr)%nat
       then op (get curr i) (get prev i) else get curr i) /\
    get (snd r) i =
      (if decide (base + x <= i < base + x + n /\ i < length prev)%nat
       then get curr i else get prev i).
Proof.
  induction n as [| n IH]; intros x base curr prev; cbv zeta.
  - cbn [blend_row fst snd]. repeat split; destruct (decide _); auto; lia.
  - cbn [blend_row].
    specialize (IH (S x) base
      (<[(base + x)%nat := op (get curr (base + x)) (get prev (base + x))]>
         curr)
      (<[(base + x)%nat := get curr (base + x)]> prev)).
    cbv zeta in IH. destruct IH as (Hl1 & Hl2 & IH).
    rewrite length_insert in Hl1, Hl2.
    split; [exact Hl1 |]. split; [exact Hl2 |]. intros i.
    destruct (IH i) as [Hc Hp]. rewrite Hc, Hp. clear Hc Hp IH.
    rewrite !length_insert, !get_insert.
    split; repeat destruct (decide _); try reflexivity; try lia;
      repeat match goal with
             | H : _ = _ /\ _ |- _ => destruct H as [<- ?]
             end; try reflexivity; lia.
Qed.

Lemma blend_rows_spec op n : forall base curr prev,
  let r := blend_rows op n base curr prev in
  length (fst r) = length curr /\ length (snd r) = length prev /\
  forall i,
    get (fst r) i =
      (if in_rows n base i && (i <? length curr)%nat
       then op (get curr i) (get prev i) else get curr i) /\
    get (snd r) i =
      (if in_rows n base i && (i <? length prev)%nat
       then get curr i else get prev i).
Proof.
  induction n as [| n IH]; intros base curr prev; cbv zeta.
  - cbn [blend_rows fst snd]. repeat split; now rewrite in_rows_0.
  - cbn [blend_rows].
    pose proof (blend_row_spec op VIDEO_WIDTH 0 base curr prev) as Hrow.
    destruct (blend_row op VIDEO_WIDTH 0 base curr prev) as [c1 p1].
    cbv zeta in Hrow. cbn [fst snd] in Hrow.
    destruct Hrow as (Hlc & Hlp & Hrow).
    specialize (IH (base + VIDEO_PITCH)%nat c1 p1). cbv zeta in IH.
    destruct IH as (Hl1 & Hl2 & IH).
    split; [congruence |]. split; [congruence |]. intros i.
    destruct (IH i) as [Hc Hp]. destruct (Hrow i) as [Hc1 Hp1].
    rewrite Hc, Hp, Hlc, Hlp, in_rows_S. clear Hc Hp IH Hrow.
    destruct (in_rows n (base + VIDEO_PITCH) i) eqn:Hlater.
    + apply in_rows_later in Hlater.
      rewrite orb_true_r, Hc1, Hp1.
      repeat destruct (decide _); lia.
    + rewrite orb_false_r. cbn [andb]. rewrite Hc1, Hp1. clear Hc1 Hp1.
      split.
      * destruct (Nat.leb_spec base i),
          (Nat.ltb_spec i (base + VIDEO_WIDTH)),
          (Nat.ltb_spec i (length curr)); cbn [andb];
          destruct (decide _); try reflexivity; lia.
      * destruct (Nat.leb_spec base i),
          (Nat.ltb_spec i (base + VIDEO_WIDTH)),
          (Nat.ltb_spec i (length prev)); cbn [andb];
          destruct (decide _); try reflexivity; lia.
Qed.

Lemma blend_linear_spec op n : forall i curr prev,
  let r := blend_linear op n i curr prev in
  length (fst r) = length curr /\ length (snd r) = length prev /\
  forall j,
    get (fst r) j =
      (if decide (i <= j < i + n /\ j < length curr)%nat
       then op (get curr j) (get prev j) else get curr j) /\
    get (snd r) j =
      (if decide (i <= j < i + n /\ j < length prev)%nat
       then get curr j else get prev j).
Proof.
  induction n as [| n IH]; intros i curr prev; cbv zeta.
  - cbn [blend_linear fst snd]. repeat split; destruct (decide _); auto; lia.
  - cbn [blend_linear].
    specialize (IH (S i)
      (<[i := op (get curr i) (get prev i)]> curr)
      (<[i := get curr i]> prev)).
    cbv zeta in IH. destruct IH as (Hl1 & Hl2 & IH).
    rewrite length_insert in Hl1, Hl2.
    split; [exact Hl1 |]. split; [exact Hl2 |]. intros j.
    destruct (IH j) as [Hc Hp]. rewrite Hc, Hp. clear Hc Hp IH.
    rewrite !length_insert, !get_insert.
    split; repeat destruct (decide _); try reflexivity; try lia;
      repeat match goal with
             | H : _ = _ /\ _ |- _ => destruct H as [<- ?]
             end; try reflexivity; lia.
Qed.

Lemma total_pixels_rows : total_pixels = (90 * VIDEO_PITCH)%nat.
Proof. reflexivity. Qed.

Lemma linear_rows (i : nat) :
  (i < total_pixels)%nat <-> (i / VIDEO_PITCH < 90)%nat.
Proof.
  rewrite total_pixels_rows. destruct width_le_pitch as [_ Hp].
  pose proof (Nat.Div0.div_mod i VIDEO_PITCH).
  pose proof (Nat.mod_upper_bound i VIDEO_PITCH). split; nia.
Qed.

Lemma blend_linear_frame op (curr prev : list Z) (i : nat) :
  length curr = VIDEO_BUFF_PIXELS -> length prev = VIDEO_BUFF_PIXELS ->
  (i < VIDEO_BUFF_PIXELS)%nat ->
  let r := blend_linear op total_pixels 0 curr prev in
  get (fst r) i =
    (if (i / VIDEO_PITCH <? 90)%nat then op (get curr i) (get prev i)
     else get curr i) /\
  get (snd r) i =
    (if (i / VIDEO_PITCH <? 90)%nat then get curr i else get prev i).
Proof.
  intros Hc Hp Hi. cbv zeta.
  destruct (blend_linear_spec op total_pixels 0 curr prev) as (_ & _ & H).
  destruct (H i) as [H1 H2]. rewrite H1, H2, Hc, Hp. clear H H1 H2.
  pose proof (linear_rows i) as Hrows.
  destruct (Nat.ltb_spec (i / VIDEO_PITCH) 90);
    split; destruct (decide _); try reflexivity; lia.
Qed.

Lemma blend_rows_frame op (curr prev : list Z) (i : nat) :
  length curr = VIDEO_BUFF_PIXELS -> length prev = VIDEO_BUFF_PIXELS ->
  (i < VIDEO_BUFF_PIXELS)%nat ->
  let r := blend_rows op VIDEO_HEIGHT 0 curr prev in
  get (fst r) i =
    (if visible i then op (get curr i) (get prev i) else get curr i) /\
  get (snd r) i = (if visible i then get curr i else get prev i).
Proof.
  intros Hc Hp Hi. cbv zeta.
  destruct (blend_rows_spec op VIDEO_HEIGHT 0 curr prev) as (_ & _ & H).
  destruct (H i) as [H1 H2]. rewrite H1, H2, Hc, Hp.
  rewrite in_rows_visible by assumption.
  assert (Hlt : (i <? VIDEO_BUFF_PIXELS)%nat = true) by now apply Nat.ltb_lt.
  rewrite Hlt, andb_true_r. split; reflexivity.
Qed.

Lemma blend_sequence_lengths f frames : forall prev,
  Forall (fun F => length F = VIDEO_BUFF_PIXELS) frames ->
  length prev = VIDEO_BUFF_PIXELS ->
  length (fst (blend_sequence f frames prev)) = length frames /\
  length (snd (blend_sequence f frames prev)) = VIDEO_BUFF_PIXELS /\
  forall i, (i < VIDEO_BUFF_PIXELS)%nat -> visible i = false ->
    get (snd (blend_sequence f frames prev)) i = get prev i.
Proof.
  induction frames as [| F rest IH]; intros prev HF Hp.
  - cbn [blend_sequence fst snd length]. auto.
  - apply Forall_cons in HF. destruct HF as [HlF Hrest].
    cbn [blend_sequence].
    destruct (blend_frames_mix_spec f F prev HlF Hp) as (_ & Hl1 & H1).
    destruct (blend_frames_mix f F prev) as [out p1]. cbn [fst snd] in *.
    destruct (IH p1 Hrest Hl1) as (Hlen & Hl2 & Hpad).
    destruct (blend_sequence f rest p1) as [outs p2]. cbn [fst snd] in *.
    split; [cbn [length]; now rewrite Hlen |]. split; [assumption |].
    intros i Hi Hv. rewrite (Hpad i Hi Hv).
    destruct (H1 i Hi) as [_ Hprev]. now rewrite Hprev, Hv.
Qed.

(** X21: the per-pixel expression of the mix filter is the mean of each
    colour channel, rounded up.  This is the expression the loop of a
    build without [__mips__] stores for every pixel of the picture (the
    word loop of a [__mips__] build is a different computation).  For
    two pixels given by their red, green and blue values, the value of
    the expression has in each channel the mean of the two values,
    halves rounded up, in the RGB565 and the XRGB8888 layout.  In the
    ABGR1555 layout the same holds when the two green values agree in
    bit 3; when they differ there, the value is 128 more (the mask 0x521
    has bit 8 set besides the lowest bit of each channel). *)
Theorem mix_is_channel_mean (f : pixel_format) (r1 g1 b1 r2 g2 b2 : Z) :
  channels_ok f r1 g1 b1 -> channels_ok f r2 g2 b2 ->
  mix_pixel f (pack f r1 g1 b1) (pack f r2 g2 b2) =
  pack f (mean_up r1 r2) (mean_up g1 g2) (mean_up b1 b2) + stray f g1 g2.
Proof.
  intros H1 H2. destruct f.
  - rewrite mix_pixel_rgb565 by assumption. cbn [stray]. lia.
  - now apply mix_pixel_abgr1555.
  - rewrite mix_pixel_xrgb8888 by assumption. cbn [stray]. lia.
Qed.

Lemma mix_is_channel_mean_witness :
  mix_pixel ABGR1555 (pack ABGR1555 31 8 3) (pack ABGR1555 0 7 4) =
  pack ABGR1555 (mean_up 31 0) (mean_up 8 7) (mean_up 3 4)
  + stray ABGR1555 8 7.
Proof.
  apply (mix_is_channel_mean ABGR1555 31 8 3 0 7 4); cbn; lia.
Defined.

(** X22: the mix filter remembers exactly one frame.  When the core
    produces a run of frames and the filter runs on each, every frame
    handed on after the first has, at each pixel of the picture, the
    mix of that frame's pixel with the pixel of the frame just before
    it, whatever the previous-frame buffer held at the start, and the
    padding of the frame unchanged; and the padding of the
    previous-frame buffer is never written. *)
Theorem mix_remembers_one_frame (f : pixel_format) (frames : list (list Z))
  (P : list Z) (k : nat) (Fa Fb : list Z) :
  Forall (fun F => length F = VIDEO_BUFF_PIXELS) frames ->
  length P = VIDEO_BUFF_PIXELS ->
  frames !! k = Some Fa -> frames !! S k = Some Fb ->
  (exists out,
     fst (blend_sequence f frames P) !! S k = Some out /\
     length out = VIDEO_BUFF_PIXELS /\
     forall i, (i < VIDEO_BUFF_PIXELS)%nat ->
       get out i =
         (if visible i then mix_pixel f (get Fb i) (get Fa i)
          else get Fb i)) /\
  (forall i, (i < VIDEO_BUFF_PIXELS)%nat -> visible i = false ->
     get (snd (blend_sequence f frames P)) i = get P i).
Proof.
  intros HF HP Ha Hb. split.
  2: { intros i Hi Hv. now apply blend_sequence_lengths. }
  revert P k HP Ha Hb. induction HF as [| F rest HlF Hrest IH];
    intros P k HP Ha Hb; [discriminate |].
  cbn [blend_sequence].
  destruct (blend_frames_mix_spec f F P HlF HP) as (_ & Hl1 & H1).
  destruct (blend_frames_mix f F P) as [out1 p1]. cbn [fst snd] in *.
  destruct k as [| k].
  - cbn in Ha. injection Ha as ->. cbn in Hb.
    destruct rest as [| F2 rest2]; [discriminate |].
    cbn in Hb. injection Hb as ->.
    apply Forall_cons in Hrest. destruct Hrest as [HlF2 _].
    cbn [blend_sequence].
    destruct (blend_frames_mix_spec f Fb p1 HlF2 Hl1) as (Hlo & _ & H2).
    destruct (blend_frames_mix f Fb p1) as [out2 p2]. cbn [fst snd] in *.
    destruct (blend_sequence f rest2 p2) as [outs p3]. cbn [fst].
    exists out2. split; [reflexivity |]. split; [assumption |].
    intros i Hi. destruct (H2 i Hi) as [Hc _]. rewrite Hc.
    destruct (H1 i Hi) as [_ Hp1]. rewrite Hp1.
    destruct (visible i); reflexivity.
  - cbn in Ha, Hb. destruct (IH p1 k Hl1 Ha Hb) as (out & Hout & Hrest').
    destruct (blend_sequence f rest p1) as [outs p2]. cbn [fst] in *.
    exists out. split; [exact Hout | exact Hrest'].
Qed.

Lemma flat_frame_length (c : Z) : length (flat_frame c) = VIDEO_BUFF_PIXELS.
Proof. apply length_replicate. Qed.

Lemma mix_remembers_one_frame_witness :
  (exists out,
     fst (blend_sequence RGB565 [flat_frame 7; flat_frame 0; flat_frame 65535]
            (flat_frame 99)) !! 2%nat = Some out /\
     length out = VIDEO_BUFF_PIXELS /\
     forall i, (i < VIDEO_BUFF_PIXELS)%nat ->
       get out i =
         (if visible i
          then mix_pixel RGB565 (get (flat_frame 65535) i)
                 (get (flat_frame 0) i)
          else get (flat_frame 65535) i)) /\
  (forall i, (i < VIDEO_BUFF_PIXELS)%nat -> visible i = false ->
     get (snd (blend_sequence RGB565
                 [flat_frame 7; flat_frame 0; flat_frame 65535]
                 (flat_frame 99))) i = get (flat_frame 99) i).
Proof.
  apply (mix_remembers_one_frame RGB565
           [flat_frame 7; flat_frame 0; flat_frame 65535] (flat_frame 99) 1
           (flat_frame 0) (flat_frame 65535)).
  - repeat constructor; apply flat_frame_length.
  - apply flat_frame_length.
  - reflexivity.
  - reflexivity.
Defined.

(** X23: the fast ghosting filters are means of five-bit channels.
    [blend_frames_lcd_ghost_fast] stores in each channel the mean of the
    current and the previous value, halves rounded down, and
    [blend_frames_ultra_fast] three quarters of the current plus one
    quarter of the previous value, rounded down; the clamp to [0x1F]
    never changes a value.  The channels are what the filters read:
    five bits each, which in the RGB565 layout are the upper five of the
    six green bits (the lowest green bit of the result is always 0) and
    in the XRGB8888 layout the lower five bits of each channel. *)
Theorem fast_filters_are_channel_means (f : pixel_format)
  (r1 g1 b1 r2 g2 b2 : Z) :
  channels_ok f r1 g1 b1 -> channels_ok f r2 g2 b2 ->
  let '(r1', g1', b1') := seen f r1 g1 b1 in
  let '(r2', g2', b2') := seen f r2 g2 b2 in
  ghost_fast_pixel f (pack f r1 g1 b1) (pack f r2 g2 b2) =
    stored f (mean_down r1' r2') (mean_down g1' g2') (mean_down b1' b2') /\
  ultra_fast_pixel f (pack f r1 g1 b1) (pack f r2 g2 b2) =
    stored f ((3 * r1' + r2') / 4) ((3 * g1' + g2') / 4)
      ((3 * b1' + b2') / 4).
Proof.
  intros H1 H2. unfold ghost_fast_pixel, ultra_fast_pixel.
  rewrite !unpack_pack by assumption.
  pose proof (seen_range f r1 g1 b1 H1) as R1.
  pose proof (seen_range f r2 g2 b2 H2) as R2.
  destruct (seen f r1 g1 b1) as [[x1 y1] z1].
  destruct (seen f r2 g2 b2) as [[x2 y2] z2].
  destruct R1 as (Hx1 & Hy1 & Hz1). destruct R2 as (Hx2 & Hy2 & Hz2).
  unfold curr_factor, fade_factor, mean_down.
  rewrite !Z.shiftr_div_pow2 by lia.
  change (2 ^ 8) with 256. change (2 ^ 2) with 4.
  replace ((x1 * (256 - 128) + x2 * 128) / 256) with ((x1 + x2) / 2) by zdiv.
  replace ((y1 * (256 - 128) + y2 * 128) / 256) with ((y1 + y2) / 2) by zdiv.
  replace ((z1 * (256 - 128) + z2 * 128) / 256) with ((z1 + z2) / 2) by zdiv.
  assert (Hcx : (0x1F <? (x1 + x2) / 2) = false) by (apply Z.ltb_ge; zdiv).
  assert (Hcy : (0x1F <? (y1 + y2) / 2) = false) by (apply Z.ltb_ge; zdiv).
  assert (Hcz : (0x1F <? (z1 + z2) / 2) = false) by (apply Z.ltb_ge; zdiv).
  rewrite Hcx, Hcy, Hcz.
  replace (x1 * 3 + x2) with (3 * x1 + x2) by lia.
  replace (y1 * 3 + y2) with (3 * y1 + y2) by lia.
  replace (z1 * 3 + z2) with (3 * z1 + z2) by lia.
  split; apply repack_stored; zdiv.
Qed.

Lemma fast_filters_are_channel_means_witness :
  let '(r1', g1', b1') := seen RGB565 31 63 0 in
  let '(r2', g2', b2') := seen RGB565 0 1 31 in
  ghost_fast_pixel RGB565 (pack RGB565 31 63 0) (pack RGB565 0 1 31) =
    stored RGB565 (mean_down r1' r2') (mean_down g1' g2')
      (mean_down b1' b2') /\
  ultra_fast_pixel RGB565 (pack RGB565 31 63 0) (pack RGB565 0 1 31) =
    stored RGB565 ((3 * r1' + r2') / 4) ((3 * g1' + g2') / 4)
      ((3 * b1' + b2') / 4).
Proof.
  apply (fast_filters_are_channel_means RGB565 31 63 0 0 1 31); cbn; lia.
Defined.

(** X24: which pixels the fast filters touch.  Built without [__mips__],
    [blend_frames_lcd_ghost_fast] rewrites the 160 x 144 picture and
    leaves the padding of each 256-pixel row alone.  The [__mips__]
    loops of [blend_frames_lcd_ghost_fast] and [blend_frames_ultra_fast]
    run over the first 144 * 160 entries of the buffers instead: they
    rewrite rows 0 to 89 in full, padding included, and leave rows 90
    to 143 of the frame and of the previous-frame buffer as they
    were. *)
Theorem fast_filter_loops_cover (f : pixel_format) (curr prev : list Z)
  (i : nat) :
  length curr = VIDEO_BUFF_PIXELS -> length prev = VIDEO_BUFF_PIXELS ->
  (i < VIDEO_BUFF_PIXELS)%nat ->
  let portable := blend_frames_lcd_ghost_fast false f curr prev in
  let mips := blend_frames_lcd_ghost_fast true f curr prev in
  let ultra := blend_frames_ultra_fast f curr prev in
  let upper := (i / VIDEO_PITCH <? 90)%nat in
  get (fst portable) i =
    (if visible i then ghost_fast_pixel f (get curr i) (get prev i)
     else get curr i) /\
  get (snd portable) i = (if visible i then get curr i else get prev i) /\
  get (fst mips) i =
    (if upper then ghost_fast_pixel f (get curr i) (get prev i)
     else get curr i) /\
  get (snd mips) i = (if upper then get curr i else get prev i) /\
  get (fst ultra) i =
    (if upper then ultra_fast_pixel f (get curr i) (get prev i)
     else get curr i) /\
  get (snd ultra) i = (if upper then get curr i else get prev i).
Proof.
  intros Hc Hp Hi. cbv zeta.
  unfold blend_frames_lcd_ghost_fast, blend_frames_ultra_fast.
  destruct (blend_rows_frame (ghost_fast_pixel f) curr prev i Hc Hp Hi)
    as [R1 R2].
  destruct (blend_linear_frame (ghost_fast_pixel f) curr prev i Hc Hp Hi)
    as [M1 M2].
  destruct (blend_linear_frame (ultra_fast_pixel f) curr prev i Hc Hp Hi)
    as [U1 U2].
  split; [exact R1 |]. split; [exact R2 |]. split; [exact M1 |].
  split; [exact M2 |]. split; [exact U1 | exact U2].
Qed.

Lemma fast_filter_loops_cover_witness :
  let curr := flat_frame 65535 in
  let prev := flat_frame 0 in
  let i := (100 * VIDEO_PITCH)%nat in
  let portable := blend_frames_lcd_ghost_fast false RGB565 curr prev in
  let mips := blend_frames_lcd_ghost_fast true RGB565 curr prev in
  let ultra := blend_frames_ultra_fast RGB565 curr prev in
  let upper := (i / VIDEO_PITCH <? 90)%nat in
  get (fst portable) i =
    (if visible i then ghost_fast_pixel RGB565 (get curr i) (get prev i)
     else get curr i) /\
  get (snd portable) i = (if visible i then get curr i else get prev i) /\
  get (fst mips) i =
    (if upper then ghost_fast_pixel RGB565 (get curr i) (get prev i)
     else get curr i) /\
  get (snd mips) i = (if upper then get curr i else get prev i) /\
  get (fst ultra) i =
    (if upper then ultra_fast_pixel RGB565 (get curr i) (get prev i)
     else get curr i) /\
  get (snd ultra) i = (if upper then get curr i else get prev i).
Proof.
  apply (fast_filter_loops_cover RGB565 (flat_frame 65535) (flat_frame 0)
           (100 * VIDEO_PITCH)).
  - apply flat_frame_length.
  - apply flat_frame_length.
  - unfold VIDEO_BUFF_PIXELS, VIDEO_PITCH, NUM_GAMEBOYS, VIDEO_HEIGHT. lia.
Defined.

(** X29: the LCD ghosting filter is a weighted mean of five frames.
    [blend_frames_lcd_ghost] stores in each channel the mean of the
    current value and the values of the four frames before it, with the
    weights 131, 85, 28, 9 and 3 of 256, rounded to the nearest; neither
    side of the clamp ever changes a value.  The result lies between the
    smallest and the largest of the five values, so a channel that did
    not change over five frames is stored as it is.  The channels are
    the five bits the filter reads (the upper five of the six green bits
    of RGB565, the lower five bits of each XRGB8888 channel). *)
Theorem lcd_ghost_is_weighted_mean (f : pixel_format)
  (c p1 p2 p3 p4 : Z * Z * Z) :
  triple_ok f c -> triple_ok f p1 -> triple_ok f p2 -> triple_ok f p3 ->
  triple_ok f p4 ->
  let '(rc, gc, bc) := seen_of f c in
  let '(r1, g1, b1) := seen_of f p1 in
  let '(r2, g2, b2) := seen_of f p2 in
  let '(r3, g3, b3) := seen_of f p3 in
  let '(r4, g4, b4) := seen_of f p4 in
  lcd_ghost_pixel f (pixel_of f c) (pixel_of f p1) (pixel_of f p2)
    (pixel_of f p3) (pixel_of f p4)
  = stored f (weighted rc r1 r2 r3 r4) (weighted gc g1 g2 g3 g4)
      (weighted bc b1 b2 b3 b4) /\
  (forall lo hi x y1 y2 y3 y4,
     lo <= x <= hi -> lo <= y1 <= hi -> lo <= y2 <= hi -> lo <= y3 <= hi ->
     lo <= y4 <= hi -> lo <= weighted x y1 y2 y3 y4 <= hi).
Proof.
  destruct c as [[rc gc] bc], p1 as [[r1 g1] b1], p2 as [[r2 g2] b2],
    p3 as [[r3 g3] b3], p4 as [[r4 g4] b4].
  cbn [triple_ok seen_of pixel_of]. intros Hc H1 H2 H3 H4.
  unfold lcd_ghost_pixel. rewrite !unpack_pack by assumption.
  pose proof (seen_range f rc gc bc Hc) as Rc.
  pose proof (seen_range f r1 g1 b1 H1) as R1.
  pose proof (seen_range f r2 g2 b2 H2) as R2.
  pose proof (seen_range f r3 g3 b3 H3) as R3.
  pose proof (seen_range f r4 g4 b4 H4) as R4.
  destruct (seen f rc gc bc) as [[xc yc] zc].
  destruct (seen f r1 g1 b1) as [[x1 y1] z1].
  destruct (seen f r2 g2 b2) as [[x2 y2] z2].
  destruct (seen f r3 g3 b3) as [[x3 y3] z3].
  destruct (seen f r4 g4 b4) as [[x4 y4] z4].
  destruct Rc as (? & ? & ?), R1 as (? & ? & ?), R2 as (? & ? & ?),
    R3 as (? & ? & ?), R4 as (? & ? & ?).
  split; [| intros; now apply weighted_between].
  destruct (ghost_channel_weighted xc x1 x2 x3 x4) as [-> ?]; try assumption.
  destruct (ghost_channel_weighted yc y1 y2 y3 y4) as [-> ?]; try assumption.
  destruct (ghost_channel_weighted zc z1 z2 z3 z4) as [-> ?]; try assumption.
  now apply repack_stored.
Qed.

Lemma lcd_ghost_is_weighted_mean_witness :
  let '(rc, gc, bc) := seen_of RGB565 (31, 63, 0) in
  let '(r1, g1, b1) := seen_of RGB565 (0, 0, 31) in
  let '(r2, g2, b2) := seen_of RGB565 (0, 1, 31) in
  let '(r3, g3, b3) := seen_of RGB565 (8, 32, 16) in
  let '(r4, g4, b4) := seen_of RGB565 (31, 63, 31) in
  lcd_ghost_pixel RGB565 (pixel_of RGB565 (31, 63, 0))
    (pixel_of RGB565 (0, 0, 31)) (pixel_of RGB565 (0, 1, 31))
    (pixel_of RGB565 (8, 32, 16)) (pixel_of RGB565 (31, 63, 31))
  = stored RGB565 (weighted rc r1 r2 r3 r4) (weighted gc g1 g2 g3 g4)
      (weighted bc b1 b2 b3 b4) /\
  (forall lo hi x y1 y2 y3 y4,
     lo <= x <= hi -> lo <= y1 <= hi -> lo <= y2 <= hi -> lo <= y3 <= hi ->
     lo <= y4 <= hi -> lo <= weighted x y1 y2 y3 y4 <= hi).
Proof.
  apply (lcd_ghost_is_weighted_mean RGB565 (31, 63, 0) (0, 0, 31) (0, 1, 31)
           (8, 32, 16) (31, 63, 31)); cbn; lia.
Defined.

(** *** The word loop of the mix filter *)

Lemma land_le (x m : Z) : 0 <= x -> Z.land x m <= x.
Proof.
  intros Hx.
  pose proof (Z.add_lor_land (Z.ldiff x m) (Z.land x m)) as H.
  rewrite Z.lor_ldiff_and in H.
  assert (H0 : Z.land (Z.ldiff x m) (Z.land x m) = 0).
  { apply Z.bits_inj'. intros n Hn.
    rewrite !Z.land_spec, Z.ldiff_spec, Z.bits_0.
    destruct (Z.testbit x n), (Z.testbit m n); reflexivity. }
  rewrite H0 in H.
  assert (0 <= Z.ldiff x m) by (apply Z.ldiff_nonneg; now left).
  lia.
Qed.

Lemma lor_16 (a b : Z) :
  0 <= a < 65536 -> 0 <= b < 65536 -> 0 <= Z.lor a b < 65536.
Proof.
  intros Ha Hb. split; [apply Z.lor_nonneg; lia |].
  assert (H : Z.lor a b mod 2 ^ 16 = Z.lor a b).
  { rewrite <- Z.land_ones by lia. rewrite Z.land_lor_distr_l.
    rewrite !Z.land_ones by lia. now rewrite !Z.mod_small by lia. }
  pose proof (Z.mod_pos_bound (Z.lor a b) (2 ^ 16)). lia.
Qed.

Lemma testbit_16 (a n : Z) : 0 <= a < 65536 -> 16 <= n -> Z.testbit a n = false.
Proof.
  intros Ha Hn. rewrite testbit_div by lia.
  assert (Hpow : 2 ^ 16 <= 2 ^ n) by (apply Z.pow_le_mono_r; lia).
  rewrite Z.div_small by lia. reflexivity.
Qed.

(** The packed sum of two 16-bit pixels has 17 bits and is even. *)
Lemma mix_sum_16 (a b m : Z) :
  0 <= a < 65536 -> 0 <= b < 65536 -> Z.odd m = true ->
  let s := a + b + Z.land (Z.lxor a b) m in
  0 <= s < 131072 /\ s mod 2 = 0.
Proof.
  intros Ha Hb Hm. cbv zeta.
  assert (Hx : 0 <= Z.lxor a b) by (apply Z.lxor_nonneg; lia).
  pose proof (land_le (Z.lxor a b) m Hx) as Hle.
  assert (H0 : 0 <= Z.land (Z.lxor a b) m) by (apply Z.land_nonneg; now left).
  pose proof (Z.sub_2lor_lxor a b) as H2.
  pose proof (lor_16 a b Ha Hb) as Hl.
  split; [lia |].
  rewrite Zmod_odd, !Z.odd_add.
  rewrite <- (Z.bit0_odd (Z.land _ _)), Z.land_spec, Z.lxor_spec, !Z.bit0_odd.
  rewrite Hm. destruct (Z.odd a), (Z.odd b); reflexivity.
Qed.

(** Exclusive or and mask work on the two halves of a word apart. *)
Lemma land_lxor_halves (l1 h1 l2 h2 ml mh : Z) :
  0 <= l1 < 65536 -> 0 <= l2 < 65536 -> 0 <= ml < 65536 ->
  Z.land (Z.lxor (h1 * 65536 + l1) (h2 * 65536 + l2)) (mh * 65536 + ml)
  = Z.land (Z.lxor h1 h2) mh * 65536 + Z.land (Z.lxor l1 l2) ml.
Proof.
  intros H1 H2 Hm.
  assert (Hr : 0 <= Z.land (Z.lxor l1 l2) ml < 65536).
  { split; [apply Z.land_nonneg; right; lia |].
    rewrite Z.land_comm. pose proof (land_le ml (Z.lxor l1 l2)). lia. }
  change 65536 with (2 ^ 16) in *.
  rewrite <- !lor_shiftl_add by lia.
  apply Z.bits_inj'. intros n Hn.
  rewrite !Z.land_spec, !Z.lor_spec, !Z.lxor_spec, !Z.lor_spec,
    !Z.shiftl_spec, !Z.land_spec, !Z.lxor_spec by assumption.
  destruct (Z.lt_ge_cases n 16) as [Hlt | Hge].
  - rewrite !(Z.testbit_neg_r _ (n - 16)) by lia. reflexivity.
  - rewrite (testbit_16 l1), (testbit_16 l2), (testbit_16 ml) by lia.
    now rewrite !orb_false_r.
Qed.

Lemma blend_mask_halves (f : pixel_format) :
  f <> XRGB8888 -> blend_mask f = mix_mask f * 65536 + mix_mask f.
Proof. destruct f; [reflexivity | reflexivity | congruence]. Qed.

Lemma mix_mask_16 (f : pixel_format) :
  f <> XRGB8888 -> 0 <= mix_mask f < 65536 /\ Z.odd (mix_mask f) = true.
Proof. destruct f; cbn; try congruence; split; (lia || reflexivity). Qed.

Lemma mix_pixel_16 (f : pixel_format) (a b : Z) :
  f <> XRGB8888 ->
  mix_pixel f a b = u16 (Z.shiftr (a + b + Z.land (Z.lxor a b) (mix_mask f)) 1).
Proof. intros Hf. destruct f; [reflexivity | reflexivity | congruence]. Qed.

(** One word of the loop: the low half is the mix of the low halves, the
    high half is the mix of the high halves without its top bit, the
    carry out of the 32-bit sum. *)
Lemma mix_pair_halves (f : pixel_format) (l1 h1 l2 h2 : Z) :
  f <> XRGB8888 ->
  0 <= l1 < 65536 -> 0 <= h1 < 65536 -> 0 <= l2 < 65536 -> 0 <= h2 < 65536 ->
  mix_pair f (h1 * 65536 + l1) (h2 * 65536 + l2)
  = mix_pixel f h1 h2 mod 32768 * 65536 + mix_pixel f l1 l2.
Proof.
  intros Hf Hl1 Hh1 Hl2 Hh2. unfold mix_pair.
  destruct (mix_mask_16 f Hf) as [Hm Hodd].
  rewrite !mix_pixel_16, blend_mask_halves, land_lxor_halves by assumption.
  destruct (mix_sum_16 l1 l2 (mix_mask f) Hl1 Hl2 Hodd) as [Hsl _].
  destruct (mix_sum_16 h1 h2 (mix_mask f) Hh1 Hh2 Hodd) as [Hsh Heven].
  cbv zeta in Hsl, Hsh, Heven.
  set (xl := Z.land (Z.lxor l1 l2) (mix_mask f)) in *.
  set (xh := Z.land (Z.lxor h1 h2) (mix_mask f)) in *.
  clearbody xl xh. clear Hm Hodd.
  rewrite !Z.shiftr_div_pow2 by lia. unfold u32, u16.
  change (2 ^ 1) with 2. change (2 ^ 32) with 4294967296.
  change (2 ^ 16) with 65536.
  zdiv.
Qed.

Lemma mix_pixel_range_16 (f : pixel_format) (a b : Z) :
  f <> XRGB8888 -> 0 <= mix_pixel f a b < 65536.
Proof.
  intros Hf. rewrite mix_pixel_16 by assumption. unfold u16.
  change 65536 with (2 ^ 16). apply Z.mod_pos_bound. lia.
Qed.

Lemma get_16 (buf : list Z) (j : nat) : pixels16 buf -> 0 <= get buf j < 65536.
Proof.
  intros H. unfold get. destruct (buf !! j) as [c |] eqn:E; cbn; [| lia].
  unfold pixels16 in H. rewrite Forall_forall in H.
  apply H. eapply list_elem_of_lookup_2. exact E.
Qed.

Lemma halves_of_word (hi lo : Z) :
  0 <= lo < 65536 ->
  Z.land (hi * 65536 + lo) 0xFFFF = lo /\ Z.shiftr (hi * 65536 + lo) 16 = hi.
Proof.
  intros Hlo. change 0xFFFF with (Z.ones 16).
  rewrite Z.land_ones, Z.shiftr_div_pow2 by lia.
  change (2 ^ 16) with 65536. split; zdiv.
Qed.

Lemma high_half_even be (i : nat) : high_half be (2 * i) = be.
Proof.
  unfold high_half. rewrite Nat.odd_mul. cbn. now destruct be.
Qed.

Lemma high_half_odd be (i : nat) : high_half be (2 * i + 1) = negb be.
Proof.
  unfold high_half. rewrite Nat.odd_add, Nat.odd_mul. cbn. now destruct be.
Qed.

(** One iteration of the word loop on a buffer of 16-bit pixels. *)
Lemma mix_pairs_step be f n (i : nat) (curr prev : list Z) :
  f <> XRGB8888 -> pixels16 curr -> pixels16 prev ->
  mix_pairs be f (S n) i curr prev =
  mix_pairs be f n (S i)
    (<[(2 * i + 1)%nat :=
         mix_in_word be f (2 * i + 1) (get curr (2 * i + 1))
           (get prev (2 * i + 1))]>
       (<[(2 * i)%nat :=
            mix_in_word be f (2 * i) (get curr (2 * i)) (get prev (2 * i))]>
          curr))
    (<[(2 * i + 1)%nat := get curr (2 * i + 1)]>
       (<[(2 * i)%nat := get curr (2 * i)]> prev)).
Proof.
  intros Hf Hc Hp. cbn [mix_pairs].
  pose proof (get_16 curr (2 * i) Hc) as Ha0.
  pose proof (get_16 curr (2 * i + 1) Hc) as Ha1.
  pose proof (get_16 prev (2 * i) Hp) as Hb0.
  pose proof (get_16 prev (2 * i + 1) Hp) as Hb1.
  set (a0 := get curr (2 * i)) in *. set (a1 := get curr (2 * i + 1)) in *.
  set (b0 := get prev (2 * i)) in *. set (b1 := get prev (2 * i + 1)) in *.
  unfold mix_in_word. rewrite high_half_even, high_half_odd.
  assert (Hlc : load32 be f curr i
                = (if be then a0 else a1) * 65536 + (if be then a1 else a0)).
  { unfold load32. fold a0 a1. change 65536 with (2 ^ 16).
    destruct f; try congruence; destruct be; apply lor_shiftl_add; lia. }
  assert (Hlp : load32 be f prev i
                = (if be then b0 else b1) * 65536 + (if be then b1 else b0)).
  { unfold load32. fold b0 b1. change 65536 with (2 ^ 16).
    destruct f; try congruence; destruct be; apply lor_shiftl_add; lia. }
  rewrite Hlc, Hlp.
  rewrite mix_pair_halves by (try assumption; destruct be; assumption).
  assert (Hst : forall buf hi lo, 0 <= lo < 65536 ->
            store32 be f buf i (hi * 65536 + lo) =
            if be then <[(2 * i + 1)%nat := lo]> (<[(2 * i)%nat := hi]> buf)
            else <[(2 * i + 1)%nat := hi]> (<[(2 * i)%nat := lo]> buf)).
  { intros buf hi lo Hlo. unfold store32.
    destruct (halves_of_word hi lo Hlo) as [-> ->].
    destruct f; try congruence; reflexivity. }
  rewrite !Hst by (try apply mix_pixel_range_16; try assumption;
                   destruct be; assumption).
  destruct be; reflexivity.
Qed.

Lemma mix_in_word_16 be f j a b :
  f <> XRGB8888 -> 0 <= mix_in_word be f j a b < 65536.
Proof.
  intros Hf. unfold mix_in_word.
  pose proof (mix_pixel_range_16 f a b Hf).
  destruct (high_half be j); [zdiv | assumption].
Qed.

Lemma mix_pairs_spec be f n :
  f <> XRGB8888 ->
  forall (i : nat) (curr prev : list Z),
  pixels16 curr -> pixels16 prev ->
  (2 * (i + n) <= length curr)%nat -> (2 * (i + n) <= length prev)%nat ->
  let r := mix_pairs be f n i curr prev in
  length (fst r) = length curr /\ length (snd r) = length prev /\
  forall j,
    get (fst r) j =
      (if decide (2 * i <= j < 2 * (i + n))%nat
       then mix_in_word be f j (get curr j) (get prev j) else get curr j) /\
    get (snd r) j =
      (if decide (2 * i <= j < 2 * (i + n))%nat
       then get curr j else get prev j).
Proof.
  intros Hf. induction n as [| n IH]; intros i curr prev Hc Hp Hlc Hlp;
    cbv zeta.
  - cbn [mix_pairs fst snd]. repeat split; destruct (decide _); auto; lia.
  - rewrite mix_pairs_step by assumption.
    set (curr' := <[(2 * i + 1)%nat := _]> (<[(2 * i)%nat := _]> curr)).
    set (prev' := <[(2 * i + 1)%nat := _]> (<[(2 * i)%nat := _]> prev)).
    assert (Hc' : pixels16 curr').
    { subst curr'. unfold pixels16.
      do 2 (apply Forall_insert; [| now apply mix_in_word_16]). exact Hc. }
    assert (Hp' : pixels16 prev').
    { subst prev'. unfold pixels16.
      do 2 (apply Forall_insert; [| now apply get_16]). exact Hp. }
    assert (Hlc' : length curr' = length curr)
      by (subst curr'; now rewrite !length_insert).
    assert (Hlp' : length prev' = length prev)
      by (subst prev'; now rewrite !length_insert).
    specialize (IH (S i) curr' prev' Hc' Hp').
    cbv zeta in IH. rewrite Hlc', Hlp' in IH.
    destruct IH as (Hl1 & Hl2 & IH); [lia | lia |].
    split; [exact Hl1 |]. split; [exact Hl2 |]. intros j.
    destruct (IH j) as [Ec Ep]. rewrite Ec, Ep. clear Ec Ep IH.
    subst curr' prev'. rewrite !get_insert, !length_insert.
    split; repeat destruct (decide _); try reflexivity; try lia;
      repeat match goal with
             | H : _ = _ /\ _ |- _ => destruct H as [<- ?]
             end; try reflexivity; lia.
Qed.

Lemma total_pixels_double : total_pixels = (2 * (45 * VIDEO_PITCH))%nat.
Proof. reflexivity. Qed.

Lemma total_pixels_halves :
  Nat.odd total_pixels = false /\
  Nat.div2 total_pixels = (45 * VIDEO_PITCH)%nat.
Proof.
  rewrite total_pixels_double. split.
  - rewrite Nat.odd_mul. reflexivity.
  - apply Nat.div2_double.
Qed.

(** X28: built with [__mips__], the mix filter works on 32-bit words, two
    16-bit pixels at a time, and the pixel in the high half of each word
    loses its top bit.  In the RGB565 and the ABGR1555 layout the loop
    runs over the first 144 * 160 entries of the buffers (rows 0 to 89
    in full, padding included) and leaves the rest of the frame and of
    the previous-frame buffer as they were.  On its range the pixel in
    the low half of a word gets the value of the per-pixel expression,
    the pixel in the high half that value modulo 32768: bit 15 is the
    carry out of the 32-bit sum, and it is dropped.  The previous-frame
    buffer receives the pixels of the current frame. *)
Theorem mips_mix_drops_top_bit (big_endian : bool) (f : pixel_format)
  (curr prev : list Z) (i : nat) :
  f <> XRGB8888 ->
  length curr = VIDEO_BUFF_PIXELS -> length prev = VIDEO_BUFF_PIXELS ->
  pixels16 curr -> pixels16 prev ->
  (i < VIDEO_BUFF_PIXELS)%nat ->
  let r := blend_frames_mix_mips big_endian f curr prev in
  let upper := (i / VIDEO_PITCH <? 90)%nat in
  let m := mix_pixel f (get curr i) (get prev i) in
  get (fst r) i =
    (if upper then (if high_half big_endian i then m mod 32768 else m)
     else get curr i) /\
  get (snd r) i = (if upper then get curr i else get prev i).
Proof.
  intros Hf Hc Hp Hc16 Hp16 Hi. cbv zeta. unfold blend_frames_mix_mips.
  destruct total_pixels_halves as [-> ->].
  assert (Hlen : (2 * (0 + 45 * VIDEO_PITCH) <= VIDEO_BUFF_PIXELS)%nat).
  { unfold VIDEO_BUFF_PIXELS, VIDEO_PITCH, NUM_GAMEBOYS, VIDEO_HEIGHT. lia. }
  destruct (mix_pairs_spec big_endian f (45 * VIDEO_PITCH) Hf 0 curr prev
              Hc16 Hp16) as (_ & _ & H); [now rewrite Hc | now rewrite Hp |].
  destruct (mix_pairs big_endian f (45 * VIDEO_PITCH) 0 curr prev)
    as [out p1].
  cbn [fst snd] in *. destruct (H i) as [H1 H2]. rewrite H1, H2. clear H H1 H2.
  pose proof (linear_rows i) as Hrows. rewrite total_pixels_double in Hrows.
  unfold mix_in_word.
  destruct (Nat.ltb_spec (i / VIDEO_PITCH) 90);
    split; destruct (decide _); try reflexivity; lia.
Qed.

Lemma white_on_white : pixels16 (flat_frame 65535).
Proof. apply Forall_replicate. lia. Qed.

(** White mixed with white in RGB565 on a little-endian target: the
    second pixel of the frame comes out as 0x7FFF, the first as 0xFFFF. *)
Lemma mips_mix_drops_top_bit_witness :
  let r := blend_frames_mix_mips false RGB565 (flat_frame 65535)
             (flat_frame 65535) in
  (get (fst r) 1 = 32767 /\ get (snd r) 1 = 65535) /\
  mix_pixel RGB565 65535 65535 = 65535.
Proof.
  cbv zeta. split; [| reflexivity].
  destruct (mips_mix_drops_top_bit false RGB565 (flat_frame 65535)
              (flat_frame 65535) 1) as [H1 H2].
  - discriminate.
  - apply flat_frame_length.
  - apply flat_frame_length.
  - exact white_on_white.
  - exact white_on_white.
  - unfold VIDEO_BUFF_PIXELS, VIDEO_PITCH, NUM_GAMEBOYS, VIDEO_HEIGHT. lia.
  - rewrite H1, H2. split; reflexivity.
Defined.

End BlendMoreFacts.

(** ** Rumble: properties *)

Module RumbleFacts.
Import Mach MachFacts Rumble.

Local Ltac zdiv := Z.to_euclidean_division_equations; lia.

Lemma u16_range (x : Z) : 0 <= u16 x < 2 ^ 16.
Proof. unfold u16. apply Z.mod_pos_bound. lia. Qed.

(** *** Counting the calls of a pass *)

Lemma active_calls_cons (a : Z) (calls : list Z) :
  active_calls (a :: calls) =
  (if a =? 0 then 0 else 1) + active_calls calls.
Proof.
  unfold active_calls. destruct (Z.eqb_spec a 0) as [-> | Hne].
  - rewrite filter_cons_False by (intros H; now apply H). lia.
  - rewrite filter_cons_True by assumption. cbn [length]. lia.
Qed.

Lemma active_calls_range (calls : list Z) :
  0 <= active_calls calls <= Z.of_nat (length calls).
Proof.
  induction calls as [| a calls IH].
  - unfold active_calls. rewrite filter_nil. cbn [length]. lia.
  - rewrite active_calls_cons. cbn [length].
    destruct (a =? 0); lia.
Qed.

Lemma count_calls_spec (calls : list Z) : forall st,
  set_rumble_state st = true -> rumble_level st <> 0 ->
  0 <= rumble_strength_up st -> 0 <= rumble_strength_down st ->
  rumble_strength_up st + rumble_strength_down st
    + Z.of_nat (length calls) < 2 ^ 16 ->
  let st' := count_calls calls st in
  set_rumble_state st' = true /\
  rumble_level st' = rumble_level st /\
  rumble_strength_last st' = rumble_strength_last st /\
  rumble_strength_up st' = rumble_strength_up st + active_calls calls /\
  rumble_strength_down st' =
    rumble_strength_down st + (Z.of_nat (length calls) - active_calls calls) /\
  rumble_active st' =
    (if decide (calls = []) then rumble_active st else true).
Proof.
  induction calls as [| a calls IH]; intros st Hi Hl Hu Hd Hsum; cbv zeta.
  - unfold count_calls, active_calls. rewrite filter_nil.
    cbn [fold_left length]. destruct (decide _); [| congruence].
    repeat split; try assumption; try reflexivity; lia.
  - change (count_calls (a :: calls) st)
      with (count_calls calls (cartridge_set_rumble a st)).
    set (st1 := cartridge_set_rumble a st).
    assert (Hlevel : (rumble_level st =? 0) = false) by now apply Z.eqb_neq.
    pose proof (active_calls_range calls) as Hrange.
    assert (H1 : set_rumble_state st1 = true /\
                 rumble_level st1 = rumble_level st /\
                 rumble_strength_last st1 = rumble_strength_last st /\
                 rumble_strength_up st1 =
                   rumble_strength_up st + (if a =? 0 then 0 else 1) /\
                 rumble_strength_down st1 =
                   rumble_strength_down st + (if a =? 0 then 1 else 0) /\
                 rumble_active st1 = true).
    { subst st1. unfold cartridge_set_rumble. rewrite Hi, Hlevel.
      cbn [negb orb set_rumble_state rumble_level rumble_strength_last
             rumble_strength_up rumble_strength_down rumble_active].
      cbn [length] in Hsum.
      destruct (a =? 0); cbn [negb]; repeat split; try assumption;
        try lia; unfold u16; rewrite Z.mod_small; lia. }
    destruct H1 as (Hi1 & Hl1 & Hlast1 & Hu1 & Hd1 & Ha1).
    cbn [length] in Hsum.
    destruct (IH st1) as (Ji & Jl & Jlast & Ju & Jd & Ja).
    + assumption.
    + congruence.
    + rewrite Hu1. destruct (a =? 0); lia.
    + rewrite Hd1. destruct (a =? 0); lia.
    + rewrite Hu1, Hd1. destruct (a =? 0); lia.
    + rewrite active_calls_cons. cbn [length].
      split; [assumption |]. split; [congruence |].
      split; [congruence |]. split; [rewrite Ju, Hu1; lia |].
      split; [rewrite Jd, Hd1; destruct (a =? 0); lia |].
      rewrite Ja. destruct (decide (calls = [])); [| reflexivity].
      assumption.
Qed.

(** *** One step *)

Lemma apply_rumble_change (st : rumble_state) :
  one_change (rumble_strength_last st) (fst (apply_rumble st))
    (snd (apply_rumble st)).
Proof.
  unfold apply_rumble.
  destruct (negb (set_rumble_state st) || (rumble_level st =? 0)).
  - left. split; reflexivity.
  - match goal with
    | |- context [u16 ?e =? _] => set (strength := u16 e)
    end.
    destruct (Z.eqb_spec strength (rumble_strength_last st)) as [He | Hne].
    + left. split; reflexivity.
    + right. exists strength. cbn [fst snd rumble_strength_last].
      repeat split; try assumption; apply u16_range.
Qed.

Lemma deactivate_rumble_change (st : rumble_state) :
  one_change (rumble_strength_last st) (fst (deactivate_rumble st))
    (snd (deactivate_rumble st)).
Proof.
  unfold deactivate_rumble.
  destruct (negb (set_rumble_state st)); cbn [orb].
  - left. split; reflexivity.
  - destruct (Z.eqb_spec (rumble_strength_last st) 0) as [He | Hne].
    + left. split; reflexivity.
    + right. exists 0. cbn [fst snd rumble_strength_last].
      repeat split; try lia; congruence.
Qed.

Lemma rumble_step_change (op : rumble_op) (st : rumble_state) :
  one_change (rumble_strength_last st) (fst (rumble_step op st))
    (snd (rumble_step op st)).
Proof.
  destruct op as [active | | value]; cbn [rumble_step].
  - left. split; [reflexivity |]. cbn [fst].
    unfold cartridge_set_rumble.
    destruct (negb (set_rumble_state st) || (rumble_level st =? 0));
      reflexivity.
  - unfold retro_run_rumble. destruct (rumble_active st).
    + apply apply_rumble_change.
    + left. split; reflexivity.
  - unfold check_variables_rumble.
    match goal with
    | |- context [if ?l =? 0 then deactivate_rumble ?s else _] =>
        set (level := l); set (st1 := s)
    end.
    destruct (level =? 0).
    + apply (deactivate_rumble_change st1).
    + left. split; reflexivity.
Qed.

Lemma last_cons_default (s prev : Z) (ss : list Z) :
  List.last (s :: ss) prev = List.last ss s.
Proof.
  revert s prev. induction ss as [| s' ss IH]; intros s prev; [reflexivity |].
  change (List.last (s :: s' :: ss) prev) with (List.last (s' :: ss) prev).
  rewrite (IH s' prev). symmetry. apply IH.
Qed.

(** X25: the frontend hears of every change of rumble strength exactly
    once.  Over any run of motor reports from the core, ends of passes
    and re-readings of the options, the calls of [set_rumble_state] come
    in pairs that set the weak and then the strong motor of port 0 to
    the same 16-bit strength; each pair's strength differs from that of
    the pair before it (from [rumble_strength_last] at the start, for
    the first pair); and at the end [rumble_strength_last] is the
    strength sent last. *)
Theorem frontend_hears_each_rumble_change_once (ops : list rumble_op)
  (st : rumble_state) :
  exists ss : list Z,
    snd (rumble_run ops st) = flat_map both_motors ss /\
    changes (rumble_strength_last st) ss /\
    Forall (fun s => 0 <= s < 2 ^ 16) ss /\
    rumble_strength_last (fst (rumble_run ops st)) =
      List.last ss (rumble_strength_last st).
Proof.
  revert st. induction ops as [| op ops IH]; intros st.
  - exists []. cbn. auto.
  - cbn [rumble_run].
    pose proof (rumble_step_change op st) as Hstep.
    destruct (rumble_step op st) as [st1 calls1]. cbn [fst snd] in Hstep.
    destruct (IH st1) as (ss & Hcalls & Hch & Hrange & Hlast).
    destruct (rumble_run ops st1) as [st2 calls2]. cbn [fst snd] in *.
    destruct Hstep as [[-> Hsame] | (s & -> & Hne & Hs & Hnew)].
    + exists ss. rewrite <- Hsame. cbn [app]. auto.
    + exists (s :: ss). rewrite Hnew in *. cbn [flat_map].
      split; [now rewrite Hcalls |].
      split; [cbn [changes]; auto |].
      split; [constructor; assumption |].
      rewrite Hlast. symmetry. apply last_cons_default.
Qed.

(** X26: the strength of a pass is the level scaled by the share of motor
    reports that had the motor on.  When the core reported the motor bit
    [n] times during a pass (at least once, at most 32768 times), [a]
    times with the bit set, the end of the pass computes the strength
    [a * rumble_level / n], rounded down.  It never exceeds the level,
    equals it when every report had the bit set and is 0 when none had;
    both motors are set to it unless it is the strength already in
    force, and both counters start the next pass at 0. *)
Theorem rumble_strength_is_share_of_active_reports (level last : Z)
  (active : bool) (calls : list Z) :
  0 < level < 2 ^ 16 -> calls <> [] -> Z.of_nat (length calls) <= 32768 ->
  let a := active_calls calls in
  let n := Z.of_nat (length calls) in
  let strength := a * level / n in
  let r := retro_run_rumble (count_calls calls (pass_start level last active))
  in
  0 <= strength <= level /\
  (a = n -> strength = level) /\ (a = 0 -> strength = 0) /\
  snd r = (if strength =? last then [] else both_motors strength) /\
  rumble_strength_last (fst r) = (if strength =? last then last else strength)
  /\
  rumble_strength_up (fst r) = 0 /\ rumble_strength_down (fst r) = 0.
Proof.
  intros Hlevel Hne Hlen. cbv zeta.
  pose proof (active_calls_range calls) as Ha.
  assert (Hn : 0 < Z.of_nat (length calls)).
  { destruct calls; [congruence | cbn [length]; lia]. }
  set (a := active_calls calls) in *. set (n := Z.of_nat (length calls)) in *.
  assert (Hn' : n <= 32768) by (subst n; lia).
  assert (Hstr : 0 <= a * level / n <= level).
  { split.
    - apply Z.div_pos; nia.
    - apply Z.div_le_upper_bound; nia. }
  split; [exact Hstr |].
  split; [intros ->; now rewrite Z.mul_comm, Z.div_mul by lia |].
  split; [intros ->; now rewrite Z.mul_0_l, Z.div_0_l by lia |].
  destruct (count_calls_spec calls (pass_start level last active))
    as (Hi & Hl & Hlast & Hu & Hd & Hact);
    cbn [pass_start set_rumble_state rumble_level rumble_strength_up
           rumble_strength_down]; try lia; try reflexivity.
  cbn [pass_start set_rumble_state rumble_level rumble_strength_up
         rumble_strength_down rumble_strength_last rumble_active]
    in Hl, Hlast, Hu, Hd, Hact.
  fold a in Hu, Hd. fold n in Hd.
  set (st := count_calls calls (pass_start level last active)) in *.
  destruct (decide (calls = [])) as [? | _]; [congruence |].
  unfold retro_run_rumble. rewrite Hact. unfold apply_rumble.
  rewrite Hi, Hl, Hlast, Hu, Hd.
  assert (Hlz : (level =? 0) = false) by (apply Z.eqb_neq; lia).
  rewrite Hlz. cbn [negb orb].
  assert (Hval : u16 (if 0 <? 0 + a
                      then Z.quot (i32 ((0 + a) * level))
                             (0 + a + (0 + (n - a)))
                      else 0) = a * level / n).
  { replace (0 + a + (0 + (n - a))) with n by lia.
    rewrite Z.add_0_l.
    destruct (Z.ltb_spec 0 a) as [Hpos | Hzero].
    - rewrite i32_small by (unfold INT_MIN, INT_MAX; nia).
      rewrite Z.quot_div_nonneg by nia.
      unfold u16. apply Z.mod_small. lia.
    - assert (a = 0) as -> by lia.
      rewrite Z.mul_0_l, Z.div_0_l by lia. reflexivity. }
  rewrite Hval.
  destruct (a * level / n =? last);
    cbn [fst snd rumble_strength_last rumble_strength_up
           rumble_strength_down]; auto.
Qed.

Lemma rumble_strength_is_share_of_active_reports_witness :
  let calls := [1; 0; 1; 1] in
  let a := active_calls calls in
  let n := Z.of_nat (length calls) in
  let strength := a * 65535 / n in
  let r := retro_run_rumble (count_calls calls (pass_start 65535 0 false)) in
  0 <= strength <= 65535 /\
  (a = n -> strength = 65535) /\ (a = 0 -> strength = 0) /\
  snd r = (if strength =? 0 then [] else both_motors strength) /\
  rumble_strength_last (fst r) = (if strength =? 0 then 0 else strength) /\
  rumble_strength_up (fst r) = 0 /\ rumble_strength_down (fst r) = 0.
Proof.
  apply (rumble_strength_is_share_of_active_reports 65535 0 false
           [1; 0; 1; 1]).
  - lia.
  - discriminate.
  - cbn. lia.
Defined.

End RumbleFacts.

(** ** Audio output buffer: further properties *)

Module AudioMoreFacts.
Import Mach MachFacts Audio AudioFacts.

Section InitFacts.
Variable SIZE_MOD : Z.
Variable uninit : Z.
Hypothesis size_t_wide : 2 ^ 32 <= SIZE_MOD.

Lemma init_spec (samples_per_frame : Z) :
  0 <= samples_per_frame -> 8 * (samples_per_frame + 1) < SIZE_MOD ->
  let st := audio_out_buffer_init SIZE_MOD uninit samples_per_frame in
  audio_out_buffer_size st = 4 * (samples_per_frame + 1) /\
  audio_out_buffer_pos st = 0 /\
  audio_wf SIZE_MOD st.
Proof.
  intros H0 Hb. cbv zeta. unfold audio_out_buffer_init, audio_wf.
  cbn [audio_out_buffer audio_out_buffer_size audio_out_buffer_pos].
  rewrite (sz_small SIZE_MOD (samples_per_frame + 1)) by lia.
  rewrite (shiftl_1 (samples_per_frame + 1)).
  rewrite (sz_small SIZE_MOD (2 * (samples_per_frame + 1))) by lia.
  rewrite shiftl_1, (sz_small SIZE_MOD (2 * _)) by lia.
  unfold malloc_i16. rewrite length_replicate.
  rewrite (cells_of_small SIZE_MOD) by lia.
  repeat split; lia.
Qed.

(** A write that fits leaves the allocation alone. *)
Lemma write_fits (st : audio_state) (samples : list Z) (n : Z) :
  audio_wf SIZE_MOD st -> 0 <= n ->
  audio_out_buffer_pos st + 2 * n <= audio_out_buffer_size st ->
  audio_out_buffer_size (audio_out_buffer_write SIZE_MOD uninit st samples n)
  = audio_out_buffer_size st.
Proof.
  intros Hwf Hn Hfit. unfold audio_out_buffer_write.
  cbn [audio_out_buffer_size]. unfold audio_out_buffer_resize.
  pose proof (buffer_capacity_eq SIZE_MOD size_t_wide st Hwf) as Hc.
  destruct (Z.ltb_spec (buffer_capacity SIZE_MOD st) n) as [Hlt | Hge];
    [| reflexivity].
  rewrite Hc in Hlt. exfalso. revert Hlt. zdiv.
Qed.

Lemma write_all_fits (ws : list (list Z * Z)) : forall st,
  audio_wf SIZE_MOD st -> Forall write_ok ws ->
  3 * audio_out_buffer_size st + 4 < SIZE_MOD ->
  audio_out_buffer_pos st + Z.of_nat (length (written ws))
    <= audio_out_buffer_size st ->
  audio_out_buffer_size (write_all SIZE_MOD uninit st ws)
  = audio_out_buffer_size st.
Proof.
  induction ws as [| [samples n] ws IH]; intros st Hwf Hok Hroom Hfit.
  - reflexivity.
  - inversion_clear Hok as [| ? ? Hw Hws].
    pose proof Hw as [Hn Hlen]. cbn [fst snd] in Hn, Hlen.
    unfold written in *. cbn [map concat fst] in *.
    rewrite length_app in Hfit.
    pose proof Hwf as (_ & _ & Hsz).
    assert (Hb1 : 3 * audio_out_buffer_pos st + 6 * n + 4 < SIZE_MOD)
      by lia.
    destruct (write_spec SIZE_MOD uninit size_t_wide st samples n Hwf Hw Hb1)
      as (Hwf1 & Hp1 & _ & _).
    pose proof (write_fits st samples n Hwf Hn ltac:(lia)) as Hs1.
    unfold write_all. cbn [fold_left fst snd].
    set (st1 := audio_out_buffer_write SIZE_MOD uninit st samples n) in *.
    rewrite <- Hs1. apply (IH st1 Hwf1 Hws); lia.
Qed.

(** X27: the buffer [audio_out_buffer_init] creates holds two passes'
    worth of audio.  It has room for [2 * (samples_per_frame + 1)]
    sample pairs and an empty cursor.  Any run of writes that stays
    within that room leaves the allocation at its size, and a run that
    goes beyond it ends with a larger one. *)
Theorem init_buffer_holds_two_frames (samples_per_frame : Z)
  (ws : list (list Z * Z)) :
  0 <= samples_per_frame -> 12 * (samples_per_frame + 1) + 4 < SIZE_MOD ->
  Forall write_ok ws ->
  3 * Z.of_nat (length (written ws)) + 4 < SIZE_MOD ->
  let st0 := audio_out_buffer_init SIZE_MOD uninit samples_per_frame in
  let st := write_all SIZE_MOD uninit st0 ws in
  let room := 4 * (samples_per_frame + 1) in
  audio_out_buffer_size st0 = room /\
  audio_out_buffer_pos st0 = 0 /\
  (Z.of_nat (length (written ws)) <= room ->
   audio_out_buffer_size st = room) /\
  (room < Z.of_nat (length (written ws)) ->
   room < audio_out_buffer_size st).
Proof.
  intros H0 Hb Hok Hlen. cbv zeta.
  destruct (init_spec samples_per_frame H0 ltac:(lia)) as (Hsize & Hpos & Hwf).
  cbv zeta in Hsize, Hpos, Hwf.
  set (st0 := audio_out_buffer_init SIZE_MOD uninit samples_per_frame) in *.
  split; [exact Hsize |]. split; [exact Hpos |]. split.
  - intros Hfit. rewrite <- Hsize. apply write_all_fits; try assumption.
    + rewrite Hsize. lia.
    + rewrite Hpos, Hsize. lia.
  - intros Hover.
    destruct (write_all_spec SIZE_MOD uninit size_t_wide ws st0 Hwf Hok)
      as ((_ & Hin & _) & Hp & _); [rewrite Hpos; lia |].
    rewrite Hpos in Hp. lia.
Qed.

End InitFacts.

Lemma init_buffer_holds_two_frames_witness :
  let st0 := audio_out_buffer_init (2 ^ 32) 0 2 in
  let st := write_all (2 ^ 32) 0 st0 two_writes in
  let room := 4 * (2 + 1) in
  audio_out_buffer_size st0 = room /\
  audio_out_buffer_pos st0 = 0 /\
  (Z.of_nat (length (written two_writes)) <= room ->
   audio_out_buffer_size st = room) /\
  (room < Z.of_nat (length (written two_writes)) ->
   room < audio_out_buffer_size st).
Proof.
  apply (init_buffer_holds_two_frames (2 ^ 32) 0 size_t_32_wide 2 two_writes).
  - lia.
  - lia.
  - exact two_writes_ok.
  - cbn. lia.
Defined.

End AudioMoreFacts.

(** ** Interframe blending, choosing the filter: properties *)

Module BlendInitFacts.
Import Mach MachFacts Blend BlendInit.

Lemma cleared_length : length allocate_video_buf_prev = VIDEO_BUFF_PIXELS.
Proof. apply length_replicate. Qed.

Lemma cleared_ready (st : blend_state) (k : nat) :
  buffer_cleared st k -> buffer_ready st k.
Proof.
  intros H. exists allocate_video_buf_prev. split; [exact H |].
  apply cleared_length.
Qed.

Local Ltac sized Hs :=
  let k := fresh "k" in
  let b := fresh "b" in
  let Hk := fresh "Hk" in
  intros k b Hk;
  destruct k as [| [| [| [| [| k]]]]];
  cbn [prev_buffer video_buf_prev_1 video_buf_prev_2 video_buf_prev_3
         video_buf_prev_4] in Hk;
  try discriminate;
  try (injection Hk as <-; apply cleared_length);
  first [ exact (Hs 1%nat b Hk) | exact (Hs 2%nat b Hk)
        | exact (Hs 3%nat b Hk) | exact (Hs 4%nat b Hk) ].

Section InitBlendFacts.
Variable malloc_ok : nat -> bool.
Variable mips : bool.

Lemma allocate_one_spec (st : blend_state) (n : nat) :
  frame_blend_type st <> FRAME_BLEND_NONE ->
  buffers_used (frame_blend_type st) = [1%nat] ->
  let '(b, ok, _) :=
    allocate_video_buf_prev_at malloc_ok (video_buf_prev_1 st) n in
  allocated st (with_prev_1 st b) ok.
Proof.
  intros Hne Hused. unfold allocate_video_buf_prev_at, allocated.
  rewrite Hused. destruct st as [t b1 b2 b3 b4 rs bf].
  cbn [video_buf_prev_1 with_prev_1 frame_blend_type blend_frames] in *.
  destruct b1 as [l |]; [| destruct (malloc_ok n)];
    (split; [reflexivity |]; split; [reflexivity |]; split;
     [intros Hs; sized Hs |]);
    intros Hok; try discriminate;
    (split; [assumption |]); apply Forall_cons; (split; [exact eq_refl |]);
    apply Forall_nil_2.
Qed.

Lemma allocate_for_spec (st : blend_state) (n : nat) :
  let '(st', ok, _) := allocate_for malloc_ok mips st n in
  allocated st st' ok.
Proof.
  unfold allocate_for.
  destruct (frame_blend_type st) eqn:Et.
  - unfold allocated. rewrite Et.
    repeat split; auto; discriminate.
  - pose proof (allocate_one_spec st n) as H. rewrite Et in H.
    destruct (allocate_video_buf_prev_at _ _ _) as [[b ok] n'].
    apply H; [discriminate | reflexivity].
  - unfold allocate_video_buf_prev_at, allocated. rewrite Et.
    destruct st as [t b1 b2 b3 b4 rs bf].
    cbn [video_buf_prev_1 video_buf_prev_2 video_buf_prev_3 video_buf_prev_4
           with_prev_1 with_prev_2 with_prev_3 with_prev_4
           frame_blend_type blend_frames buffers_used] in *.
    subst t.
    destruct b1 as [l1 |];
      [| destruct (malloc_ok n) ];
      cbn [negb]; cbv beta iota zeta;
      cbn [video_buf_prev_1 video_buf_prev_2 video_buf_prev_3
             video_buf_prev_4 with_prev_1 with_prev_2 with_prev_3
             with_prev_4 frame_blend_type blend_frames negb];
      repeat match goal with
             | |- context [match ?b with Some _ => _ | None => _ end] =>
                 is_var b; destruct b
             | |- context [if malloc_ok ?m then _ else _] =>
                 destruct (malloc_ok m)
             end;
      cbn [negb video_buf_prev_1 video_buf_prev_2 video_buf_prev_3
             video_buf_prev_4 with_prev_1 with_prev_2 with_prev_3
             with_prev_4 frame_blend_type blend_frames];
      (split; [reflexivity |]; split; [reflexivity |]; split;
       [intros Hs; sized Hs |]);
      intros Hok; try discriminate;
      (split; [discriminate |]);
      repeat (apply Forall_cons; split; [exact eq_refl |]);
      apply Forall_nil_2.
  - pose proof (allocate_one_spec st n) as H. rewrite Et in H.
    destruct (allocate_video_buf_prev_at _ _ _) as [[b ok] n'].
    apply H; [discriminate | reflexivity].
  - destruct mips.
    + pose proof (allocate_one_spec st n) as H. rewrite Et in H.
      destruct (allocate_video_buf_prev_at _ _ _) as [[b ok] n'].
      apply H; [discriminate | reflexivity].
    + unfold allocated. rewrite Et.
      repeat split; auto; discriminate.
Qed.

Lemma init_frame_blending_spec (st : blend_state) (n : nat) :
  let st' := fst (init_frame_blending malloc_ok mips st n) in
  frame_blend_type st' = frame_blend_type st /\
  (buffers_sized st -> buffers_sized st') /\
  (blend_frames st' = None \/
   blend_frames st' = Some (frame_blend_type st) /\
   frame_blend_type st <> FRAME_BLEND_NONE /\
   Forall (buffer_cleared st') (buffers_used (frame_blend_type st))).
Proof.
  cbv zeta. unfold init_frame_blending.
  pose proof (allocate_for_spec (with_blend_frames st None) n) as H.
  destruct (allocate_for malloc_ok mips (with_blend_frames st None) n)
    as [[st1 ok] n1].
  destruct H as (Ht & Hb & Hs & Hok).
  cbn [with_blend_frames frame_blend_type blend_frames] in Ht, Hb, Hok.
  destruct ok; cbn [negb fst].
  - destruct (Hok eq_refl) as [Hne Hall].
    cbn [frame_blend_type blend_frames].
    split; [exact Ht |]. split.
    + intros Hsz. assert (Hs1 : buffers_sized st1).
      { apply Hs. intros k b Hk. apply (Hsz k b).
        destruct k as [| [| [| [| [| k]]]]]; exact Hk. }
      intros k b Hk. apply (Hs1 k b).
      destruct k as [| [| [| [| [| k]]]]]; exact Hk.
    + right. split; [now rewrite Ht |]. split; [exact Hne |].
      eapply Forall_impl; [exact Hall |].
      intros k Hk. unfold buffer_cleared in *.
      destruct k as [| [| [| [| [| k]]]]]; exact Hk.
  - split; [exact Ht |]. split.
    + intros Hsz. apply Hs. intros k b Hk. apply (Hsz k b).
      destruct k as [| [| [| [| [| k]]]]]; exact Hk.
    + left. exact Hb.
Qed.

Lemma check_spec (value : option string) (st : blend_state) (n : nat) :
  blend_inv st ->
  let st' := fst (check_frame_blend_variable malloc_ok mips value st n) in
  blend_inv st' /\ blend_safe st' /\
  (blend_frames st' = None \/ blend_frames st' = Some (frame_blend_type st'))
  /\
  (frame_blend_type st' <> frame_blend_type st ->
   forall m, blend_frames st' = Some m ->
             Forall (buffer_cleared st') (buffers_used m)).
Proof.
  intros [Hsz Hinv]. cbv zeta. unfold check_frame_blend_variable.
  set (new_type := match value with
                   | Some v => method_of_value mips v
                   | None => FRAME_BLEND_NONE
                   end).
  destruct (decide (new_type = FRAME_BLEND_NONE)) as [Hnone | Hsome].
  - cbn [fst with_blend_frames]. unfold blend_inv, blend_safe.
    cbn [blend_frames frame_blend_type].
    repeat split; auto; discriminate.
  - destruct (decide (new_type <> frame_blend_type st)) as [Hnew | Hsame].
    + match goal with
      | |- context [init_frame_blending _ _ ?s n] => set (st0 := s)
      end.
      destruct (init_frame_blending_spec st0 n) as (Ht & Hs & Hres).
      assert (Hsz0 : buffers_sized st0).
      { intros k b Hk. apply (Hsz k b).
        destruct k as [| [| [| [| [| k]]]]]; exact Hk. }
      specialize (Hs Hsz0).
      set (st' := fst (init_frame_blending malloc_ok mips st0 n)) in *.
      change (frame_blend_type st0) with new_type in *.
      assert (Hsafe : blend_safe st').
      { unfold blend_safe. destruct Hres as [-> | (-> & Hne & Hall)].
        - exact I.
        - split; [now rewrite Ht |]. split; [exact Hne |].
          eapply Forall_impl; [exact Hall | apply cleared_ready]. }
      split; [split; [exact Hs | left; exact Hsafe] |].
      split; [exact Hsafe |]. split.
      * destruct Hres as [H | (H & _)]; [left; exact H |].
        right. now rewrite Ht.
      * intros _ m Hm. destruct Hres as [H | (H & _ & Hall)].
        -- rewrite H in Hm. discriminate.
        -- rewrite H in Hm. injection Hm as <-. exact Hall.
    + assert (Heq : new_type = frame_blend_type st).
      { destruct (decide (new_type = frame_blend_type st)); [assumption |].
        contradiction. }
      cbn [fst].
      destruct Hinv as [Hsafe | Hn]; [| congruence].
      assert (Hsafe' : blend_safe
        {| frame_blend_type := new_type;
           video_buf_prev_1 := video_buf_prev_1 st;
           video_buf_prev_2 := video_buf_prev_2 st;
           video_buf_prev_3 := video_buf_prev_3 st;
           video_buf_prev_4 := video_buf_prev_4 st;
           frame_blend_response_set := frame_blend_response_set st;
           blend_frames := blend_frames st |}).
      { unfold blend_safe in *. cbn [blend_frames frame_blend_type].
        destruct (blend_frames st) as [m |]; [| exact I].
        destruct Hsafe as (Hm & Hne & Hall).
        split; [congruence |]. split; [exact Hne |].
        eapply Forall_impl; [exact Hall |].
        intros k (b & Hk & Hl). exists b. split; [| exact Hl].
        destruct k as [| [| [| [| [| k]]]]]; exact Hk. }
      split; [split; [| left; exact Hsafe'] |].
      { intros k b Hk. apply (Hsz k b).
        destruct k as [| [| [| [| [| k]]]]]; exact Hk. }
      split; [exact Hsafe' |]. split.
      * cbn [blend_frames frame_blend_type]. unfold blend_safe in Hsafe.
        destruct (blend_frames st) as [m |]; [| left; reflexivity].
        destruct Hsafe as (Hm & _). right. congruence.
      * cbn [frame_blend_type]. intros Hdiff. congruence.
Qed.

Lemma blend_step_inv (op : blend_op) (st : blend_state) (n : nat) :
  blend_inv st -> blend_inv (fst (blend_step malloc_ok mips op st n)).
Proof.
  intros Hinv. destruct op as [value |]; cbn [blend_step].
  - now apply check_spec.
  - cbn [fst]. split; [| right; reflexivity].
    intros k b Hk. destruct k as [| [| [| [| [| k]]]]]; discriminate.
Qed.

Lemma blend_run_inv (ops : list blend_op) : forall st n,
  blend_inv st -> blend_inv (fst (blend_run malloc_ok mips ops st n)).
Proof.
  induction ops as [| op ops IH]; intros st n Hinv; [exact Hinv |].
  cbn [blend_run].
  pose proof (blend_step_inv op st n Hinv) as H1.
  destruct (blend_step malloc_ok mips op st n) as [st1 n1].
  now apply IH.
Qed.

Lemma blend_initial_inv : blend_inv blend_initial.
Proof.
  split; [| right; reflexivity].
  intros k b Hk. destruct k as [| [| [| [| [| k]]]]]; discriminate.
Qed.

(** X30: a blending filter is never installed without its buffers.
    After any run of option readings and releases, with any outcome of
    the allocations, the state a reading of the blend option leaves is
    safe: the function pointer is NULL, or it is the filter of the
    method the option names and every previous-frame buffer that filter
    uses exists with the size of a frame.  When the reading changed the
    method and installed a filter, the buffers the filter uses are all
    zero, so nothing of an earlier picture is blended in. *)
Theorem blend_filter_has_its_buffers (ops : list blend_op)
  (value : option string) (n : nat) :
  let '(before, n1) := blend_run malloc_ok mips ops blend_initial n in
  let st := fst (check_frame_blend_variable malloc_ok mips value before n1) in
  blend_safe st /\
  (blend_frames st = None \/ blend_frames st = Some (frame_blend_type st)) /\
  frame_blend_type st =
    match value with
    | Some v => method_of_value mips v
    | None => FRAME_BLEND_NONE
    end /\
  (frame_blend_type st <> frame_blend_type before ->
   forall m, blend_frames st = Some m ->
             Forall (buffer_cleared st) (buffers_used m)).
Proof.
  pose proof (blend_run_inv ops blend_initial n blend_initial_inv) as Hinv.
  destruct (blend_run malloc_ok mips ops blend_initial n) as [before n1].
  cbn [fst] in Hinv. cbv zeta.
  destruct (check_spec value before n1 Hinv) as (_ & Hsafe & Hptr & Hclr).
  cbv zeta in Hsafe, Hptr, Hclr.
  split; [exact Hsafe |]. split; [exact Hptr |]. split; [| exact Hclr].
  unfold check_frame_blend_variable.
  destruct (decide _) as [Hn | Hs]; [reflexivity |].
  destruct (decide _) as [Hd | He]; [| reflexivity].
  match goal with
  | |- context [init_frame_blending _ _ ?s n1] =>
      destruct (init_frame_blending_spec s n1) as (Ht & _)
  end.
  exact Ht.
Qed.

End InitBlendFacts.

End BlendInitFacts.
